(* ===== verification/_CoqProject ===== *)
-Q . S2P
Prelude.v
PyBuiltins.v
Cards.v
Evaluator.v
Tally.v
Dealer.v
Blackjack.v
Round.v
BlackjackGame.v
Render.v
