(* ===== verification/Prelude.v ===== *)
(** * A verification development of the blackjack/poker repository

    The repository holds two terminal card games written in Python:

    - [src/poker.py]: a five-card draw poker game against a dealer, played with
      a 52-card deck plus two wild jokers.  Its parts are the deck
      ([create_deck]), the hand evaluator ([evaluate], with the table of
      category names [HAND_NAMES]), the session statistics (the globals
      [player_wins], [dealer_wins], [pending_push_multiplier] and the
      percentages [get_player_percent] / [get_dealer_percent]), the dealer's
      discard heuristic ([dealer_discard_strategy]), the round driver
      ([play_round]) that deals, reads which cards the player keeps, lets
      both sides redraw, evaluates both hands and settles the round, the
      game loop ([game]) and the rendering of the table ([format_card],
      [render], [show_table]).
    - [src/GAMBLING!! (1)/Modules/BBlackjack.py]: a blackjack game whose
      nested functions score a hand ([calc_score]), read a bet and break it
      into coins ([place_bet]), render the table ([render_hand],
      [show_table]) and play rounds against a dealer who draws to a random
      target between 17 and 19; when the purse is empty the game offers
      "college funds" once, through the [scorekeeper] module.

    How the poker parts interact: [play_round] pops cards from the deck,
    parses the player's answer, calls [dealer_discard_strategy] on the
    dealer's hand, calls [evaluate] on both hands and compares the two
    results with Python's tuple ordering; the outcome updates the three
    session globals, which [show_table] displays as percentages.  [game]
    repeats [play_round] until the player answers ["n"].

    ** Library layout (dependency order, see _CoqProject)

    - [Prelude] (this file): the error type of Python exceptions and the
      result monad [res] with its notation in [py_scope], the hint database
      [py], the development's tactics ([res_step] splits a chain of binds),
      and the generic lemmas on lists and counting that the components
      share.
    - [PyBuiltins]: the Python built-ins the sources call, modelled from
      Python's semantics (they are not code of the repository): values of
      mixed type [pyval] and the rich comparison of values, lists and
      tuples (with its [TypeError] on [int] against [str], and its
      transitivity); [Counter] as an insertion-ordered association list;
      [range] with a negative step; [str.strip], [str.lower] and [int()] on
      ASCII text (whitespace, sign and digit-group underscores as Python
      reads them); list indexing with negative indices; [sorted(...,
      reverse=True)] on strings; list [pop]; true division and [int()] on
      IEEE-754 binary64 floats, through the Standard Library's SpecFloat.
    - [Cards]: suits, [RANK_ORDER], cards as Python tuples, the unshuffled
      deck of [create_deck] and shuffling as a permutation, [HAND_NAMES].
    - [Evaluator] (Module [Evaluate]): [evaluate], one definition per phase
      of the function (rank extraction, flush search, straight search, four
      of a kind, full house, flush tiebreak, straight, three of a kind,
      pairs, high card), composed as the function composes them.  Its
      second Module, [Monotone], writes the category of [classify] as a
      function of its six tests and proves that substituting a joker for
      a standard card keeps each test that held (the full-house test by
      enumerating every rank multiset of a five-card hand).
    - [Tally] (Module [Tally]): the session statistics and the settlement of
      [play_round] (lines 282-292) as a state record and a step function
      written against the class [ScoreOrder] (the interface between the
      evaluator's results and the resolver), with the percentage computed
      in binary64 as the code does.
    - [Dealer] (Module [Dealer]): [dealer_discard_strategy] (its [keep] set
      is a stdpp [gset nat]) and the discard-and-redraw loop of
      [play_round]; and, composed with [Evaluator], what the dealer's
      turn does to the category of the dealer's hand.
    - [Blackjack] (Module [Blackjack]): [calc_score] (two loops over the
      hand, then the aces), the player's hit-or-stay loop and the dealer's
      draw-to-target loop as fuelled [Fixpoint]s reading the player's
      commands and the drawn cards from streams [cmd] and [draw],
      [place_bet] with its coin breakdown, the variables of [game()] that
      live across rounds as the record [bj_state] ([player_coins],
      [last_bet], [was_push]), the round step [bj_round] on the final
      scores, and one pass of the main loop [bj_full_round].
    - [Round] (Module [Round]): [play_round] as [round_cards] (the deal by
      [deck.pop()], the keep answer parsed into a sorted [gset] of indices,
      the player's redraw on its three branches, the dealer's turn) followed
      by the evaluations, the [HAND_NAMES] lookups and [Tally.settle]; and
      [game] as a fuelled loop over streams of decks and answers.
    - [BlackjackGame] (Module [BlackjackGame]): the bet prompt of
      [place_bet] over the lines [input()] returns ([None] when it raises),
      the attributes of the [scorekeeper] module as a record, and the
      [while True] loop of [game()] with the out-of-coins branch and the
      restart with 50 coins.
    - [Render] (Module [Render]): the strings both tables are built from
      (as their UTF-8 encoding) and what [show_table] writes, as a list of
      terminal events ([Clear] for [os.system('clear')], [Print] for a
      [print] call, [Write] for [print(..., end="")]); the constants the
      blackjack [game()] defines for itself and its [hide], [show],
      [clear] and [typewriter] in the nested Module [BJ].

    ** What is proved

    - Evaluator: totality on every hand of deck cards with a category in
      [0..8] and a defined [HAND_NAMES] entry; the descending search loops
      compute the maximum of the achievable values (a refinement of the
      loops by a declarative specification); the straight loop's last
      iteration ([start = 5]) is dead; characterisations of the straight
      flush and four-of-a-kind results; worked scenarios of the spec.
    - Findings, each evaluated on a concrete deal by an [Example]: the
      flush tiebreak holds face *strings* compared lexicographically (an
      ace-high flush loses to a king-high one), and two flushes that agree
      on four faces make the comparison in [play_round] raise [TypeError]
      ([int] against [str]); turning a card into a joker can lower the
      category (one pair to high card), against the spec's monotonicity
      property; the float percentage is not the floor the spec promises
      ([29] wins of [100] display as [28]).
    - Monotone: from Three of a Kind up, turning a standard card of a
      five-card hand into a joker (at most two jokers after) never lowers
      the category; this is the spec's monotonicity property on the range
      where the code has it.  The pair search of the full house spends
      "the jokers left after the three", which is not a count that grows
      with the jokers, so that test is checked by evaluation: a full house
      that is not four of a kind stays a full house.
    - Tally: the push multiplier is always a power of two, pushes leave the
      win counters unchanged, [k] pushes followed by a win credit [2^k];
      settling two results of [evaluate] that are not flushes refines the
      spec's resolver (sections 4.1 and 4.2, written independently of
      Python's comparison as [spec_resolve]); the comparison raises only
      on two flushes; the percentage lies in [0..100]
      (checked exhaustively for totals up to a bound, since binary64
      rounding is computed, not axiomatised).
    - Dealer: the discarded indices are exactly the non-joker cards whose
      face occurs once and is below ten, in increasing order; jokers are
      never discarded; the redraw loop keeps the hand at five cards and
      pops exactly one card of the deck per discard; popping from the
      highest index down keeps every card not discarded, so the dealer's
      turn never lowers the category of a hand that is not a straight, a
      flush or a straight flush (a made flush below ten can be broken: a
      finding).
    - Round: on a deck made by [create_deck] a round never raises
      [IndexError] or [ValueError] whatever ASCII answer the player types
      (a Unicode digit such as ['²'] passes [isdigit()] and makes [int()]
      raise: a finding outside the model, which reads ASCII), and raises
      [TypeError] only on two flushes; a round conserves the cards (two
      five-card hands and the rest of the deck form a sub-multiset of the
      deck); the keep answer yields exactly the positions [1..5] it names,
      strictly increasing; an answer naming no position behaves like the empty answer
      (a finding); [game] ends after exactly [n + 1] rounds when the first
      ["n"] follows round [n] (liveness) and only ends on an ["n"].
    - Blackjack: [calc_score] equals the closed form "sum of the non-ace
      values, plus one per ace, plus ten when there is an ace and the
      non-ace values plus 11 are at most 21"; it differs from the
      blackjack value exactly when the non-ace values are at most 10 and
      they plus the aces exceed 11, and then reports a bust of a hand worth
      at most 21 (a finding: each ace is counted as 11 whenever it fits
      the running total, before the remaining aces are counted); both
      loops terminate on every command stream and every stream of real
      cards (the dealer stops at a score at least the target, the player
      after at most 22 prompts); [place_bet] accepts exactly the bets in
      [1..player_coins] and its coins add up to the bet; after a push the
      next round is staked without deducting coins, so a push followed by a
      win pays the original bet twice over (a finding); every state reached
      from a non-negative purse satisfies an invariant under which a round
      never raises; and a whole pass of the main loop refines [bj_round]:
      it raises nothing, never exhausts its fuel, and its result is
      [bj_round] applied to the final scores.
    - BlackjackGame: the bet prompt stops at the first line Python reads as
      an int in [1..player_coins] (liveness); typing [str(n)] for a bet [n]
      in that range is read back as [n] (a round trip through CPython's
      [int()] on strings); the prompt never returns once
      [input()] raises on every call, because the bare [except:] swallows
      [EOFError] and [KeyboardInterrupt] (a finding); the game only ends
      with an empty purse after the college-funds offer, and the offer is
      made at most once per process.
    - Render: the poker table shown at the keep prompt depends on the
      dealer's hand only through its size, the blackjack table of the
      player's turn does not depend on the dealer's hole card, and the one
      shown before the bet on neither hand.

    ** Bounds and fuel

    Python integers are unbounded and are modelled as [Z].  [range] is
    computed with fuel [Z.to_nat (start - stop)], which is exactly the number
    of its elements.  Integer true division is modelled as CPython's fast path
    (both operands converted exactly to binary64, one correctly rounded
    division), which is what CPython computes whenever both operands are at
    most [2^53]; the theorems on percentages are stated under that bound.
    The blackjack loops are [while True] loops given fuel: 22 for the
    player (a hand of 22 cards scores at least 22, so the 22nd hit busts)
    and [S target] for the dealer (every card adds at least one point);
    the termination theorems show that this fuel is never exhausted.  The
    game loops and the bet prompt take their fuel as a parameter (they end
    only on the player's input): the liveness theorems say how much fuel
    a given input needs, and [read_bet_spins_on_eof] that no fuel suffices
    once the input is closed.  The bet prompt inside a blackjack round is
    given 100 lines.

    ** Not modelled

    The random source itself: [random.shuffle] is modelled as an arbitrary
    permutation, [random.choice] and [random.randint] as the input streams
    [draw] and [target].  Text the player types is modelled as ASCII; for
    other characters Python's [str.isdigit] and [int] disagree (['²'] is a
    digit that [int] refuses), which makes the keep prompt raise
    [ValueError] (recorded as a finding, not proved).  [time.sleep] (it
    only delays) and the [KeyboardInterrupt] handler of the poker [game] (it
    prints a goodbye) are not modelled.  The [scorekeeper] module lies
    outside the repository: only the two attributes the code reads and
    writes are modelled.  A [show_table] call that raises returns the error
    without the lines printed before it.  The enumeration in [Evaluator.Monotone]
    covers the 6188 rank multisets of five cards and the 1820 of four
    (one joker): ranks lie in [2..14] on hands of deck cards; the one in
    [Dealer] covers the rank multisets of three, four and five standard
    cards (at most two jokers) to show that a full house repeats each of
    its ranks.

    Everything of the two source files that computes is modelled; what is
    left is input and output without a value: the imports, the
    [if __name__ == "__main__"] call, the [KeyboardInterrupt] handler, the
    sleeps, and the module-level statements that only bind the empty
    hands [player_hand] and [dealer_hand] that [game()] clears before each
    round. *)

From Stdlib Require Export ZArith Lia.
From stdpp Require Export base list sets strings.
From Stdlib Require String.

(** ** Python exceptions and the result monad *)

Inductive exc :=
| ValueError
| TypeError
| IndexError
| ZeroDivisionError
| OverflowError.

#[export] Instance exc_eq_dec : EqDecision exc.
Proof. solve_decision. Defined.

(** A computation that returns an [A] or raises. *)
Inductive res (A : Type) : Type :=
| Ok (a : A)
| Err (e : exc).
Arguments Ok {A} a.
Arguments Err {A} e.

Definition res_bind {A B} (m : res A) (k : A -> res B) : res B :=
  match m with
  | Ok a => k a
  | Err e => Err e
  end.

Definition res_map {A B} (f : A -> B) (m : res A) : res B :=
  res_bind m (fun a => Ok (f a)).

Declare Scope py_scope.
Delimit Scope py_scope with py.
Notation "'let!' x ':=' m 'in' k" := (res_bind m (fun x => k))
  (at level 10, x name, m at level 100, k at level 200) : py_scope.
Notation "'let!' ' p ':=' m 'in' k" := (res_bind m (fun x => match x with p => k end))
  (at level 10, p pattern, m at level 100, k at level 200) : py_scope.
Open Scope py_scope.

(** Map a fallible function over a list, stopping at the first error
    (a Python [for] loop that appends to a result list). *)
Fixpoint res_mapM {A B} (f : A -> res B) (l : list A) : res (list B) :=
  match l with
  | [] => Ok []
  | x :: l' => let! y := f x in let! ys := res_mapM f l' in Ok (y :: ys)
  end.

Lemma res_bind_Ok {A B} (m : res A) (k : A -> res B) b :
  res_bind m k = Ok b <-> exists a, m = Ok a /\ k a = Ok b.
Proof.
  destruct m; simpl; split.
  - eauto.
  - intros (? & [= <-] & ?). done.
  - discriminate.
  - intros (? & ? & _). discriminate.
Qed.

Lemma res_mapM_Ok_length {A B} (f : A -> res B) l ys :
  res_mapM f l = Ok ys -> length ys = length l.
Proof.
  revert ys; induction l as [|x l IH]; intros ys H; simpl in *.
  - by injection H as <-.
  - apply res_bind_Ok in H as (y & _ & H).
    apply res_bind_Ok in H as (ys' & Hys & H). injection H as <-.
    simpl. by rewrite (IH _ Hys).
Qed.

Lemma res_mapM_total {A B} (f : A -> res B) (P : B -> Prop) l :
  (forall x, x ∈ l -> exists y, f x = Ok y /\ P y) ->
  exists ys, res_mapM f l = Ok ys /\ Forall P ys.
Proof.
  induction l as [|x l IH]; intros Hf; simpl; [eauto|].
  destruct (Hf x) as (y & -> & Hy); [set_solver|]. simpl.
  destruct IH as (ys & -> & Hys); [intros z Hz; apply Hf; set_solver|]. simpl. eauto.
Qed.

Lemma res_mapM_Forall2 {A B} (f : A -> res B) l ys :
  res_mapM f l = Ok ys -> Forall2 (fun x y => f x = Ok y) l ys.
Proof.
  revert ys; induction l as [|x l IH]; intros ys H; simpl in *.
  - injection H as <-. constructor.
  - apply res_bind_Ok in H as (y & Hy & H).
    apply res_bind_Ok in H as (ys' & Hys & H). injection H as <-.
    constructor; auto.
Qed.

(** ** Counting *)

(** Number of occurrences of [x] in [l] (Python's [l.count(x)]). *)
Definition occ {A} `{EqDecision A} (x : A) (l : list A) : nat :=
  length (List.filter (fun y => bool_decide (y = x)) l).

Lemma occ_nil {A} `{EqDecision A} (x : A) : occ x [] = 0%nat.
Proof. done. Qed.

Lemma occ_cons {A} `{EqDecision A} (x y : A) l :
  occ x (y :: l) = ((if bool_decide (y = x) then 1 else 0) + occ x l)%nat.
Proof. unfold occ; simpl. by case_bool_decide. Qed.

Lemma occ_app {A} `{EqDecision A} (x : A) l1 l2 :
  occ x (l1 ++ l2) = (occ x l1 + occ x l2)%nat.
Proof. unfold occ. by rewrite List.filter_app, length_app. Qed.

Lemma occ_pos_iff {A} `{EqDecision A} (x : A) l : (0 < occ x l)%nat <-> x ∈ l.
Proof.
  induction l as [|y l IH]; rewrite ?occ_cons; simpl.
  - rewrite occ_nil. split; [lia|set_solver].
  - rewrite elem_of_cons. case_bool_decide; subst; [split; [auto|lia]|].
    rewrite <- IH. split; [lia|]. intros [->|]; [congruence|lia].
Qed.

Lemma occ_le_length {A} `{EqDecision A} (x : A) l : (occ x l <= length l)%nat.
Proof. unfold occ. apply List.filter_length_le. Qed.

Lemma occ_submseteq {A} `{EqDecision A} (x : A) l1 l2 :
  l1 ⊆+ l2 -> (occ x l1 <= occ x l2)%nat.
Proof. induction 1; rewrite ?occ_cons; repeat case_bool_decide; lia. Qed.

Lemma occ_perm {A} `{EqDecision A} (x : A) l1 l2 : l1 ≡ₚ l2 -> occ x l1 = occ x l2.
Proof.
  intros Hp. apply Nat.le_antisymm; apply occ_submseteq;
    [|symmetry in Hp]; by apply Permutation_submseteq.
Qed.

(** [List.filter] respects permutations and sub-multisets. *)
Lemma List_filter_perm {A} (f : A -> bool) l l' :
  l ≡ₚ l' -> List.filter f l ≡ₚ List.filter f l'.
Proof. induction 1; simpl; repeat case_match; by econstructor. Qed.

Lemma List_filter_submseteq {A} (f : A -> bool) l l' :
  l ⊆+ l' -> List.filter f l ⊆+ List.filter f l'.
Proof. induction 1; simpl; repeat case_match; by econstructor. Qed.

Lemma List_filter_filter {A} (f g : A -> bool) l :
  List.filter f (List.filter g l) = List.filter (fun x => g x && f x) l.
Proof.
  induction l as [|x l IH]; simpl; [done|].
  destruct (g x); simpl; [destruct (f x); simpl|]; by rewrite IH.
Qed.

Lemma List_filter_idem {A} (f : A -> bool) l :
  List.filter f (List.filter f l) = List.filter f l.
Proof. induction l as [|x l IH]; simpl; [done|]. destruct (f x) eqn:Hx; simpl; by rewrite ?Hx, IH. Qed.

Lemma List_filter_length_mono {A} (f g : A -> bool) l :
  (forall x, x ∈ l -> f x = true -> g x = true) ->
  (length (List.filter f l) <= length (List.filter g l))%nat.
Proof.
  induction l as [|x l IH]; intros Hfg; simpl; [done|].
  assert (IH' : (length (List.filter f l) <= length (List.filter g l))%nat)
    by (apply IH; intros y Hy; apply Hfg; set_solver).
  specialize (Hfg x ltac:(left)).
  destruct (f x), (g x); simpl; [lia|discriminate (Hfg eq_refl)|lia|lia].
Qed.

(** [l.count(y)] on a mapped list counts the preimages. *)
Lemma occ_map {A B} `{EqDecision B} (f : A -> B) y l :
  occ y (map f l) = length (List.filter (fun x => bool_decide (f x = y)) l).
Proof. unfold occ. induction l as [|x l IH]; simpl; [done|]. case_bool_decide; simpl; lia. Qed.

Lemma find_app {A} (p : A -> bool) l1 l2 :
  List.find p (l1 ++ l2) =
  match List.find p l1 with Some x => Some x | None => List.find p l2 end.
Proof. induction l1 as [|x l1 IH]; simpl; [done|]. by destruct (p x). Qed.

Create HintDb py.
Create Rewrite HintDb py_rw.
#[export] Hint Rewrite @occ_nil @occ_cons @occ_app : py_rw.
#[export] Hint Resolve occ_le_length : py.

(** Close a goal about a concrete computation. *)
Ltac py_eval := vm_compute; reflexivity.

(** Prove a decidable proposition on concrete data by evaluating its
    decision procedure. *)
Ltac decide_by_eval := apply (bool_decide_unpack _); vm_compute; exact I.

(** Split a hypothesis [res_bind m k = Ok b] whose continuation matches a
    tuple: name the components of the intermediate value and reduce the
    match. *)
Ltac res_step :=
  match goal with
  | H : res_bind _ _ = Ok _ |- _ =>
      let a := fresh "a" in
      apply res_bind_Ok in H as (a & ? & H);
      repeat lazymatch type of a with prod _ _ => destruct a as [a ?] end;
      cbn beta iota in H
  | H : Ok _ = Ok _ |- _ => injection H as H
  end.

(** Split hypotheses [res_bind m k = Ok b] into their steps. *)
Ltac res_inv :=
  repeat match goal with
  | H : res_bind _ _ = Ok _ |- _ =>
      apply res_bind_Ok in H as (? & ? & H)
  | H : Ok _ = Ok _ |- _ => injection H as H
  end.
