(* ===== verification/PyBuiltins.v ===== *)
(** * Python built-ins used by the sources

    The semantics of the Python operations that [src/poker.py] and the
    blackjack module call, modelled from the language (they are not code of
    the repository): values of mixed type and their rich comparison,
    [collections.Counter], [range] with a negative step, [int()] on strings,
    [sorted(..., reverse=True)] on strings, and binary64 true division with
    [int()] truncation. *)

From S2P Require Import Prelude.
From Stdlib Require Import SpecFloat Ascii.
From stdpp Require Import pretty.
Local Open Scope Z_scope.

(** ** Values of mixed type

    The tiebreak lists built by [evaluate] hold Python [int]s and, in the
    flush branch, [str]s. *)
Inductive pyval :=
| PInt (z : Z)
| PStr (s : String.string).

#[export] Instance pyval_eq_dec : EqDecision pyval.
Proof. solve_decision. Defined.

(** [x == y]: values of different types are unequal, never an error. *)
Definition py_eqb (x y : pyval) : bool := bool_decide (x = y).

(** The ordering used by [<] and [>]: [int] against [str] raises
    [TypeError]; strings compare by code point (the faces are ASCII, where
    [String.compare] is code point order). *)
Definition py_cmp (x y : pyval) : res comparison :=
  match x, y with
  | PInt a, PInt b => Ok (Z.compare a b)
  | PStr a, PStr b => Ok (String.compare a b)
  | _, _ => Err TypeError
  end.

(** List rich comparison (CPython [list_richcompare]): find the first index
    where the items differ by [==]; compare those two items, or the lengths
    when one list is a prefix of the other. *)
Fixpoint pylist_cmp (a b : list pyval) : res comparison :=
  match a, b with
  | [], [] => Ok Eq
  | [], _ :: _ => Ok Lt
  | _ :: _, [] => Ok Gt
  | x :: a', y :: b' => if py_eqb x y then pylist_cmp a' b' else py_cmp x y
  end.

(** [a > b] and [a < b] for lists. *)
Definition pylist_gt (a b : list pyval) : res bool :=
  res_map (fun c => bool_decide (c = Gt)) (pylist_cmp a b).
Definition pylist_lt (a b : list pyval) : res bool :=
  res_map (fun c => bool_decide (c = Lt)) (pylist_cmp a b).

Lemma py_cmp_antisym x y :
  py_cmp y x = res_map CompOpp (py_cmp x y).
Proof.
  destruct x, y; simpl; try done.
  - by rewrite Z.compare_antisym.
  - by rewrite String.compare_antisym.
Qed.

Lemma py_cmp_Eq x y : py_cmp x y = Ok Eq -> x = y.
Proof.
  destruct x, y; simpl; intros Hc; try discriminate; injection Hc as Hc.
  - by apply Z.compare_eq in Hc as ->.
  - by apply String.compare_eq_iff in Hc as ->.
Qed.

Lemma pylist_cmp_refl a : pylist_cmp a a = Ok Eq.
Proof.
  induction a as [|x a IH]; simpl; [done|].
  unfold py_eqb. by rewrite bool_decide_eq_true_2.
Qed.

Lemma pylist_cmp_Eq a b : pylist_cmp a b = Ok Eq <-> a = b.
Proof.
  split; [|intros ->; apply pylist_cmp_refl].
  revert b; induction a as [|x a IH]; intros [|y b]; simpl; try done.
  unfold py_eqb. case_bool_decide; subst.
  - intros Hc. by rewrite (IH b Hc).
  - intros Hc%py_cmp_Eq. congruence.
Qed.

Lemma pylist_cmp_antisym a b :
  pylist_cmp b a = res_map CompOpp (pylist_cmp a b).
Proof.
  revert b; induction a as [|x a IH]; intros [|y b]; simpl; try done.
  unfold py_eqb. rewrite (bool_decide_ext (y = x) (x = y)) by naive_solver.
  case_bool_decide; [apply IH|apply py_cmp_antisym].
Qed.

Definition is_pyint (v : pyval) : Prop := exists z, v = PInt z.

(** Comparing [str] with [int] is the only way a comparison raises. *)
Lemma py_cmp_Err x y e : py_cmp x y = Err e -> e = TypeError.
Proof. destruct x, y; simpl; congruence. Qed.

Lemma pylist_cmp_Err a b e : pylist_cmp a b = Err e -> e = TypeError.
Proof.
  revert b; induction a as [|x a IH]; intros [|y b]; simpl; try congruence.
  destruct (py_eqb x y); [apply IH|apply py_cmp_Err].
Qed.

(** Lists of ints always compare. *)
Lemma pylist_cmp_ints a b :
  Forall is_pyint a -> Forall is_pyint b -> exists c, pylist_cmp a b = Ok c.
Proof.
  intros Ha. revert b; induction Ha as [|x a [z ->] Ha IH]; intros b Hb;
    destruct Hb as [|y b [w ->] Hb]; simpl; eauto.
  destruct (py_eqb _ _); eauto.
Qed.

(** Tuple comparison of two [(int, list)] pairs, the shape of [evaluate]'s
    result: the first items are compared when they differ by [==],
    otherwise the lists are compared. *)
Definition pyscore_cmp (p d : Z * list pyval) : res comparison :=
  if Z.eqb p.1 d.1 then pylist_cmp p.2 d.2 else Ok (Z.compare p.1 d.1).

Definition pyscore_gt (p d : Z * list pyval) : res bool :=
  res_map (fun c => bool_decide (c = Gt)) (pyscore_cmp p d).
Definition pyscore_lt (p d : Z * list pyval) : res bool :=
  res_map (fun c => bool_decide (c = Lt)) (pyscore_cmp p d).

Lemma pyscore_cmp_Eq p d : pyscore_cmp p d = Ok Eq <-> p = d.
Proof.
  destruct p as [c1 t1], d as [c2 t2]; unfold pyscore_cmp; simpl.
  destruct (Z.eqb_spec c1 c2) as [->|Hne].
  - rewrite pylist_cmp_Eq. naive_solver.
  - split; [intros [= ?%Z.compare_eq]; congruence|naive_solver].
Qed.

Lemma pyscore_cmp_Err p d e :
  pyscore_cmp p d = Err e -> e = TypeError /\ p.1 = d.1 /\ pylist_cmp p.2 d.2 = Err e.
Proof.
  unfold pyscore_cmp. destruct (Z.eqb_spec p.1 d.1); [|discriminate].
  intros Hc. split_and!; [by eapply pylist_cmp_Err|done|done].
Qed.

Lemma pyscore_cmp_antisym p d :
  pyscore_cmp d p = res_map CompOpp (pyscore_cmp p d).
Proof.
  destruct p as [c1 t1], d as [c2 t2]; unfold pyscore_cmp; simpl.
  rewrite Z.eqb_sym. destruct (Z.eqb c1 c2); [apply pylist_cmp_antisym|].
  simpl. by rewrite Z.compare_antisym.
Qed.

(** ** [collections.Counter]

    A Python [dict] keeps its keys in insertion order; [Counter(xs)] counts
    [xs] in one pass.  The association list keeps that order, which
    [suit_counts.items()] exposes. *)
Section Counter.
Context {K : Type} `{EqDecision K}.

Fixpoint counter_add (k : K) (c : list (K * Z)) : list (K * Z) :=
  match c with
  | [] => [(k, 1)]
  | (k', n) :: c' =>
      if decide (k = k') then (k', n + 1) :: c' else (k', n) :: counter_add k c'
  end.

Definition Counter (xs : list K) : list (K * Z) :=
  fold_left (fun c k => counter_add k c) xs [].

(** [count.get(k, 0)] *)
Fixpoint counter_get (c : list (K * Z)) (k : K) : Z :=
  match c with
  | [] => 0
  | (k', n) :: c' => if decide (k = k') then n else counter_get c' k
  end.

Lemma counter_get_add c k k' :
  counter_get (counter_add k c) k' =
  counter_get c k' + (if decide (k' = k) then 1 else 0).
Proof.
  induction c as [|[k0 n] c IH]; simpl.
  - repeat case_decide; subst; simpl; try congruence; lia.
  - repeat (case_decide; subst; simpl); try congruence; rewrite ?IH; lia.
Qed.

Lemma counter_get_fold xs c k :
  counter_get (fold_left (fun c k => counter_add k c) xs c) k =
  counter_get c k + Z.of_nat (occ k xs).
Proof.
  revert c; induction xs as [|x xs IH]; intros c; simpl.
  - rewrite occ_nil. lia.
  - rewrite IH, counter_get_add, occ_cons.
    repeat case_decide; case_bool_decide; subst; try congruence; lia.
Qed.

(** [Counter(xs).get(k, 0)] is the number of occurrences of [k]. *)
Lemma counter_get_Counter xs k : counter_get (Counter xs) k = Z.of_nat (occ k xs).
Proof. unfold Counter. rewrite counter_get_fold. simpl. lia. Qed.

Lemma counter_add_keys k c :
  (fst <$> counter_add k c) =
  if decide (k ∈ (fst <$> c)) then (fst <$> c) else (fst <$> c) ++ [k].
Proof.
  induction c as [|[k0 n] c IH]; [done|]. cbn [counter_add].
  destruct (decide (k = k0)) as [->|Hk]; rewrite !fmap_cons; simpl.
  - rewrite decide_True; [done|]. apply elem_of_cons; by left.
  - rewrite IH. repeat case_decide; first [reflexivity | set_solver].
Qed.

Lemma Counter_keys_fold xs c :
  NoDup ((fst <$> c)) ->
  NoDup ((fst <$> fold_left (fun c k => counter_add k c) xs c)) /\
  (forall k, k ∈ (fst <$> fold_left (fun c k => counter_add k c) xs c) <->
             k ∈ (fst <$> c) \/ k ∈ xs).
Proof.
  revert c; induction xs as [|x xs IH]; intros c Hc; simpl.
  - split; [done|set_solver].
  - assert (NoDup ((fst <$> counter_add x c)) /\
            forall k, k ∈ (fst <$> counter_add x c) <-> k ∈ (fst <$> c) \/ k = x)
      as [Hnd Hin].
    { rewrite counter_add_keys. case_decide.
      - split; [done|set_solver].
      - split; [apply NoDup_app; split_and!; [done| |by apply NoDup_singleton]|];
          set_solver. }
    destruct (IH _ Hnd) as [Hnd' Hin']. split; [done|].
    intros k. rewrite Hin', Hin, elem_of_cons. tauto.
Qed.

(** The keys of [Counter(xs)] are distinct and are the elements of [xs]. *)
Lemma Counter_keys xs :
  NoDup ((fst <$> Counter xs)) /\ (forall k, k ∈ (fst <$> Counter xs) <-> k ∈ xs).
Proof.
  destruct (Counter_keys_fold xs [] (NoDup_nil_2)) as [Hnd Hin].
  split; [done|]. intros k. rewrite Hin. set_solver.
Qed.

Lemma counter_get_elem c k n :
  NoDup ((fst <$> c)) -> (k, n) ∈ c -> counter_get c k = n.
Proof.
  induction c as [|[k0 n0] c IH]; simpl; [set_solver|].
  rewrite NoDup_cons, elem_of_cons. intros [Hk0 Hnd] [[= -> ->]|Hin].
  - by rewrite decide_True.
  - rewrite decide_False; [by apply IH|].
    intros ->. apply Hk0. apply (list_elem_of_fmap_2 fst c (k0, n)), Hin.
Qed.

(** Every item [(k, n)] of [Counter(xs)] has [k ∈ xs] and [n] its count. *)
Lemma Counter_items xs k n :
  (k, n) ∈ Counter xs -> k ∈ xs /\ n = Z.of_nat (occ k xs).
Proof.
  intros Hin. destruct (Counter_keys xs) as [Hnd Hkeys]. split.
  - apply Hkeys. apply (list_elem_of_fmap_2 fst _ (k, n)), Hin.
  - rewrite <- counter_get_Counter. symmetry. by apply counter_get_elem.
Qed.

Lemma Counter_keys_complete xs k :
  k ∈ xs -> (k, Z.of_nat (occ k xs)) ∈ Counter xs.
Proof.
  intros Hk. destruct (Counter_keys xs) as [_ Hkeys].
  apply Hkeys, list_elem_of_fmap in Hk as ([k' n] & -> & Hin). simpl.
  by destruct (Counter_items _ _ _ Hin) as [_ <-].
Qed.
End Counter.

(** ** [range(start, stop, -1)] *)

Fixpoint range_desc_aux (n : nat) (start : Z) : list Z :=
  match n with
  | O => []
  | S n' => start :: range_desc_aux n' (start - 1)
  end.

(** [range(start, stop, -1)]: [start, start-1, ..., stop+1]; it has
    [start - stop] elements (none when [start <= stop]). *)
Definition range_desc (start stop : Z) : list Z :=
  range_desc_aux (Z.to_nat (start - stop)) start.

Lemma range_desc_aux_spec n start r :
  r ∈ range_desc_aux n start <-> start - Z.of_nat n < r <= start.
Proof.
  revert start; induction n as [|n IH]; intros start; simpl.
  - rewrite elem_of_nil. lia.
  - rewrite elem_of_cons, IH. lia.
Qed.

Lemma elem_of_range_desc start stop r :
  r ∈ range_desc start stop <-> stop < r <= start.
Proof. unfold range_desc. rewrite range_desc_aux_spec. lia. Qed.

(** A loop [for r in range(start, stop, -1): if p(r): ... break] hits the
    largest [r] of the range for which [p] holds. *)
Lemma find_range_desc_aux_Some (p : Z -> bool) n start r :
  List.find p (range_desc_aux n start) = Some r <->
  start - Z.of_nat n < r <= start /\ p r = true /\
  (forall r', r < r' <= start -> p r' = false).
Proof.
  revert start; induction n as [|n IH]; intros start; simpl.
  { split; [done|intros; lia]. }
  destruct (p start) eqn:Hp.
  - split.
    + intros [= <-]. split; [lia|]. split; [done|intros; lia].
    + intros (Hr & Hpr & Hmax). destruct (Z.eq_dec r start) as [->|]; [done|].
      rewrite Hmax in Hp; [done|lia].
  - rewrite IH. split.
    + intros (Hr & Hpr & Hmax). split; [lia|]. split; [done|].
      intros r' Hr'. destruct (Z.eq_dec r' start) as [->|]; [done|]. apply Hmax; lia.
    + intros (Hr & Hpr & Hmax).
      destruct (Z.eq_dec r start) as [->|]; [congruence|].
      split; [lia|]. split; [done|]. intros r' Hr'. apply Hmax; lia.
Qed.

Lemma find_range_desc_Some (p : Z -> bool) start stop r :
  List.find p (range_desc start stop) = Some r <->
  stop < r <= start /\ p r = true /\ (forall r', r < r' <= start -> p r' = false).
Proof.
  unfold range_desc. rewrite find_range_desc_aux_Some.
  split; intros (Hr & Hp & Hmax); (split; [lia|auto]).
Qed.

Lemma find_range_desc_None (p : Z -> bool) start stop :
  List.find p (range_desc start stop) = None <->
  (forall r, stop < r <= start -> p r = false).
Proof.
  split.
  - intros Hn r Hr. destruct (p r) eqn:Hp; [|done].
    destruct (List.find_none _ _ Hn r) as []; [apply list_elem_of_In, elem_of_range_desc; lia|].
    congruence.
  - intros Hall. destruct (List.find p _) as [r|] eqn:Hf; [|done].
    apply List.find_some in Hf as [Hin Hp].
    apply list_elem_of_In, elem_of_range_desc in Hin. rewrite Hall in Hp; [done|lia].
Qed.

(** ** String methods on ASCII text

    Python strings are sequences of code points; the model covers the ASCII
    ones, which is what a terminal line typed on a keyboard holds and what
    the sources write.  [str.isspace()] holds for the codes 9-13 and 28-32,
    [str.isdigit()] for ['0'..'9'], [str.lower()] maps ['A'..'Z']. *)
Definition py_isspace (c : ascii) : bool :=
  let n := nat_of_ascii c in (((9 <=? n) && (n <=? 13)) || ((28 <=? n) && (n <=? 32)))%nat.

Definition digit_value (c : ascii) : option Z :=
  let n := Z.of_nat (nat_of_ascii c) in
  if (48 <=? n) && (n <=? 57) then Some (n - 48) else None.

Fixpoint lstrip_chars (l : list ascii) : list ascii :=
  match l with
  | c :: l' => if py_isspace c then lstrip_chars l' else l
  | [] => []
  end.

(** [s.strip()] *)
Definition py_strip (s : string) : string :=
  String.string_of_list_ascii
    (rev (lstrip_chars (rev (lstrip_chars (String.list_ascii_of_string s))))).

Definition py_lower_char (c : ascii) : ascii :=
  let n := nat_of_ascii c in
  if ((65 <=? n) && (n <=? 90))%nat then ascii_of_nat (n + 32) else c.

(** [s.lower()] *)
Fixpoint py_lower (s : string) : string :=
  match s with
  | EmptyString => EmptyString
  | String c s' => String (py_lower_char c) (py_lower s')
  end.

(** ** [int()] on a string

    Python's [int(s)] on a [str]: surrounding whitespace is stripped, then
    an optional sign, then decimal digits in groups separated by single
    underscores ([int(" 1_0 ") = 10]; ["_1"], ["1_"], ["1__0"] and [""] raise
    [ValueError]). *)

(** The digits after the sign; [after_us] is true at the start and after an
    underscore, where a digit must come next. *)
Fixpoint parse_digits (l : list ascii) (acc : Z) (after_us : bool) : option Z :=
  match l with
  | [] => if after_us then None else Some acc
  | c :: l' =>
      if bool_decide (c = "_"%char) then
        if after_us then None else parse_digits l' acc true
      else match digit_value c with
           | Some d => parse_digits l' (acc * 10 + d) false
           | None => None
           end
  end.

Definition parse_unsigned (l : list ascii) : res Z :=
  match parse_digits l 0 true with Some z => Ok z | None => Err ValueError end.

Definition py_int (s : string) : res Z :=
  match String.list_ascii_of_string (py_strip s) with
  | "-"%char :: l => res_map Z.opp (parse_unsigned l)
  | "+"%char :: l => parse_unsigned l
  | l => parse_unsigned l
  end.

(** *** [int(str(z)) == z]

    [str] of an int is its decimal numeral, stdpp's [pretty]: digits
    without leading zeros after an optional minus sign. *)

Lemma pretty_N_char_cases d :
  (d < 10)%N -> exists n : nat, (n < 10)%nat /\ Z.of_N d = Z.of_nat n /\
                                pretty_N_char d = ascii_of_nat (48 + n).
Proof.
  intros Hd. assert (d = 0 \/ d = 1 \/ d = 2 \/ d = 3 \/ d = 4 \/ d = 5 \/ d = 6 \/ d = 7 \/
                     d = 8 \/ d = 9)%N as H by lia.
  repeat destruct H as [->|H]; [exists 0%nat|exists 1%nat|exists 2%nat|exists 3%nat
    |exists 4%nat|exists 5%nat|exists 6%nat|exists 7%nat|exists 8%nat|subst d; exists 9%nat];
    split_and!; try lia; reflexivity.
Qed.

Lemma digit_char_spec (n : nat) :
  (n < 10)%nat -> digit_value (ascii_of_nat (48 + n)) = Some (Z.of_nat n) /\
                  py_isspace (ascii_of_nat (48 + n)) = false /\ ascii_of_nat (48 + n) <> "_"%char.
Proof.
  intros Hn. do 10 (destruct n as [|n]; [split_and!; [reflexivity|reflexivity|discriminate]|]). lia.
Qed.

Lemma parse_digits_pretty_N_go x s :
  (0 < x)%N ->
  parse_digits (String.list_ascii_of_string (pretty_N_go x s)) 0 true =
  parse_digits (String.list_ascii_of_string s) (Z.of_N x) false.
Proof.
  revert s. induction (N.lt_wf_0 x) as [x _ IH]; intros s Hx.
  rewrite pretty_N_go_step by done.
  destruct (pretty_N_char_cases (x `mod` 10)%N) as (n & Hn & Hv & Hc); [apply N.mod_lt; lia|].
  destruct (digit_char_spec n Hn) as (Hd & _ & Hus).
  pose proof (N.div_mod x 10 ltac:(lia)) as Hdm.
  destruct (decide (x `div` 10 = 0)%N) as [H0|H0].
  - rewrite H0, pretty_N_go_0. simpl. rewrite Hc, bool_decide_false, Hd by done. f_equal. lia.
  - rewrite IH; [|apply N.div_lt; lia|lia]. simpl. rewrite Hc, bool_decide_false, Hd by done.
    f_equal. lia.
Qed.

Lemma pretty_N_go_chars x s (P : ascii -> Prop) :
  (forall n : nat, (n < 10)%nat -> P (ascii_of_nat (48 + n))) ->
  Forall P (String.list_ascii_of_string s) ->
  Forall P (String.list_ascii_of_string (pretty_N_go x s)).
Proof.
  intros Hdig. revert s. induction (N.lt_wf_0 x) as [x _ IH]; intros s Hs.
  destruct (decide (x = 0)%N) as [->|Hx]; [by rewrite pretty_N_go_0|].
  rewrite pretty_N_go_step by lia. apply IH; [apply N.div_lt; lia|]. simpl. constructor; [|done].
  destruct (pretty_N_char_cases (x `mod` 10)%N) as (n & Hn & _ & ->); [apply N.mod_lt; lia|].
  by apply Hdig.
Qed.

Lemma lstrip_chars_id l : Forall (fun c => py_isspace c = false) l -> lstrip_chars l = l.
Proof. intros [|c l' Hc _]; simpl; [done|]. by rewrite Hc. Qed.

Lemma py_strip_id s :
  Forall (fun c => py_isspace c = false) (String.list_ascii_of_string s) -> py_strip s = s.
Proof.
  intros Hs. unfold py_strip. rewrite (lstrip_chars_id (String.list_ascii_of_string s)) by done.
  rewrite lstrip_chars_id, rev_involutive by (by apply Forall_rev).
  apply String.string_of_list_ascii_of_string.
Qed.

Lemma pretty_N_go_cons x a s : exists b t, pretty_N_go x (String a s) = String b t.
Proof.
  revert a s. induction (N.lt_wf_0 x) as [x _ IH]; intros a s.
  destruct (decide (x = 0)%N) as [->|Hx]; [rewrite pretty_N_go_0; eauto|].
  rewrite pretty_N_go_step by lia. apply IH, N.div_lt; lia.
Qed.

Lemma pretty_pos_digits p :
  exists c l, String.list_ascii_of_string (pretty (Npos p)) = c :: l /\
    Forall (fun c => py_isspace c = false) (c :: l) /\
    (exists n : nat, (n < 10)%nat /\ c = ascii_of_nat (48 + n)) /\
    parse_digits (c :: l) 0 true = Some (Zpos p).
Proof.
  unfold pretty, pretty_N. rewrite decide_False by done.
  pose proof (parse_digits_pretty_N_go (Npos p) "" ltac:(lia)) as Hparse.
  pose proof (pretty_N_go_chars (Npos p) "" (fun c => py_isspace c = false /\
     exists n : nat, (n < 10)%nat /\ c = ascii_of_nat (48 + n))) as Hchars.
  destruct (String.list_ascii_of_string (pretty_N_go (N.pos p) "")) as [|c l] eqn:E.
  - rewrite pretty_N_go_step in E by lia.
    destruct (pretty_N_go_cons (N.pos p `div` 10) (pretty_N_char (N.pos p `mod` 10)) "")
      as (b & t & Hbt). by rewrite Hbt in E.
  - exists c, l. split; [done|]. simpl in Hparse.
    assert (Hall : Forall (fun c => py_isspace c = false /\
                      exists n : nat, (n < 10)%nat /\ c = ascii_of_nat (48 + n)) (c :: l)).
    { apply Hchars; [|constructor].
      intros n Hn. split; [apply (digit_char_spec n Hn)|eauto]. }
    split_and!.
    + eapply Forall_impl; [exact Hall|]. by intros ? [? _].
    + by apply Forall_cons in Hall as [[_ ?] _].
    + simpl. exact Hparse.
Qed.

(** [int(str(z)) == z] for every int. *)
Lemma py_int_pretty z : py_int (pretty z) = Ok z.
Proof.
  destruct z as [|p|p]; [reflexivity| |].
  - destruct (pretty_pos_digits p) as (c & l & Hl & Hsp & (n & Hn & ->) & Hparse).
    unfold py_int. rewrite py_strip_id by (change (pretty (Zpos p)) with (pretty (Npos p)); by rewrite Hl).
    change (pretty (Zpos p)) with (pretty (Npos p)). rewrite Hl.
    assert (Hu : parse_unsigned (ascii_of_nat (48 + n) :: l) = Ok (Zpos p))
      by (unfold parse_unsigned; by rewrite Hparse).
    revert Hu. do 10 (destruct n as [|n]; [exact id|]). lia.
  - destruct (pretty_pos_digits p) as (c & l & Hl & Hsp & _ & Hparse).
    unfold py_int. change (pretty (Zneg p)) with (String "-" (pretty (Npos p))).
    rewrite py_strip_id by (cbn [String.list_ascii_of_string]; rewrite Hl; by constructor).
    cbn [String.list_ascii_of_string]. rewrite Hl. unfold parse_unsigned. by rewrite Hparse.
Qed.

(** [l[i]] with Python's negative indices; [IndexError] out of range. *)
Definition py_index {A} (l : list A) (i : Z) : res A :=
  let j := if i <? 0 then i + Z.of_nat (length l) else i in
  if j <? 0 then Err IndexError
  else match l !! Z.to_nat j with Some x => Ok x | None => Err IndexError end.

Lemma py_index_Ok {A} (l : list A) (i : nat) x : l !! i = Some x -> py_index l (Z.of_nat i) = Ok x.
Proof.
  intros Hi. unfold py_index. destruct (Z.ltb_spec (Z.of_nat i) 0); [lia|].
  destruct (Z.ltb_spec (Z.of_nat i) 0); [lia|]. by rewrite Nat2Z.id, Hi.
Qed.

(** ** [sorted(xs, reverse=True)] on strings

    Insertion into a list kept in descending code-point order.  Python's
    sort is stable; equal strings are identical, so stability does not show
    in the result. *)
Fixpoint insert_desc (x : string) (l : list string) : list string :=
  match l with
  | [] => [x]
  | y :: l' =>
      match String.compare x y with
      | Lt => y :: insert_desc x l'
      | _ => x :: l
      end
  end.

Definition sorted_desc (l : list string) : list string := foldr insert_desc [] l.

Lemma insert_desc_perm x l : insert_desc x l ≡ₚ x :: l.
Proof.
  induction l as [|y l IH]; simpl; [done|].
  destruct (String.compare x y); try done.
  rewrite IH. apply perm_swap.
Qed.

Lemma sorted_desc_perm l : sorted_desc l ≡ₚ l.
Proof.
  induction l as [|x l IH]; simpl; [done|].
  by rewrite insert_desc_perm, IH.
Qed.

Lemma length_sorted_desc l : length (sorted_desc l) = length l.
Proof. apply Permutation_length, sorted_desc_perm. Qed.

(** ** Lists as stacks: [l.pop()] and [l.pop(i)] *)

(** [l.pop()]: the last element and the rest; [IndexError] on [[]]. *)
Definition py_pop {A} (l : list A) : res (A * list A) :=
  match last l with
  | Some x => Ok (x, removelast l)
  | None => Err IndexError
  end.

(** [l.pop(i)] for [0 <= i]; [IndexError] when [i >= len(l)]. *)
Definition py_pop_at {A} (i : nat) (l : list A) : res (A * list A) :=
  match l !! i with
  | Some x => Ok (x, take i l ++ drop (S i) l)
  | None => Err IndexError
  end.

Lemma py_pop_Ok {A} (l : list A) x l' : py_pop l = Ok (x, l') -> l = l' ++ [x].
Proof.
  unfold py_pop. destruct (last l) as [y|] eqn:Hl; [|discriminate].
  intros [= <- <-]. apply last_Some in Hl as [l0 ->].
  by rewrite removelast_last.
Qed.

Lemma py_pop_length {A} (l : list A) : l <> [] -> exists x l', py_pop l = Ok (x, l').
Proof.
  intros Hne. unfold py_pop. destruct (last l) eqn:Hl; [eauto|].
  apply last_None in Hl. congruence.
Qed.

Lemma py_pop_at_Ok {A} i (l : list A) :
  (i < length l)%nat -> exists x l', py_pop_at i l = Ok (x, l') /\ S (length l') = length l.
Proof.
  intros Hi. unfold py_pop_at. destruct (lookup_lt_is_Some_2 l i Hi) as [x ->].
  eexists _, _. split; [reflexivity|]. rewrite length_app, length_take, length_drop. lia.
Qed.

Lemma py_pop_Ok_cons {A} (l : list A) :
  l <> [] -> exists x l', py_pop l = Ok (x, l') /\ l = l' ++ [x].
Proof.
  intros Hne. destruct (py_pop_length l Hne) as (x & l' & Hp).
  exists x, l'. split; [done|]. by apply py_pop_Ok.
Qed.

(** ** Floats: [a / b] on ints, [x * n], [int(x)]

    Binary64 through the Standard Library's [SpecFloat] (an executable
    specification of IEEE-754 with round-to-nearest-even).  CPython divides
    two ints whose magnitudes are at most [2^53] by converting both exactly
    and dividing once, which is what [py_truediv] computes. *)
Definition f64_prec : Z := 53.
Definition f64_emax : Z := 1024.

Definition float_of_int (z : Z) : spec_float :=
  binary_normalize f64_prec f64_emax z 0 false.

Definition py_truediv (a b : Z) : res spec_float :=
  if Z.eqb b 0 then Err ZeroDivisionError
  else Ok (SFdiv f64_prec f64_emax (float_of_int a) (float_of_int b)).

(** [x * n] with an int [n]: [n] is converted to a float first. *)
Definition py_fmul_int (x : spec_float) (n : Z) : spec_float :=
  SFmul f64_prec f64_emax x (float_of_int n).

(** [int(x)]: truncation toward zero; [OverflowError] on an infinity,
    [ValueError] on a NaN. *)
Definition py_int_of_float (x : spec_float) : res Z :=
  match x with
  | S754_zero _ => Ok 0
  | S754_infinity _ => Err OverflowError
  | S754_nan => Err ValueError
  | S754_finite s m e =>
      let q := if Z.leb 0 e then Z.pos m * 2 ^ e else Z.pos m / 2 ^ (- e) in
      Ok (if s then - q else q)
  end.
