(* ===== verification/Cards.v ===== *)
(** * Cards and the deck of [src/poker.py]

    Suits ([SUITS], lines 16-23), the face strings [RANK_ORDER] (line 26),
    cards as the Python tuples [(face, suit)] with the joker
    [("JOKER", None)], the deck built by [create_deck] (lines 77-81) and the
    table [HAND_NAMES] (lines 84-87).  [random.shuffle] is modelled as an
    arbitrary permutation of the unshuffled deck. *)

From S2P Require Import Prelude PyBuiltins.
Local Open Scope Z_scope.

(** The four suit strings; the code only tests them with [==] and uses them
    as dictionary keys, so distinct constructors model them faithfully. *)
Inductive suit := HEART | DIAMOND | SPADE | CLUB.

#[export] Instance suit_eq_dec : EqDecision suit.
Proof. solve_decision. Defined.

Definition SUITS : list suit := [HEART; DIAMOND; SPADE; CLUB].

Definition RANK_ORDER : list string :=
  ["2"; "3"; "4"; "5"; "6"; "7"; "8"; "9"; "10"; "J"; "Q"; "K"; "A"].

(** A card is the tuple [(face, suit)]; the joker is [("JOKER", None)]. *)
Definition card : Type := string * option suit.

Definition JOKER : card := ("JOKER", None).

(** [deck = [(r, s) for r in RANK_ORDER for s in SUITS]] followed by the
    two jokers, before [random.shuffle]. *)
Definition unshuffled_deck : list card :=
  (RANK_ORDER ≫= fun r => map (fun s => (r, Some s)) SUITS) ++ [JOKER; JOKER].

(** [create_deck()] returns some permutation of [unshuffled_deck]. *)
Definition create_deck (deck : list card) : Prop := deck ≡ₚ unshuffled_deck.

Definition HAND_NAMES : list string :=
  ["High Card"; "One Pair"; "Two Pair"; "Three of a Kind";
   "Straight"; "Flush"; "Full House"; "Four of a Kind"; "Straight Flush"].

(** [c[0] == "JOKER"] *)
Definition is_joker (c : card) : bool := bool_decide (c.1 = "JOKER").

(** A card of the deck. *)
Definition deck_card (c : card) : Prop := c ∈ unshuffled_deck.

#[export] Instance deck_card_dec c : Decision (deck_card c).
Proof. unfold deck_card. apply _. Defined.

(** ** Facts about the deck *)

Lemma length_unshuffled_deck : length unshuffled_deck = 54%nat.
Proof. py_eval. Qed.

Lemma unshuffled_deck_jokers : occ JOKER unshuffled_deck = 2%nat.
Proof. py_eval. Qed.

(** A deck card is a joker, or a face of [RANK_ORDER] with a suit. *)
Lemma deck_card_cases c :
  deck_card c -> c = JOKER \/ (c.1 ∈ RANK_ORDER /\ exists s, c.2 = Some s).
Proof.
  unfold deck_card, unshuffled_deck. rewrite elem_of_app, list_elem_of_bind.
  intros [(r & Hc & Hr)|Hj].
  - apply list_elem_of_fmap in Hc as (s & -> & _). right. eauto.
  - left. set_solver.
Qed.

Lemma JOKER_not_face : "JOKER" ∉ RANK_ORDER.
Proof. apply (proj1 (bool_decide_eq_false _)). reflexivity. Qed.

(** On deck cards, [c[0] == "JOKER"] holds exactly for the jokers. *)
Lemma deck_card_is_joker c : deck_card c -> is_joker c = true <-> c = JOKER.
Proof.
  intros [->|[Hr _]]%deck_card_cases; unfold is_joker; [done|].
  case_bool_decide as Hj; [|split; [done|intros ->; done]].
  rewrite Hj in Hr. by destruct JOKER_not_face.
Qed.

(** Cards dealt from a shuffled deck: a sub-multiset of the deck. *)
Definition dealt_from (hand deck : list card) : Prop := hand ⊆+ deck.

(** A hand dealt from a deck made by [create_deck] holds at most
    two jokers (the data-model invariant the spec states for hands: it is
    enforced by the deck, not by the evaluator). *)
Theorem dealt_jokers_le_2 hand deck :
  create_deck deck -> dealt_from hand deck -> (occ JOKER hand <= 2)%nat.
Proof.
  unfold create_deck, dealt_from. intros Hd Hh.
  rewrite <- unshuffled_deck_jokers, <- (occ_perm _ _ _ Hd).
  by apply occ_submseteq.
Qed.

Lemma dealt_jokers_le_2_witness :
  create_deck unshuffled_deck /\ dealt_from [JOKER; ("A", Some SPADE); JOKER] unshuffled_deck /\
  (occ JOKER [JOKER; ("A", Some SPADE); JOKER] <= 2)%nat.
Proof.
  assert (H1 : create_deck unshuffled_deck) by (unfold create_deck; reflexivity).
  assert (H2 : dealt_from [JOKER; ("A", Some SPADE); JOKER] unshuffled_deck)
    by (unfold dealt_from; decide_by_eval).
  split; [exact H1|]. split; [exact H2|]. exact (dealt_jokers_le_2 _ _ H1 H2).
Defined.
