(* ===== verification/Evaluator.v ===== *)
(** * The hand evaluator [evaluate] of [src/poker.py] (lines 89-191)

    One definition per phase of the function, composed in the order the
    function runs them: the split into jokers and standard cards and the
    rank conversion (lines 94-113), the flush search over [suit_counts]
    (lines 115-121), the straight search (lines 123-135), and the category
    tests in descending strength (lines 136-191).  Results are the Python
    pair [(hand_rank, main_cards)] where [main_cards] is a list of ints,
    except in the flush branch, where it holds the face strings.

    Module [Evaluate] holds the function and its specification; Module
    [Monotone] the monotonicity of the category under joker
    substitution. *)

From S2P Require Import Prelude PyBuiltins Cards.
From stdpp Require Import sorting.
From Stdlib Require Import Sorted.
Local Open Scope Z_scope.

Module Evaluate.

(** Lines 100-109: the numeric value of a face; [int(c[0])] raises
    [ValueError] on a face that is not a number. *)
Definition rank_value (face : string) : res Z :=
  if bool_decide (face = "A") then Ok 14
  else if bool_decide (face = "K") then Ok 13
  else if bool_decide (face = "Q") then Ok 12
  else if bool_decide (face = "J") then Ok 11
  else py_int face.

(** Lines 94-95. *)
Definition jokers (hand : list card) : list card := List.filter is_joker hand.
Definition normal (hand : list card) : list card :=
  List.filter (fun c => negb (is_joker c)) hand.

(** Lines 97-110: [ranks] and [suits] of the standard cards. *)
Definition ranks_of (normal : list card) : res (list Z) :=
  res_mapM (fun c => rank_value c.1) normal.
Definition suits_of (normal : list card) : list (option suit) := map snd normal.

(** Lines 116-121: the first suit of [suit_counts.items()], in insertion
    order, with [qty + num_jokers >= 5]; [flush_suit] stays [None] when
    the loop finds none. *)
Definition flush_search (suit_counts : list (option suit * Z)) (num_jokers : Z)
  : option suit :=
  match List.find (fun '(_, qty) => 5 <=? qty + num_jokers) suit_counts with
  | Some (s, _) => s
  | None => None
  end.

(** Lines 126-130: the values of the window [start, ..., start-4] missing
    from [ranks]. *)
Definition needed (ranks : list Z) (start : Z) : list Z :=
  List.filter (fun r => negb (bool_decide (r ∈ ranks)))
    (map (fun i => start - Z.of_nat i) (seq 0 5)).

(** Lines 124-133: the first [start] of [range(14, 4, -1)] whose window
    misses at most [num_jokers] values; [0] when there is none. *)
Definition best_straight (ranks : list Z) (num_jokers : Z) : Z :=
  match List.find (fun start => Z.of_nat (length (needed ranks start)) <=? num_jokers)
          (range_desc 14 4) with
  | Some start => start
  | None => 0
  end.

(** Lines 140-142: the highest rank [r] of [range(14, 1, -1)] with
    [count.get(r, 0) + num_jokers >= 4]. *)
Definition four_kind (count : list (Z * Z)) (num_jokers : Z) : option Z :=
  List.find (fun r => 4 <=? counter_get count r + num_jokers) (range_desc 14 1).

(** Python truthiness of [three], which is [None] or an int. *)
Definition truthy_opt (o : option Z) : bool :=
  match o with None => false | Some z => negb (Z.eqb z 0) end.

(** Lines 145-149: the loop that sets [three] when
    [count.get(r,0) + num_jokers >= 3 and not three]. *)
Definition fh_three (count : list (Z * Z)) (num_jokers : Z) : option Z :=
  fold_left (fun three r =>
               if (3 <=? counter_get count r + num_jokers) && negb (truthy_opt three)
               then Some r else three)
            (range_desc 14 1) None.

(** Lines 150-157: with [three] found, the jokers left after completing it
    and the first other rank that makes a pair with them. *)
Definition fh_pair (count : list (Z * Z)) (num_jokers three : Z) : option Z :=
  let remaining_jokers := num_jokers - Z.max 0 (3 - counter_get count three) in
  List.find (fun r => negb (Z.eqb r three) && (2 <=? counter_get count r + remaining_jokers))
            (range_desc 14 1).

Definition full_house (count : list (Z * Z)) (num_jokers : Z) : option (Z * Z) :=
  match fh_three count num_jokers with
  | Some three =>
      match fh_pair count num_jokers three with
      | Some pr => Some (three, pr)
      | None => None
      end
  | None => None
  end.

(** Lines 161-164: the faces (strings: [r] is [c[0]]) of the standard cards
    of [flush_suit], sorted in reverse, padded with the int [14] to five
    entries, first five kept. *)
Definition flush_tiebreak (normal : list card) (flush_suit : option suit) : list pyval :=
  let sorted_flush :=
    sorted_desc (map fst (List.filter (fun c => bool_decide (c.2 = flush_suit)) normal)) in
  take 5 (map PStr sorted_flush ++ replicate (5 - length sorted_flush) (PInt 14)).

(** Lines 171-173. *)
Definition three_kind (count : list (Z * Z)) (num_jokers : Z) : option Z :=
  List.find (fun r => 3 <=? counter_get count r + num_jokers) (range_desc 14 1).

(** Lines 176-179: ranks with [count.get(r, 0) >= 2], highest first (no
    jokers). *)
Definition pairs (count : list (Z * Z)) : list Z :=
  List.filter (fun r => 2 <=? counter_get count r) (range_desc 14 1).

(** [max(ranks)] on a non-empty list. *)
Definition list_max (r : Z) (rs : list Z) : Z := fold_left Z.max rs r.

(** Lines 180-191: two pair, one pair, high card. *)
Definition low_categories (ranks : list Z) (count : list (Z * Z)) : Z * list pyval :=
  let ps := pairs count in
  match ps with
  | p :: _ :: _ => (2, [PInt p])
  | [p] => (1, [PInt p])
  | [] =>
      match ranks with
      | r :: rs => (0, [PInt (list_max r rs)])
      | [] => (0, [PInt 0])
      end
  end.

(** Lines 112-191: everything after the rank conversion, on the standard
    cards [nm], their ranks and the number of jokers. *)
Definition classify (nm : list card) (ranks : list Z) (num_jokers : Z) : Z * list pyval :=
  let suits := suits_of nm in
  let count := Counter ranks in
  let flush_suit := flush_search (Counter suits) num_jokers in
  let best := best_straight ranks num_jokers in
  let is_straight := 0 <? best in
  let is_flush := match flush_suit with Some _ => true | None => false end in
  if is_straight && is_flush then (8, [PInt best]) else
  match four_kind count num_jokers with
  | Some r => (7, [PInt r])
  | None =>
  match full_house count num_jokers with
  | Some (three, pr) => (6, [PInt three; PInt pr])
  | None =>
  if is_flush then (5, flush_tiebreak nm flush_suit) else
  if is_straight then (4, [PInt best]) else
  match three_kind count num_jokers with
  | Some r => (3, [PInt r])
  | None => low_categories ranks count
  end end end.

(** Lines 89-191. *)
Definition evaluate (hand : list card) : res (Z * list pyval) :=
  let! ranks := ranks_of (normal hand) in
  Ok (classify (normal hand) ranks (Z.of_nat (length (jokers hand)))).

(** ** Rank values *)

(** the if-chain and [int()] of lines 100-109 implement the spec's
    value table: the face at position [i] of [RANK_ORDER] has value
    [i + 2] (2..10 literal, J=11, Q=12, K=13, A=14). *)
Example rank_value_order :
  Forall (fun '(i, f) => rank_value f = Ok (Z.of_nat i + 2))
         (zip (seq 0 (length RANK_ORDER)) RANK_ORDER).
Proof. repeat constructor. Qed.

Lemma rank_value_faces :
  Forall (fun f => match rank_value f with Ok z => 2 <= z <= 14 | Err _ => False end)
         RANK_ORDER.
Proof. repeat constructor; cbv -[Z.le]; lia. Qed.

Lemma rank_value_face f :
  f ∈ RANK_ORDER -> exists z, rank_value f = Ok z /\ 2 <= z <= 14.
Proof.
  intros Hf. pose proof (proj1 (Forall_forall _ _) rank_value_faces f Hf) as H.
  cbv beta in H. destruct (rank_value f); [eauto|done].
Qed.

(** Standard cards of a hand of deck cards have faces in [RANK_ORDER] and
    a suit. *)
Lemma normal_deck_card hand c :
  Forall deck_card hand -> c ∈ normal hand ->
  c.1 ∈ RANK_ORDER /\ exists s, c.2 = Some s.
Proof.
  intros Hall Hc. unfold normal in Hc.
  apply list_elem_of_In, List.filter_In in Hc as [Hin Hj].
  apply list_elem_of_In in Hin.
  assert (Hd : deck_card c) by (eapply Forall_forall; eauto).
  destruct (deck_card_cases c Hd) as [->|]; [done|done].
Qed.

Lemma ranks_of_deck hand :
  Forall deck_card hand ->
  exists ranks, ranks_of (normal hand) = Ok ranks /\ Forall (fun r => 2 <= r <= 14) ranks.
Proof.
  intros Hall. apply res_mapM_total. intros c Hc.
  destruct (normal_deck_card hand c Hall Hc) as [Hf _].
  by apply rank_value_face.
Qed.

(** ** Totality and the range of the category *)

(** The flush tiebreak always has five entries. *)
Lemma length_flush_tiebreak nm fs : length (flush_tiebreak nm fs) = 5%nat.
Proof.
  unfold flush_tiebreak. rewrite length_take, length_app, length_map, length_replicate.
  lia.
Qed.

Lemma low_categories_range ranks count :
  0 <= (low_categories ranks count).1 <= 2 /\ (low_categories ranks count).2 <> [].
Proof.
  unfold low_categories. destruct (pairs count) as [|p [|q ps]]; [|simpl; split; [lia|done]..].
  destruct ranks; simpl; split; [lia|done|lia|done].
Qed.

Lemma classify_range nm ranks nj :
  0 <= (classify nm ranks nj).1 <= 8 /\ (classify nm ranks nj).2 <> [].
Proof.
  unfold classify. repeat case_match; simpl;
    first [ split; [lia|done]
          | destruct (low_categories_range ranks (Counter ranks)); split; [lia|done]
          | split; [lia|]; intros Hn; apply (f_equal length) in Hn;
            rewrite length_flush_tiebreak in Hn; discriminate ].
Qed.

(** C1: [evaluate] is total on hands of deck cards (of any length): it
    raises nothing, returns a category in [0..8] with a non-empty tiebreak,
    and [HAND_NAMES[category]] in [play_round] (lines 279-280) is defined. *)
Theorem evaluate_total hand :
  Forall deck_card hand ->
  exists cat tb, evaluate hand = Ok (cat, tb) /\ 0 <= cat <= 8 /\ tb <> [] /\
                 exists name, HAND_NAMES !! Z.to_nat cat = Some name.
Proof.
  intros Hall. destruct (ranks_of_deck hand Hall) as (ranks & Hr & _).
  unfold evaluate. rewrite Hr. simpl.
  destruct (classify_range (normal hand) ranks (Z.of_nat (length (jokers hand)))) as [Hc Ht].
  destruct (classify _ _ _) as [cat tb]; simpl in *.
  exists cat, tb. split; [reflexivity|]. split_and!; [lia|lia|done|].
  apply lookup_lt_is_Some_2. unfold HAND_NAMES; simpl. lia.
Qed.

Lemma evaluate_total_witness :
  Forall deck_card [("A", Some SPADE); ("K", Some SPADE); ("Q", Some SPADE);
                    ("J", Some SPADE); JOKER] /\
  exists cat tb, evaluate [("A", Some SPADE); ("K", Some SPADE); ("Q", Some SPADE);
                           ("J", Some SPADE); JOKER] = Ok (cat, tb) /\
                 0 <= cat <= 8 /\ tb <> [] /\
                 exists name, HAND_NAMES !! Z.to_nat cat = Some name.
Proof.
  assert (H : Forall deck_card [("A", Some SPADE); ("K", Some SPADE); ("Q", Some SPADE);
                                ("J", Some SPADE); JOKER]) by decide_by_eval.
  split; [exact H|]. exact (evaluate_total _ H).
Defined.

(** ** The straight search *)

(** The test of line 131: the window topped by [start] misses at most
    [num_jokers] values. *)
Definition straight_ok (ranks : list Z) (num_jokers start : Z) : Prop :=
  Z.of_nat (length (needed ranks start)) <= num_jokers.

(** C4: the straight loop (lines 124-133) computes the highest achievable
    top value in [5..14], or [0] when no window is achievable. *)
Theorem best_straight_max ranks nj :
  (best_straight ranks nj = 0 /\ forall st, 5 <= st <= 14 -> ~ straight_ok ranks nj st) \/
  (5 <= best_straight ranks nj <= 14 /\ straight_ok ranks nj (best_straight ranks nj) /\
   forall st, best_straight ranks nj < st <= 14 -> ~ straight_ok ranks nj st).
Proof.
  unfold best_straight, straight_ok.
  destruct (List.find _ _) as [st|] eqn:Hf.
  - apply find_range_desc_Some in Hf as (Hr & Hp & Hmax). right.
    split; [lia|]. split; [by apply Z.leb_le|].
    intros st' Hst'. apply Z.leb_nle, Hmax. lia.
  - left. split; [done|]. intros st Hst.
    apply Z.leb_nle, (proj1 (find_range_desc_None _ _ _) Hf). lia.
Qed.

(** The spec's straight search (section 4.1, step 2): descending from 14
    down to 6. *)
Definition spec_best_straight (ranks : list Z) (nj : Z) : Z :=
  match List.find (fun start => Z.of_nat (length (needed ranks start)) <=? nj)
          (range_desc 14 5) with
  | Some start => start
  | None => 0
  end.

Lemma needed_6_le_5 ranks :
  1 ∉ ranks -> (length (needed ranks 6) <= length (needed ranks 5))%nat.
Proof.
  intros H1. unfold needed. simpl.
  repeat case_bool_decide; simpl; try contradiction; lia.
Qed.

(** C5: the last iteration of the straight loop ([start = 5], the window
    5..1) never decides the result: when no rank is below 2, the loop over
    [range(14, 4, -1)] returns what the spec's search from 14 down to 6
    returns. *)
Theorem best_straight_skips_5 ranks nj :
  Forall (fun r => 2 <= r) ranks -> best_straight ranks nj = spec_best_straight ranks nj.
Proof.
  intros Hall. assert (H1 : 1 ∉ ranks).
  { intros Hin. rewrite Forall_forall in Hall. specialize (Hall 1 Hin). simpl in Hall. lia. }
  unfold best_straight, spec_best_straight.
  change (range_desc 14 4) with (range_desc 14 5 ++ [5]). rewrite find_app.
  destruct (List.find _ (range_desc 14 5)) as [st|] eqn:Hf; [done|]. simpl.
  destruct (Z.of_nat (length (needed ranks 5)) <=? nj) eqn:H5; [|done].
  pose proof (proj1 (find_range_desc_None _ _ _) Hf 6 ltac:(lia)) as H6. simpl in H6.
  apply Z.leb_le in H5. apply Z.leb_nle in H6. pose proof (needed_6_le_5 ranks H1). lia.
Qed.

Lemma best_straight_skips_5_witness :
  Forall (fun r => 2 <= r) [2; 3; 4; 5] /\
  best_straight [2; 3; 4; 5] 1 = spec_best_straight [2; 3; 4; 5] 1.
Proof.
  assert (H : Forall (fun r => 2 <= r) [2; 3; 4; 5]) by (repeat constructor; lia).
  split; [exact H|]. exact (best_straight_skips_5 _ 1 H).
Defined.

(** ** The flush search *)

(** The spec's flush test: some suit of the standard cards reaches five
    with the jokers. *)
Definition flush_ok (nm : list card) (nj : Z) : Prop :=
  exists s, Some s ∈ suits_of nm /\ 5 <= Z.of_nat (occ (Some s) (suits_of nm)) + nj.

(** The loop over [suit_counts.items()] finds a suit exactly when one
    reaches five with the jokers (the suits of standard cards are never
    [None]). *)
Lemma flush_search_spec suits nj :
  None ∉ suits ->
  (is_Some (flush_search (Counter suits) nj) <->
   exists s, Some s ∈ suits /\ 5 <= Z.of_nat (occ (Some s) suits) + nj).
Proof.
  intros Hnone. unfold flush_search.
  destruct (List.find _ _) as [[k q]|] eqn:Hf.
  - apply List.find_some in Hf as [Hin Hq].
    apply list_elem_of_In, Counter_items in Hin as [Hk ->]. apply Z.leb_le in Hq.
    destruct k as [s|]; [|contradiction]. split; [eauto|]. intros _. eauto.
  - split; [intros [? [=]]|]. intros (s & Hs & Hocc). exfalso.
    apply Counter_keys_complete, list_elem_of_In in Hs.
    pose proof (List.find_none _ _ Hf _ Hs) as Hq. simpl in Hq.
    apply Z.leb_nle in Hq. lia.
Qed.

Definition flush_found (nm : list card) (nj : Z) : bool :=
  match flush_search (Counter (suits_of nm)) nj with Some _ => true | None => false end.

Lemma flush_found_spec nm nj :
  None ∉ suits_of nm -> flush_found nm nj = true <-> flush_ok nm nj.
Proof.
  intros Hnone. unfold flush_found, flush_ok. rewrite <- flush_search_spec by done.
  destruct (flush_search _ _); split; (done || by intros [? [=]]).
Qed.

Lemma best_straight_pos ranks nj :
  0 < best_straight ranks nj <-> exists st, 5 <= st <= 14 /\ straight_ok ranks nj st.
Proof.
  unfold best_straight, straight_ok.
  destruct (List.find _ _) as [st|] eqn:Hf.
  - apply find_range_desc_Some in Hf as (Hr & Hp & _).
    split; [intros _; exists st; split; [lia|by apply Z.leb_le]|lia].
  - split; [lia|]. intros (st & Hst & Hok). apply Z.leb_le in Hok.
    rewrite (proj1 (find_range_desc_None _ _ _) Hf st) in Hok by lia. discriminate.
Qed.

(** ** The category tests in order *)

Lemma classify_sf nm ranks nj :
  (0 <? best_straight ranks nj) && flush_found nm nj = true ->
  classify nm ranks nj = (8, [PInt (best_straight ranks nj)]).
Proof. unfold classify, flush_found. simpl. by intros ->. Qed.

Ltac classify_bound :=
  repeat case_match; simpl; try lia;
  match goal with
  | |- context [low_categories ?r ?c] => destruct (low_categories_range r c); lia
  end.

Lemma classify_not_sf nm ranks nj :
  (0 <? best_straight ranks nj) && flush_found nm nj = false ->
  (classify nm ranks nj).1 <= 7.
Proof. unfold classify, flush_found. simpl. intros ->. classify_bound. Qed.

(** C2: category 8 (straight flush, lines 136-137) is reported exactly
    when a straight window and a flush are both achievable with the
    jokers, and its tiebreak is the highest achievable top value. *)
Theorem classify_straight_flush nm ranks nj :
  None ∉ suits_of nm ->
  ((classify nm ranks nj).1 = 8 <->
     (exists st, 5 <= st <= 14 /\ straight_ok ranks nj st) /\ flush_ok nm nj) /\
  ((classify nm ranks nj).1 = 8 -> (classify nm ranks nj).2 = [PInt (best_straight ranks nj)]).
Proof.
  intros Hnone. rewrite <- best_straight_pos, <- flush_found_spec by done.
  destruct ((0 <? best_straight ranks nj) && flush_found nm nj) eqn:Hsf.
  - rewrite classify_sf by done. simpl.
    apply andb_prop in Hsf as [Hb Hf]. apply Z.ltb_lt in Hb. done.
  - pose proof (classify_not_sf nm ranks nj Hsf).
    split; [|lia]. split; [lia|]. intros [Hb%Z.ltb_lt Hf].
    rewrite Hb, Hf in Hsf. discriminate.
Qed.

Lemma classify_straight_flush_witness :
  (None ∉ suits_of [("A", Some SPADE); ("K", Some SPADE); ("Q", Some SPADE); ("J", Some SPADE)]) /\
  ((classify [("A", Some SPADE); ("K", Some SPADE); ("Q", Some SPADE); ("J", Some SPADE)]
             [14; 13; 12; 11] 1).1 = 8 <->
     (exists st, 5 <= st <= 14 /\ straight_ok [14; 13; 12; 11] 1 st) /\
     flush_ok [("A", Some SPADE); ("K", Some SPADE); ("Q", Some SPADE); ("J", Some SPADE)] 1) /\
  ((classify [("A", Some SPADE); ("K", Some SPADE); ("Q", Some SPADE); ("J", Some SPADE)]
             [14; 13; 12; 11] 1).1 = 8 ->
   (classify [("A", Some SPADE); ("K", Some SPADE); ("Q", Some SPADE); ("J", Some SPADE)]
             [14; 13; 12; 11] 1).2 = [PInt (best_straight [14; 13; 12; 11] 1)]).
Proof.
  assert (Hn : None ∉ suits_of [("A", Some SPADE); ("K", Some SPADE); ("Q", Some SPADE);
                                ("J", Some SPADE)]) by decide_by_eval.
  split; [exact Hn|]. exact (classify_straight_flush _ _ _ Hn).
Defined.

(** ** Four of a kind *)

(** The loop of lines 140-142 finds the highest rank that reaches four
    with the jokers. *)
Lemma four_kind_spec ranks nj r :
  four_kind (Counter ranks) nj = Some r <->
  2 <= r <= 14 /\ 4 <= Z.of_nat (occ r ranks) + nj /\
  (forall r', r < r' <= 14 -> Z.of_nat (occ r' ranks) + nj < 4).
Proof.
  unfold four_kind. rewrite find_range_desc_Some, counter_get_Counter, Z.leb_le.
  split; intros (Hr & Hp & Hmax); (split; [lia|]); split; [done| |done|];
    intros r' Hr'; specialize (Hmax r' Hr'); rewrite ?counter_get_Counter in *;
    [apply Z.leb_nle in Hmax|apply Z.leb_nle]; lia.
Qed.

Lemma classify_sf_false nm ranks nj :
  None ∉ suits_of nm ->
  ~ ((exists st, 5 <= st <= 14 /\ straight_ok ranks nj st) /\ flush_ok nm nj) ->
  (0 <? best_straight ranks nj) && flush_found nm nj = false.
Proof.
  intros Hnone Hno. rewrite <- best_straight_pos, <- flush_found_spec in Hno by done.
  destruct (0 <? best_straight ranks nj) eqn:Hb, (flush_found nm nj); try done.
  apply Z.ltb_lt in Hb. tauto.
Qed.

(** C3: when no straight flush is achievable, category 7 (four of a
    kind, lines 140-142) is reported with tiebreak [[r]] exactly when [r]
    is the highest rank whose count plus the jokers reaches four. *)
Theorem classify_four_kind nm ranks nj r :
  None ∉ suits_of nm ->
  ~ ((exists st, 5 <= st <= 14 /\ straight_ok ranks nj st) /\ flush_ok nm nj) ->
  (classify nm ranks nj = (7, [PInt r]) <->
   2 <= r <= 14 /\ 4 <= Z.of_nat (occ r ranks) + nj /\
   (forall r', r < r' <= 14 -> Z.of_nat (occ r' ranks) + nj < 4)).
Proof.
  intros Hnone Hno. rewrite <- four_kind_spec.
  pose proof (classify_sf_false nm ranks nj Hnone Hno) as Hsf.
  unfold classify. unfold flush_found in Hsf. simpl. rewrite Hsf.
  destruct (four_kind (Counter ranks) nj) as [r0|] eqn:H4.
  - split; congruence.
  - split; [|discriminate]. intros Heq. apply (f_equal fst) in Heq. revert Heq.
    classify_bound.
Qed.

Lemma classify_four_kind_witness :
  (None ∉ suits_of [("9", Some HEART); ("9", Some SPADE); ("9", Some CLUB); ("2", Some CLUB)]) /\
  (~ ((exists st, 5 <= st <= 14 /\ straight_ok [9; 9; 9; 2] 1 st) /\
     flush_ok [("9", Some HEART); ("9", Some SPADE); ("9", Some CLUB); ("2", Some CLUB)] 1)) /\
  (classify [("9", Some HEART); ("9", Some SPADE); ("9", Some CLUB); ("2", Some CLUB)]
            [9; 9; 9; 2] 1 = (7, [PInt 9]) <->
   2 <= 9 <= 14 /\ 4 <= Z.of_nat (occ 9 [9; 9; 9; 2]) + 1 /\
   (forall r', 9 < r' <= 14 -> Z.of_nat (occ r' [9; 9; 9; 2]) + 1 < 4)).
Proof.
  assert (Hn : None ∉ suits_of [("9", Some HEART); ("9", Some SPADE); ("9", Some CLUB);
                                ("2", Some CLUB)]) by decide_by_eval.
  assert (Hf : ~ flush_ok [("9", Some HEART); ("9", Some SPADE); ("9", Some CLUB);
                           ("2", Some CLUB)] 1).
  { intros (s & Hs & Hocc). revert Hocc. unfold suits_of in Hs. simpl in Hs.
    repeat (apply elem_of_cons in Hs as [[= ->]|Hs]; [cbv -[Z.le Z.add]; lia|]).
    by apply elem_of_nil in Hs. }
  assert (Hsf : ~ ((exists st, 5 <= st <= 14 /\ straight_ok [9; 9; 9; 2] 1 st) /\
     flush_ok [("9", Some HEART); ("9", Some SPADE); ("9", Some CLUB); ("2", Some CLUB)] 1))
    by tauto.
  split; [exact Hn|]. split; [exact Hsf|].
  exact (classify_four_kind _ _ _ 9 Hn Hsf).
Defined.

(** ** Shape of the tiebreak *)

(** Every category but the flush reports a tiebreak of ints. *)
Lemma classify_tiebreak_ints nm ranks nj :
  (classify nm ranks nj).1 <> 5 -> Forall is_pyint (classify nm ranks nj).2.
Proof.
  unfold classify, low_categories. repeat case_match; simpl; try done;
    intros _; repeat constructor; eexists; reflexivity.
Qed.

Lemma evaluate_tiebreak_ints hand p :
  evaluate hand = Ok p -> p.1 <> 5 -> Forall is_pyint p.2.
Proof.
  unfold evaluate. intros Hp. res_inv. subst p. apply classify_tiebreak_ints.
Qed.

(** ** Worked scenarios and the joker asymmetry *)

(** The concrete scenarios of the spec (section 8, items 1-4):
    royal straight flush, the same with a joker, three fives, and two pair
    reported by its higher pair only. *)
Theorem evaluate_spec_scenarios :
  evaluate [("A", Some SPADE); ("K", Some SPADE); ("Q", Some SPADE);
            ("J", Some SPADE); ("10", Some SPADE)] = Ok (8, [PInt 14]) /\
  evaluate [("A", Some SPADE); ("K", Some SPADE); ("Q", Some SPADE);
            ("J", Some SPADE); JOKER] = Ok (8, [PInt 14]) /\
  evaluate [("5", Some HEART); ("5", Some DIAMOND); ("5", Some CLUB);
            ("9", Some SPADE); ("2", Some DIAMOND)] = Ok (3, [PInt 5]) /\
  evaluate [("2", Some HEART); ("2", Some DIAMOND); ("9", Some SPADE);
            ("9", Some DIAMOND); ("3", Some CLUB)] = Ok (2, [PInt 9]).
Proof. split_and!; vm_compute; reflexivity. Qed.

(** pair detection ignores jokers (lines 176-185), so turning a
    standard card into a joker can lower the category: a pair of fives
    with king, eight and two is One Pair, and the same hand with one five
    replaced by a joker is only High Card, against the spec's property
    that a joker never lowers the category. *)
Example joker_substitution_lowers_category :
  evaluate [("5", Some HEART); ("5", Some DIAMOND); ("K", Some CLUB);
            ("8", Some SPADE); ("2", Some DIAMOND)] = Ok (1, [PInt 5]) /\
  evaluate [("5", Some HEART); JOKER; ("K", Some CLUB);
            ("8", Some SPADE); ("2", Some DIAMOND)] = Ok (0, [PInt 13]).
Proof. split; vm_compute; reflexivity. Qed.

End Evaluate.

(** * Jokers never lower a strong hand (spec section 8)

    The spec's monotonicity property (section 8): replacing a standard card
    of a hand by a joker must never decrease the category.  [Evaluator]
    shows that it fails below Three of a Kind (a finding: pairs do not use
    jokers).  This file proves it from Three of a Kind up, for the hands
    the game deals: five deck cards, the substituted hand holding at most
    the deck's two jokers.

    [classify] tests its conditions in descending strength, so its
    category is a function [category] of six booleans.  Each condition
    survives the substitution: straights, flushes, four and three of a
    kind symbolically; the full house computationally, over every
    multiset of ranks a five-card hand can have, since its pair search
    spends "the jokers left after the three", a budget that is not a count
    growing with the jokers. *)

Module Monotone.
Import Evaluate.

(** ** The category as a function of the tests *)

(** The category [classify] returns, given the outcome of each test. *)
Definition category (sf fk fh fl st tk : bool) (low : Z) : Z :=
  if sf then 8 else if fk then 7 else if fh then 6 else if fl then 5
  else if st then 4 else if tk then 3 else low.

Lemma classify_category nm ranks nj :
  (classify nm ranks nj).1 =
  category ((0 <? best_straight ranks nj) && flush_found nm nj)
           (bool_decide (is_Some (four_kind (Counter ranks) nj)))
           (bool_decide (is_Some (full_house (Counter ranks) nj)))
           (flush_found nm nj) (0 <? best_straight ranks nj)
           (bool_decide (is_Some (three_kind (Counter ranks) nj)))
           (low_categories ranks (Counter ranks)).1.
Proof.
  unfold classify, category, flush_found. cbn zeta. repeat case_match; done.
Qed.

Lemma category_lb sf fk fh fl st tk low :
  (sf = true -> 8 <= category sf fk fh fl st tk low) /\
  (fk = true -> 7 <= category sf fk fh fl st tk low) /\
  (fh = true -> 6 <= category sf fk fh fl st tk low) /\
  (fl = true -> 5 <= category sf fk fh fl st tk low) /\
  (st = true -> 4 <= category sf fk fh fl st tk low) /\
  (tk = true -> 3 <= category sf fk fh fl st tk low).
Proof. destruct sf, fk, fh, fl, st, tk; cbn; split_and!; intros; (lia || discriminate). Qed.

(** The category is monotone in the tests: when every test that holds
    for the first hand holds for the second (a full house of the first,
    which is not four of a kind, may become four of a kind), and the first
    category is at least 3, the second is at least the first. *)
Lemma category_mono sf fk fh fl st tk low sf' fk' fh' fl' st' tk' low' :
  low <= 2 ->
  (sf = true -> sf' = true) -> (fk = true -> fk' = true) ->
  (fh = true -> fk = false -> fh' = true \/ fk' = true) ->
  (fl = true -> fl' = true) -> (st = true -> st' = true) -> (tk = true -> tk' = true) ->
  3 <= category sf fk fh fl st tk low ->
  category sf fk fh fl st tk low <= category sf' fk' fh' fl' st' tk' low'.
Proof.
  intros Hlow Hsf Hfk Hfh Hfl Hst Htk.
  destruct (category_lb sf' fk' fh' fl' st' tk' low') as (L8 & L7 & L6 & L5 & L4 & L3).
  set (c' := category sf' fk' fh' fl' st' tk' low') in *.
  unfold category. intros H3. destruct sf; [by apply L8, Hsf|].
  destruct fk; [by apply L7, Hfk|].
  destruct fh; [destruct (Hfh eq_refl eq_refl); [by apply L6|]; pose proof (L7 H); lia|].
  destruct fl; [by apply L5, Hfl|]. destruct st; [by apply L4, Hst|].
  destruct tk; [by apply L3, Htk|]. lia.
Qed.

(** ** The count-based tests only read the counts *)

Lemma find_ext_range (f g : Z -> bool) l :
  (forall r, f r = g r) -> List.find f l = List.find g l.
Proof. intros Hfg. induction l as [|r l IH]; simpl; [done|]. by rewrite Hfg, IH. Qed.

Lemma fold_left_ext_fun {A B} (f g : A -> B -> A) l a :
  (forall x y, f x y = g x y) -> fold_left f l a = fold_left g l a.
Proof. intros Hfg. revert a; induction l as [|y l IH]; intros a; simpl; [done|]. by rewrite Hfg. Qed.

Section CountExt.
Context (c1 c2 : list (Z * Z)).
Hypothesis same_counts : forall r, counter_get c1 r = counter_get c2 r.

Lemma four_kind_ext nj : four_kind c1 nj = four_kind c2 nj.
Proof. apply find_ext_range. intros r. by rewrite same_counts. Qed.

Lemma three_kind_ext nj : three_kind c1 nj = three_kind c2 nj.
Proof. apply find_ext_range. intros r. by rewrite same_counts. Qed.

Lemma full_house_ext nj : full_house c1 nj = full_house c2 nj.
Proof.
  unfold full_house, fh_three, fh_pair.
  rewrite (fold_left_ext_fun _
    (fun three r => if (3 <=? counter_get c2 r + nj) && negb (truthy_opt three)
                    then Some r else three)) by (intros; by rewrite same_counts).
  destruct (fold_left _ _ _) as [three|]; [|done].
  rewrite same_counts. by rewrite (find_ext_range _
    (fun r => negb (Z.eqb r three) &&
              (2 <=? counter_get c2 r + (nj - Z.max 0 (3 - counter_get c2 three)))))
    by (intros; by rewrite same_counts).
Qed.

End CountExt.

Lemma counter_get_perm (l l' : list Z) r :
  l ≡ₚ l' -> counter_get (Counter l) r = counter_get (Counter l') r.
Proof. intros Hp. by rewrite !counter_get_Counter, (occ_perm _ _ _ Hp). Qed.

(** ** The full house, by enumeration *)

(** [l] without its first occurrence of [x]. *)
Fixpoint remove1 (x : Z) (l : list Z) : list Z :=
  match l with
  | [] => []
  | y :: l => if Z.eqb y x then l else y :: remove1 x l
  end.

(** The non-decreasing lists of length [n] of ranks in [lo..14]. *)
Fixpoint asc_lists (n : nat) (lo : Z) : list (list Z) :=
  match n with
  | O => [[]]
  | S n => flat_map (fun r => map (cons r) (asc_lists n r))
                    (map (fun k => lo + Z.of_nat k) (seq 0 (Z.to_nat (15 - lo))))
  end.

Definition fh_test (ranks : list Z) (nj : Z) : bool :=
  bool_decide (is_Some (full_house (Counter ranks) nj)) &&
  negb (bool_decide (is_Some (four_kind (Counter ranks) nj))).

Definition fh_or_four (ranks : list Z) (nj : Z) : bool :=
  bool_decide (is_Some (full_house (Counter ranks) nj)) ||
  bool_decide (is_Some (four_kind (Counter ranks) nj)).

(** A rank multiset of a hand with at most one joker that is a full house
    and not four of a kind stays a full house or four of a kind when any of
    its cards becomes a joker. *)
Definition fh_step_ok (ranks : list Z) (nj : Z) : bool :=
  forallb (fun rc => implb (fh_test ranks nj) (fh_or_four (remove1 rc ranks) (nj + 1))) ranks.

Lemma fh_step_all :
  forallb (fun l => fh_step_ok l 0) (asc_lists 5 2) = true /\
  forallb (fun l => fh_step_ok l 1) (asc_lists 4 2) = true.
Proof. split; vm_compute; reflexivity. Qed.

Lemma elem_of_asc_lists n lo l :
  StronglySorted Z.le l -> Forall (fun r => lo <= r <= 14) l -> length l = n ->
  l ∈ asc_lists n lo.
Proof.
  intros Hs. revert n lo. induction Hs as [|r l Hs IH Hle]; intros n lo Hr Hn;
    subst n; simpl; [by left|].
  apply Forall_cons in Hr as [Hr Hl]. apply list_elem_of_In, in_flat_map.
  exists r. split.
  - apply in_map_iff. exists (Z.to_nat (r - lo)).
    split; [lia|]. apply in_seq. lia.
  - apply in_map, list_elem_of_In, IH; [|done].
    apply Forall_forall. intros x Hx. rewrite Forall_forall in Hl, Hle.
    split; [by apply Hle|apply Hl, Hx].
Qed.

Lemma remove1_perm x l : x ∈ l -> l ≡ₚ x :: remove1 x l.
Proof.
  induction l as [|y l IH]; intros Hx; [by apply elem_of_nil in Hx|]. simpl.
  destruct (Z.eqb_spec y x) as [->|Hne]; [done|].
  apply elem_of_cons in Hx as [->|Hx]; [done|].
  rewrite (IH Hx) at 1. apply perm_swap.
Qed.

Section CountPerm.
Context (l l' : list Z).
Hypothesis Hperm : l ≡ₚ l'.

Lemma fh_test_perm nj : fh_test l nj = fh_test l' nj.
Proof.
  unfold fh_test.
  by rewrite (full_house_ext _ _ (fun r => counter_get_perm l l' r Hperm)),
    (four_kind_ext _ _ (fun r => counter_get_perm l l' r Hperm)).
Qed.

Lemma fh_or_four_perm nj : fh_or_four l nj = fh_or_four l' nj.
Proof.
  unfold fh_or_four.
  by rewrite (full_house_ext _ _ (fun r => counter_get_perm l l' r Hperm)),
    (four_kind_ext _ _ (fun r => counter_get_perm l l' r Hperm)).
Qed.

End CountPerm.

(** The full-house step on any ranks of a five-card hand with at most one
    joker. *)
Lemma fh_step ranks rc ranks' nj :
  Forall (fun r => 2 <= r <= 14) ranks -> (length ranks + nj = 5)%nat -> (nj <= 1)%nat ->
  ranks ≡ₚ rc :: ranks' ->
  fh_test ranks (Z.of_nat nj) = true -> fh_or_four ranks' (Z.of_nat nj + 1) = true.
Proof.
  intros Hr Hlen Hnj Hp Hfh.
  set (s := merge_sort Z.le ranks).
  assert (Hs : s ≡ₚ ranks) by apply merge_sort_Permutation.
  assert (Hin : s ∈ asc_lists (5 - nj) 2).
  { apply elem_of_asc_lists.
    - apply (StronglySorted_merge_sort _).
    - by rewrite Hs.
    - rewrite Hs. lia. }
  assert (Hrc : rc ∈ s) by (rewrite Hs, Hp; left).
  assert (Hok : fh_step_ok s (Z.of_nat nj) = true).
  { destruct fh_step_all as [H0 H1].
    destruct nj as [|[|]]; [..|lia];
      [eapply forallb_forall in H0|eapply forallb_forall in H1]; eauto;
      by apply list_elem_of_In. }
  unfold fh_step_ok in Hok. eapply forallb_forall in Hok; [|by apply list_elem_of_In].
  rewrite (fh_test_perm s ranks Hs), Hfh in Hok. simpl in Hok.
  rewrite <- (fh_or_four_perm (remove1 rc s)); [done|].
  apply (Permutation_cons_inv (a := rc)). by rewrite <- remove1_perm, Hs.
Qed.

(** ** The other tests survive the substitution *)

Lemma find_is_Some_mono {A} (f g : A -> bool) l :
  (forall x, f x = true -> g x = true) ->
  is_Some (List.find f l) -> is_Some (List.find g l).
Proof.
  intros Hfg [x Hx]. apply List.find_some in Hx as [Hin Hf].
  destruct (List.find g l) as [y|] eqn:Hg; [by exists y|].
  pose proof (List.find_none _ _ Hg x Hin) as Hgx. by rewrite (Hfg x Hf) in Hgx.
Qed.

Lemma filter_length_cover (l l' : list Z) rc w :
  (forall x, x ∈ l -> x ∈ rc :: l') ->
  (length (List.filter (fun r => negb (bool_decide (r ∈ l'))) w) <=
   length (List.filter (fun r => negb (bool_decide (r ∈ l))) w) + occ rc w)%nat.
Proof.
  intros Hcov. induction w as [|x w IH]; [done|]. rewrite occ_cons. simpl.
  pose proof (Hcov x). rewrite elem_of_cons in *.
  repeat case_bool_decide; simpl; tauto || lia.
Qed.

(** A count only loses the replaced card. *)
Lemma occ_subst {A} `{EqDecision A} (l l' : list A) x y :
  l ≡ₚ x :: l' -> (occ y l <= occ y l' + 1)%nat.
Proof. intros Hp. rewrite (occ_perm _ _ _ Hp), occ_cons. case_bool_decide; lia. Qed.

Section Substitution.
Context (ranks ranks' : list Z) (rc : Z).
Hypothesis Hperm : ranks ≡ₚ rc :: ranks'.

Lemma straight_subst nj st :
  straight_ok ranks nj st -> straight_ok ranks' (nj + 1) st.
Proof.
  unfold straight_ok, needed. intros Hst.
  assert (Hw : (occ rc (map (fun i => (st - Z.of_nat i)%Z) (seq 0 5)) <= 1)%nat).
  { cbn [map seq]. rewrite !occ_cons, occ_nil. repeat case_bool_decide; simpl; lia. }
  pose proof (filter_length_cover ranks ranks' rc (map (fun i => st - Z.of_nat i) (seq 0 5))
                (fun x Hx => proj1 (elem_of_Permutation_proper _ _ _ Hperm) Hx)). lia.
Qed.

Lemma best_straight_subst nj :
  (0 <? best_straight ranks nj) = true -> (0 <? best_straight ranks' (nj + 1)) = true.
Proof.
  rewrite !Z.ltb_lt, !best_straight_pos. intros (st & Hr & Hst).
  exists st. split; [done|]. by apply straight_subst.
Qed.

Lemma count_test_subst k nj :
  is_Some (List.find (fun r => k <=? counter_get (Counter ranks) r + nj) (range_desc 14 1)) ->
  is_Some (List.find (fun r => k <=? counter_get (Counter ranks') r + (nj + 1))
                     (range_desc 14 1)).
Proof.
  apply find_is_Some_mono. intros r. rewrite !Z.leb_le, !counter_get_Counter.
  pose proof (occ_subst _ _ _ r Hperm). lia.
Qed.

End Substitution.

Lemma flush_subst nm c nm' nj :
  nm ≡ₚ c :: nm' -> nj <= 1 -> flush_ok nm nj -> flush_ok nm' (nj + 1).
Proof.
  unfold flush_ok, suits_of. intros Hp Hnj (s & _ & Hocc).
  assert (Hs : map snd nm ≡ₚ c.2 :: map snd nm') by (by rewrite Hp).
  pose proof (occ_subst _ _ _ (Some s) Hs) as Hle.
  exists s. split; [|lia]. apply occ_pos_iff. lia.
Qed.

Lemma flush_found_subst nm c nm' nj :
  None ∉ suits_of nm -> None ∉ suits_of nm' -> nm ≡ₚ c :: nm' -> nj <= 1 ->
  flush_found nm nj = true -> flush_found nm' (nj + 1) = true.
Proof.
  intros Hn Hn' Hp Hnj. rewrite !flush_found_spec by done. by apply (flush_subst nm c).
Qed.

(** ** Monotonicity of the classification *)

(** Replacing a standard card of rank [rc] (and card [c]) of a five-card
    hand with at most one joker by a joker never lowers a category of at
    least Three of a Kind. *)
Lemma classify_subst nm c nm' ranks rc ranks' nj :
  None ∉ suits_of nm -> None ∉ suits_of nm' ->
  nm ≡ₚ c :: nm' -> ranks ≡ₚ rc :: ranks' ->
  Forall (fun r => 2 <= r <= 14) ranks -> (length ranks + nj = 5)%nat -> (nj <= 1)%nat ->
  3 <= (classify nm ranks (Z.of_nat nj)).1 ->
  (classify nm ranks (Z.of_nat nj)).1 <= (classify nm' ranks' (Z.of_nat nj + 1)).1.
Proof.
  intros Hn Hn' Hnm Hr Hrange Hlen Hnj. rewrite !classify_category.
  assert (Hfl : flush_found nm (Z.of_nat nj) = true -> flush_found nm' (Z.of_nat nj + 1) = true)
    by (apply flush_found_subst with c; auto; lia).
  pose proof (best_straight_subst _ _ _ Hr (Z.of_nat nj)) as Hst.
  apply category_mono.
  - apply low_categories_range.
  - intros [?%Hst ?%Hfl]%andb_prop. by apply andb_true_intro.
  - rewrite !bool_decide_eq_true. apply (count_test_subst _ _ _ Hr).
  - intros Hfh Hfk. unfold fh_or_four in *.
    pose proof (fh_step ranks rc ranks' nj Hrange Hlen Hnj Hr) as Hstep.
    unfold fh_test, fh_or_four in Hstep. rewrite Hfh, Hfk in Hstep.
    by apply orb_prop, Hstep.
  - exact Hfl.
  - exact Hst.
  - rewrite !bool_decide_eq_true. apply (count_test_subst _ _ _ Hr).
Qed.

(** ** From the hand to its classification *)

Lemma insert_Permutation {A} (l : list A) i x y :
  l !! i = Some y -> <[i:=x]> l ≡ₚ x :: delete i l.
Proof.
  intros Hi. apply lookup_lt_Some in Hi.
  rewrite insert_take_drop, delete_take_drop by done. by rewrite Permutation_middle.
Qed.

Lemma res_mapM_cons {A B} (f : A -> res B) x l ys :
  res_mapM f (x :: l) = Ok ys <->
  exists y ys', f x = Ok y /\ res_mapM f l = Ok ys' /\ ys = y :: ys'.
Proof.
  simpl. split.
  - intros H. repeat res_step. eauto.
  - intros (y & ys' & -> & -> & ->). done.
Qed.

Lemma res_mapM_perm {A B} (f : A -> res B) l l' ys :
  l ≡ₚ l' -> res_mapM f l = Ok ys -> exists ys', res_mapM f l' = Ok ys' /\ ys ≡ₚ ys'.
Proof.
  intros Hp. revert ys. induction Hp as [|x l l' _ IH|x y l|l l' l'' _ IH1 _ IH2];
    intros ys H.
  - eauto.
  - apply res_mapM_cons in H as (y & ys' & Hy & Hl & ->).
    destruct (IH _ Hl) as (ys'' & Hl' & Hp). exists (y :: ys'').
    split; [apply res_mapM_cons; eauto|by rewrite Hp].
  - apply res_mapM_cons in H as (b & ys1 & Hb & H & ->).
    apply res_mapM_cons in H as (a & ys2 & Ha & H & ->).
    exists (a :: b :: ys2). split; [|apply perm_swap].
    apply res_mapM_cons. do 2 eexists. split_and!; [done| |done].
    apply res_mapM_cons. eauto.
  - destruct (IH1 _ H) as (ys1 & H1 & Hp1). destruct (IH2 _ H1) as (ys2 & H2 & Hp2).
    exists ys2. split; [done|]. by rewrite Hp1.
Qed.

Lemma length_normal_jokers hand : (length (normal hand) + length (jokers hand))%nat = length hand.
Proof. unfold normal, jokers. induction hand as [|c h IH]; simpl; [done|]. destruct (is_joker c); simpl; lia. Qed.

Lemma length_jokers_deck hand : Forall deck_card hand -> length (jokers hand) = occ JOKER hand.
Proof.
  unfold jokers. induction 1 as [|c h Hc _ IH]; [done|]. rewrite occ_cons. simpl.
  destruct (is_joker c) eqn:Hj; apply (deck_card_is_joker c) in Hc;
    case_bool_decide; simpl; rewrite ?IH; [lia|tauto|..]; intuition congruence.
Qed.

Lemma suits_normal_deck hand : Forall deck_card hand -> None ∉ suits_of (normal hand).
Proof.
  intros Hall Hin. unfold suits_of in Hin. apply list_elem_of_fmap in Hin as (c & Hc & Hin).
  destruct (normal_deck_card hand c Hall Hin) as [_ [s Hs]]. congruence.
Qed.

Lemma normal_subst hand i c :
  Forall deck_card hand -> hand !! i = Some c -> c <> JOKER ->
  normal hand ≡ₚ c :: normal (<[i:=JOKER]> hand) /\
  length (jokers (<[i:=JOKER]> hand)) = S (length (jokers hand)).
Proof.
  intros Hall Hi Hc.
  assert (Hcd : deck_card c) by (eapply Forall_forall; [exact Hall|]; by eapply list_elem_of_lookup_2).
  assert (Hj : is_joker c = false).
  { destruct (is_joker c) eqn:Hj; [|done]. by apply (deck_card_is_joker c Hcd) in Hj. }
  pose proof (delete_Permutation _ _ _ Hi) as Hh.
  pose proof (insert_Permutation hand i JOKER c Hi) as Hh'.
  unfold normal, jokers. rewrite (List_filter_perm _ _ _ Hh), (List_filter_perm _ _ _ Hh').
  rewrite (List_filter_perm _ _ _ Hh), (List_filter_perm _ _ _ Hh'). simpl. by rewrite Hj.
Qed.

(** C13: replacing a standard card of a five-card hand of deck cards by a
    joker (the substituted hand keeping at most the deck's two jokers)
    never lowers a category of Three of a Kind or above: [evaluate]
    succeeds on the new hand with a category at least as high.  The
    spec's monotonicity property, which fails below Three of a Kind
    ([Evaluate.joker_substitution_lowers_category]). *)
Theorem joker_substitution_monotone hand i c p :
  Forall deck_card hand -> length hand = 5%nat ->
  hand !! i = Some c -> c <> JOKER -> (occ JOKER (<[i:=JOKER]> hand) <= 2)%nat ->
  evaluate hand = Ok p -> 3 <= p.1 ->
  exists p', evaluate (<[i:=JOKER]> hand) = Ok p' /\ p.1 <= p'.1.
Proof.
  intros Hall Hlen Hi Hc Hocc Hev H3.
  assert (Hall' : Forall deck_card (<[i:=JOKER]> hand)) by (apply Forall_insert; [done|decide_by_eval]).
  destruct (normal_subst hand i c Hall Hi Hc) as [Hnm Hnj].
  unfold evaluate in Hev. apply res_bind_Ok in Hev as (ranks & Hr & [= <-]).
  destruct (ranks_of_deck hand Hall) as (ranks0 & Hr0 & Hrange). rewrite Hr in Hr0.
  injection Hr0 as <-.
  destruct (res_mapM_perm _ _ _ _ Hnm Hr) as (ys & Hys & Hp).
  apply res_mapM_cons in Hys as (rc & ranks' & _ & Hr' & ->).
  change (ranks_of (normal (<[i:=JOKER]> hand)) = Ok ranks') in Hr'.
  unfold evaluate. rewrite Hr'. simpl. eexists; split; [done|].
  rewrite Hnj, Nat2Z.inj_succ, <- Z.add_1_r.
  rewrite (length_jokers_deck _ Hall') in Hnj.
  apply (classify_subst _ c _ _ rc); try done; try (apply suits_normal_deck; done).
  - rewrite (res_mapM_Ok_length _ _ _ Hr). rewrite <- Hlen. exact (length_normal_jokers hand).
  - lia.
Qed.

Lemma joker_substitution_monotone_witness :
  exists p', evaluate (<[3%nat:=JOKER]> [("5", Some HEART); ("5", Some DIAMOND); ("5", Some CLUB);
                                          ("9", Some SPADE); ("2", Some DIAMOND)]) = Ok p' /\
             3 <= p'.1.
Proof.
  apply (joker_substitution_monotone
           [("5", Some HEART); ("5", Some DIAMOND); ("5", Some CLUB);
            ("9", Some SPADE); ("2", Some DIAMOND)] 3 ("9", Some SPADE) (3, [PInt 5]));
    [decide_by_eval|reflexivity|reflexivity|discriminate|vm_compute; lia|vm_compute; reflexivity|simpl; lia].
Defined.

End Monotone.
