(* ===== verification/Tally.v ===== *)
(** * Session statistics and round settlement of [src/poker.py]

    The globals [player_wins], [dealer_wins] and [pending_push_multiplier]
    (lines 194-196) become the record [tally]; the settlement at the end of
    [play_round] (lines 282-292) is the step [settle], which compares the
    two evaluation results with Python's tuple ordering (and so can raise
    [TypeError]); [get_player_percent] and [get_dealer_percent] (lines
    198-203) compute in binary64.

    The settlement is written against the class [ScoreOrder]: what the
    evaluator's results must offer the resolver (a comparison that may
    raise, which is reflexive and antisymmetric).  The instance for
    [evaluate]'s results is Python's tuple comparison [pyscore_cmp].  The
    spec's resolver (sections 4.1 and 4.2) is written out separately as
    [spec_resolve] over integer keys, and [settle] is shown to refine it on
    every pair of results that are not flushes. *)

From S2P Require Import Prelude PyBuiltins Cards Evaluator.
Local Open Scope Z_scope.

(** ** The interface between the evaluator and the resolver *)

Class ScoreOrder (S : Type) := {
  score_cmp : S -> S -> res comparison;
  score_cmp_refl : forall s, score_cmp s s = Ok Eq;
  score_cmp_antisym : forall s t, score_cmp t s = res_map CompOpp (score_cmp s t)
}.

#[export] Instance pyscore_order : ScoreOrder (Z * list pyval) := {
  score_cmp := pyscore_cmp;
  score_cmp_refl := fun s => proj2 (pyscore_cmp_Eq s s) eq_refl;
  score_cmp_antisym := pyscore_cmp_antisym
}.

Module Tally.

(** Lines 194-196. *)
Record tally := mk_tally {
  player_wins : Z;
  dealer_wins : Z;
  pending_push_multiplier : Z
}.

Definition initial_tally : tally := mk_tally 0 0 1.

(** Which message [play_round] prints. *)
Inductive outcome := PlayerWin | DealerWin | Push.

#[export] Instance outcome_eq_dec : EqDecision outcome.
Proof. solve_decision. Defined.

Section Settle.
Context {S : Type} `{ScoreOrder S}.

(** [a > b] and [a < b]. *)
Definition score_gt (a b : S) : res bool := res_map (fun c => bool_decide (c = Gt)) (score_cmp a b).
Definition score_lt (a b : S) : res bool := res_map (fun c => bool_decide (c = Lt)) (score_cmp a b).

(** Lines 282-292: [p_score > d_score] is evaluated first, then
    [p_score < d_score]; a decisive round credits the multiplier and
    resets it, a push doubles it. *)
Definition settle (p d : S) (t : tally) : res (outcome * tally) :=
  let! gt := score_gt p d in
  if gt then
    Ok (PlayerWin, mk_tally (player_wins t + pending_push_multiplier t) (dealer_wins t) 1)
  else
    let! lt := score_lt p d in
    if lt then
      Ok (DealerWin, mk_tally (player_wins t) (dealer_wins t + pending_push_multiplier t) 1)
    else Ok (Push, mk_tally (player_wins t) (dealer_wins t) (pending_push_multiplier t * 2)).

(** A session: the settlements of successive rounds, in order. *)
Fixpoint settle_all (rounds : list (S * S)) (t : tally) : res (list outcome * tally) :=
  match rounds with
  | [] => Ok ([], t)
  | (p, d) :: rs =>
      let! '(o, t1) := settle p d t in
      let! '(os, t2) := settle_all rs t1 in
      Ok (o :: os, t2)
  end.

(** The tallies a session can reach. *)
Inductive reachable : tally -> Prop :=
| reach_init : reachable initial_tally
| reach_step t p d o t' : reachable t -> settle p d t = Ok (o, t') -> reachable t'.

End Settle.

(** Lines 198-200: [int(player_wins / total * 100) if total > 0 else 50]. *)
Definition get_player_percent (t : tally) : res Z :=
  let total := player_wins t + dealer_wins t in
  if 0 <? total then
    let! q := py_truediv (player_wins t) total in
    py_int_of_float (py_fmul_int q 100)
  else Ok 50.

(** Lines 202-203. *)
Definition get_dealer_percent (t : tally) : res Z :=
  res_map (fun p => 100 - p) (get_player_percent t).

(** ** Settlement against the interface *)

Section SettleFacts.
Context {S : Type} `{ScoreOrder S}.

Lemma settle_by_cmp (p d : S) t :
  settle p d t =
  match score_cmp p d with
  | Ok Gt => Ok (PlayerWin, mk_tally (player_wins t + pending_push_multiplier t) (dealer_wins t) 1)
  | Ok Lt => Ok (DealerWin, mk_tally (player_wins t) (dealer_wins t + pending_push_multiplier t) 1)
  | Ok Eq => Ok (Push, mk_tally (player_wins t) (dealer_wins t) (pending_push_multiplier t * 2))
  | Err e => Err e
  end.
Proof. unfold settle, score_gt, score_lt. by destruct (score_cmp p d) as [[| |]|?]. Qed.

(** C7: a round whose two results are equal is a push: the win
    counters are untouched and the multiplier doubles (spec, section 8,
    push symmetry). *)
Theorem settle_same_push (p : S) t :
  settle p p t =
  Ok (Push, mk_tally (player_wins t) (dealer_wins t) (pending_push_multiplier t * 2)).
Proof. by rewrite settle_by_cmp, score_cmp_refl. Qed.

(** Swapping the two hands swaps the winner. *)
Lemma settle_swap (p d : S) t o t' :
  settle p d t = Ok (o, t') -> o <> Push ->
  exists o', settle d p t = Ok (o', mk_tally (dealer_wins t' - dealer_wins t + player_wins t)
                                       (player_wins t' - player_wins t + dealer_wins t) 1) /\
             o' <> o /\ o' <> Push.
Proof.
  rewrite !settle_by_cmp, (score_cmp_antisym p d).
  destruct (score_cmp p d) as [[| |]|?]; simpl; intros Hs Ho; simplify_eq; try done;
    eexists; (split; [do 3 f_equal; simpl; lia|split; discriminate]).
Qed.

(** The invariant of the session state: counters non-negative, the
    multiplier a power of two. *)
Definition tally_inv (t : tally) : Prop :=
  0 <= player_wins t /\ 0 <= dealer_wins t /\
  exists k, 0 <= k /\ pending_push_multiplier t = 2 ^ k.

Lemma settle_inv (p d : S) t o t' :
  tally_inv t -> settle p d t = Ok (o, t') -> tally_inv t'.
Proof.
  intros (Hp & Hd & k & Hk & Hm). rewrite settle_by_cmp.
  assert (0 < 2 ^ k) by (apply Z.pow_pos_nonneg; lia).
  destruct (score_cmp p d) as [[| |]|?]; intros Hs; simplify_eq; unfold tally_inv; simpl;
    split_and!; try lia; [exists (k + 1)|exists 0|exists 0]; split; try lia;
    rewrite ?Z.pow_add_r by lia; simpl; lia.
Qed.

(** C8: every state a session reaches has non-negative win counters and
    a multiplier that is a power of two (by induction on the steps). *)
Theorem reachable_tally_inv t : @reachable S _ t -> tally_inv t.
Proof.
  induction 1 as [|t p d o t' Hr IH Hs].
  - unfold tally_inv; simpl. split_and!; [lia|lia|exists 0; split; [lia|done]].
  - by eapply settle_inv.
Qed.

(** C9: [k] pushes followed by a round the player wins credit the
    player with the multiplier times [2^k] and reset the multiplier to 1
    (spec, section 8: three pushes then a win credit 8). *)
Theorem pushes_then_win (k : nat) (p w l : S) t :
  score_cmp w l = Ok Gt ->
  settle_all (repeat (p, p) k ++ [(w, l)]) t =
  Ok (repeat Push k ++ [PlayerWin],
      mk_tally (player_wins t + pending_push_multiplier t * 2 ^ Z.of_nat k) (dealer_wins t) 1).
Proof.
  intros Hw. revert t; induction k as [|k IH]; intros t; simpl.
  - rewrite settle_by_cmp, Hw. simpl. do 3 f_equal. lia.
  - rewrite settle_by_cmp, score_cmp_refl. simpl. rewrite IH. simpl. do 3 f_equal.
    rewrite Nat2Z.inj_succ, Z.pow_succ_r by lia. lia.
Qed.

End SettleFacts.

Lemma reachable_tally_inv_witness :
  @reachable (Z * list pyval) _ initial_tally /\ tally_inv initial_tally.
Proof.
  assert (H : @reachable (Z * list pyval) _ initial_tally) by constructor.
  split; [exact H|]. exact (reachable_tally_inv initial_tally H).
Defined.

Lemma pushes_then_win_witness :
  score_cmp ((8, [PInt 14]) : Z * list pyval) (0, [PInt 9]) = Ok Gt /\
  settle_all (repeat ((3, [PInt 5]), (3, [PInt 5])) 3 ++ [((8, [PInt 14]), (0, [PInt 9]))])
             initial_tally =
  Ok (repeat Push 3 ++ [PlayerWin],
      mk_tally (player_wins initial_tally + pending_push_multiplier initial_tally * 2 ^ Z.of_nat 3)
               (dealer_wins initial_tally) 1).
Proof.
  assert (H : score_cmp ((8, [PInt 14]) : Z * list pyval) (0, [PInt 9]) = Ok Gt)
    by reflexivity.
  split; [exact H|]. exact (pushes_then_win 3 (3, [PInt 5]) _ _ initial_tally H).
Defined.

(** ** Settling two results of [evaluate] *)

Import Evaluate.

(** Settling two results of [evaluate] raises only [TypeError], and only
    on two flushes. *)
Lemma settle_Err_flushes h1 h2 p d t e :
  evaluate h1 = Ok p -> evaluate h2 = Ok d -> settle p d t = Err e ->
  e = TypeError /\ p.1 = 5 /\ d.1 = 5.
Proof.
  intros H1 H2 Hs. rewrite settle_by_cmp in Hs. simpl in Hs.
  destruct (pyscore_cmp p d) as [c|e'] eqn:Hc; [destruct c; discriminate|].
  injection Hs as <-. apply pyscore_cmp_Err in Hc as (-> & Heq & Hl).
  split; [done|].
  destruct (Z.eq_dec p.1 5) as [Hp5|Hp5]; [split; congruence|exfalso].
  destruct (pylist_cmp_ints p.2 d.2) as [c Hc].
  - by apply (evaluate_tiebreak_ints h1).
  - apply (evaluate_tiebreak_ints h2); congruence.
  - congruence.
Qed.

(** C6: the comparison at the end of [play_round] raises only when both
    hands are flushes: every other category has a tiebreak of ints, while
    the flush tiebreak mixes face strings with the int padding [14], and
    Python refuses to order a [str] against an [int]. *)
Theorem settle_evaluate_error h1 h2 p d t e :
  evaluate h1 = Ok p -> evaluate h2 = Ok d -> settle p d t = Err e ->
  e = TypeError /\ p.1 = 5 /\ d.1 = 5.
Proof. apply settle_Err_flushes. Qed.

Definition hand_flush_4_joker : list card :=
  [("9", Some HEART); ("7", Some HEART); ("5", Some HEART); ("3", Some HEART); JOKER].
Definition hand_flush_9_high : list card :=
  [("9", Some SPADE); ("7", Some SPADE); ("5", Some SPADE); ("3", Some SPADE); ("2", Some SPADE)].

Lemma settle_evaluate_error_witness :
  evaluate hand_flush_4_joker = Ok (5, [PStr "9"; PStr "7"; PStr "5"; PStr "3"; PInt 14]) /\
  evaluate hand_flush_9_high = Ok (5, [PStr "9"; PStr "7"; PStr "5"; PStr "3"; PStr "2"]) /\
  settle (5, [PStr "9"; PStr "7"; PStr "5"; PStr "3"; PInt 14])
         (5, [PStr "9"; PStr "7"; PStr "5"; PStr "3"; PStr "2"]) initial_tally = Err TypeError /\
  (TypeError = TypeError /\ (5, [PStr "9"; PStr "7"; PStr "5"; PStr "3"; PInt 14]).1 = 5 /\
   (5, [PStr "9"; PStr "7"; PStr "5"; PStr "3"; PStr "2"]).1 = 5).
Proof.
  assert (H1 : evaluate hand_flush_4_joker =
               Ok (5, [PStr "9"; PStr "7"; PStr "5"; PStr "3"; PInt 14])) by (vm_compute; reflexivity).
  assert (H2 : evaluate hand_flush_9_high =
               Ok (5, [PStr "9"; PStr "7"; PStr "5"; PStr "3"; PStr "2"])) by (vm_compute; reflexivity).
  assert (H3 : settle (5, [PStr "9"; PStr "7"; PStr "5"; PStr "3"; PInt 14])
                 (5, [PStr "9"; PStr "7"; PStr "5"; PStr "3"; PStr "2"]) initial_tally
               = Err TypeError) by (vm_compute; reflexivity).
  split; [exact H1|]. split; [exact H2|]. split; [exact H3|].
  exact (settle_evaluate_error _ _ _ _ _ _ H1 H2 H3).
Defined.

(** ** The spec's resolver (sections 4.1 and 4.2)

    Written from the spec, independently of Python's comparison: the
    categories compare as integers, an equal category falls to the
    tiebreak keys compared element-wise from the left, the first
    difference deciding (a key that is a prefix of the other is the
    smaller one, which never happens between two results of one
    category). *)
Fixpoint key_cmp (a b : list Z) : comparison :=
  match a, b with
  | [], [] => Eq
  | [], _ :: _ => Lt
  | _ :: _, [] => Gt
  | x :: a', y :: b' => match Z.compare x y with Eq => key_cmp a' b' | c => c end
  end.

Definition spec_cmp (p d : Z * list Z) : comparison :=
  match Z.compare p.1 d.1 with Eq => key_cmp p.2 d.2 | c => c end.

(** Section 4.2: the winner of a decisive round is credited the pending
    multiplier, which returns to 1; a push doubles it. *)
Definition spec_resolve (p d : Z * list Z) (t : tally) : outcome * tally :=
  match spec_cmp p d with
  | Gt => (PlayerWin, mk_tally (player_wins t + pending_push_multiplier t) (dealer_wins t) 1)
  | Lt => (DealerWin, mk_tally (player_wins t) (dealer_wins t + pending_push_multiplier t) 1)
  | Eq => (Push, mk_tally (player_wins t) (dealer_wins t) (pending_push_multiplier t * 2))
  end.

Lemma pylist_cmp_map_PInt (a b : list Z) :
  pylist_cmp (PInt <$> a) (PInt <$> b) = Ok (key_cmp a b).
Proof.
  revert b; induction a as [|x a IH]; intros [|y b]; simpl; try done.
  unfold py_eqb. case_bool_decide as Hxy.
  - injection Hxy as ->. by rewrite Z.compare_refl.
  - simpl. destruct (Z.compare_spec x y); subst; done.
Qed.

Lemma pyscore_cmp_map_PInt (p d : Z * list Z) :
  pyscore_cmp (p.1, PInt <$> p.2) (d.1, PInt <$> d.2) = Ok (spec_cmp p d).
Proof.
  unfold pyscore_cmp, spec_cmp; simpl.
  destruct (Z.eqb_spec p.1 d.1) as [E|E].
  - rewrite E, Z.compare_refl. apply pylist_cmp_map_PInt.
  - by destruct (Z.compare_spec p.1 d.1).
Qed.

Lemma Forall_is_pyint_map (l : list pyval) :
  Forall is_pyint l -> exists k, l = PInt <$> k.
Proof.
  induction 1 as [|x l [z ->] _ [k ->]]; [by exists []|by exists (z :: k)].
Qed.

(** C20: settling two results of [evaluate] refines the spec's resolver:
    when neither hand is a flush, both tiebreaks are lists of ints, and
    [play_round]'s settlement (line 282 tested before line 285) produces
    exactly the outcome and the session state that sections 4.1 and 4.2
    prescribe for the categories and those keys. *)
Theorem settle_refines_resolve h1 h2 p d t :
  evaluate h1 = Ok p -> evaluate h2 = Ok d -> p.1 <> 5 -> d.1 <> 5 ->
  exists kp kd, p.2 = PInt <$> kp /\ d.2 = PInt <$> kd /\
    settle p d t = Ok (spec_resolve (p.1, kp) (d.1, kd) t).
Proof.
  intros H1 H2 Hp Hd.
  destruct (Forall_is_pyint_map _ (evaluate_tiebreak_ints h1 p H1 Hp)) as [kp Ekp].
  destruct (Forall_is_pyint_map _ (evaluate_tiebreak_ints h2 d H2 Hd)) as [kd Ekd].
  exists kp, kd. split_and!; [done|done|].
  destruct p as [cp tp], d as [cd td]; simpl in *; subst tp td.
  rewrite settle_by_cmp. change (score_cmp _ _) with (pyscore_cmp (cp, PInt <$> kp) (cd, PInt <$> kd)).
  pose proof (pyscore_cmp_map_PInt (cp, kp) (cd, kd)) as Hc; simpl in Hc.
  rewrite Hc. unfold spec_resolve. by destruct (spec_cmp _ _).
Qed.

Definition hand_pair_kings : list card :=
  [("K", Some HEART); ("K", Some CLUB); ("7", Some SPADE); ("4", Some DIAMOND); ("2", Some HEART)].
Definition hand_pair_nines : list card :=
  [("9", Some SPADE); ("9", Some DIAMOND); ("Q", Some HEART); ("3", Some CLUB); ("2", Some SPADE)].

Lemma settle_refines_resolve_witness :
  evaluate hand_pair_kings = Ok (1, [PInt 13]) /\ evaluate hand_pair_nines = Ok (1, [PInt 9]) /\
  exists kp kd, [PInt 13] = PInt <$> kp /\ [PInt 9] = PInt <$> kd /\
    settle (1, [PInt 13]) (1, [PInt 9]) initial_tally = Ok (spec_resolve (1, kp) (1, kd) initial_tally).
Proof.
  assert (H1 : evaluate hand_pair_kings = Ok (1, [PInt 13])) by (vm_compute; reflexivity).
  assert (H2 : evaluate hand_pair_nines = Ok (1, [PInt 9])) by (vm_compute; reflexivity).
  split; [exact H1|]. split; [exact H2|].
  apply (settle_refines_resolve hand_pair_kings hand_pair_nines _ _ initial_tally H1 H2);
    discriminate.
Defined.

(** [play_round] crashes on a reachable deal: a player holding four
    hearts and a joker against a dealer holding a nine-high spade flush
    with the same four top faces.  Both hands come from one deck, both
    evaluate to flushes whose tiebreaks agree up to the fifth entry, where
    the int [14] meets the string ["2"]: the comparison [p_score > d_score]
    raises [TypeError] whatever the session state. *)
Example flush_tie_raises :
  dealt_from (hand_flush_4_joker ++ hand_flush_9_high) unshuffled_deck /\
  exists p d, evaluate hand_flush_4_joker = Ok p /\ evaluate hand_flush_9_high = Ok d /\
              forall t, settle p d t = Err TypeError.
Proof.
  split; [unfold dealt_from; decide_by_eval|].
  eexists _, _. split; [vm_compute; reflexivity|]. split; [vm_compute; reflexivity|].
  intros t. reflexivity.
Qed.

Definition hand_flush_ace_high : list card :=
  [("A", Some HEART); ("9", Some HEART); ("7", Some HEART); ("5", Some HEART); ("3", Some HEART)].
Definition hand_flush_king_high : list card :=
  [("K", Some SPADE); ("9", Some SPADE); ("7", Some SPADE); ("5", Some SPADE); ("3", Some SPADE)].

(** the flush tiebreak orders faces as strings, so ["K"] beats ["A"]
    (and ["2"] beats ["10"]): an ace-high flush loses to a king-high flush
    dealt from the same deck, although the spec ranks flushes by card
    value. *)
Example ace_flush_loses_to_king_flush :
  dealt_from (hand_flush_ace_high ++ hand_flush_king_high) unshuffled_deck /\
  exists p d, evaluate hand_flush_ace_high = Ok p /\ evaluate hand_flush_king_high = Ok d /\
    forall t, settle p d t =
      Ok (DealerWin, mk_tally (player_wins t) (dealer_wins t + pending_push_multiplier t) 1).
Proof.
  split; [unfold dealt_from; decide_by_eval|].
  eexists _, _. split; [vm_compute; reflexivity|]. split; [vm_compute; reflexivity|].
  intros t. reflexivity.
Qed.

(** ** The win percentage *)

(** The spec's percentage: [playerWins / (playerWins + dealerWins) * 100]
    rounded down. *)
Definition spec_percent (pw total : Z) : Z := 100 * pw / total.

Definition percent_ok (pw total p : Z) : bool :=
  (0 <=? p) && (p <=? 100) && (spec_percent pw total - 1 <=? p) && (p <=? spec_percent pw total).

(** Every split of [total] rounds as [percent_ok] says. *)
Definition check_total (total : nat) : bool :=
  forallb (fun i =>
             match get_player_percent (mk_tally (Z.of_nat i) (Z.of_nat total - Z.of_nat i) 1) with
             | Ok p => percent_ok (Z.of_nat i) (Z.of_nat total) p
             | Err _ => false
             end) (seq 0 (S total)).

Definition check_percent (n : nat) : bool := forallb check_total (seq 1 n).

Lemma get_player_percent_mult pw dw m :
  get_player_percent (mk_tally pw dw m) = get_player_percent (mk_tally pw dw 1).
Proof. reflexivity. Qed.

Lemma check_percent_sound n pw dw m :
  check_percent n = true -> 0 <= pw -> 0 <= dw -> 0 < pw + dw <= Z.of_nat n ->
  exists p, get_player_percent (mk_tally pw dw m) = Ok p /\ percent_ok pw (pw + dw) p = true.
Proof.
  intros Hc Hpw Hdw Ht. unfold check_percent in Hc. rewrite forallb_forall in Hc.
  specialize (Hc (Z.to_nat (pw + dw)) ltac:(apply in_seq; lia)).
  unfold check_total in Hc. rewrite forallb_forall in Hc.
  specialize (Hc (Z.to_nat pw) ltac:(apply in_seq; lia)).
  rewrite !Z2Nat.id in Hc by lia. replace (pw + dw - pw) with dw in Hc by lia.
  rewrite get_player_percent_mult.
  destruct (get_player_percent _) as [p|]; [eauto|discriminate].
Qed.

(** The exhaustive check, by evaluation of binary64 arithmetic. *)
Lemma check_percent_100 : check_percent 100 = true.
Proof. vm_compute. reflexivity. Qed.

(** C10: for every session with at most 100 decisive rounds, the
    displayed percentage [get_player_percent] returns (no exception) a value
    in [0..100]: the spec's floor of [100 * wins / total] or one less, and
    [50] before any decisive round. *)
Theorem player_percent_bounds pw dw m :
  0 <= pw -> 0 <= dw -> pw + dw <= 100 ->
  exists p, get_player_percent (mk_tally pw dw m) = Ok p /\ 0 <= p <= 100 /\
            (pw + dw = 0 -> p = 50) /\
            (0 < pw + dw -> spec_percent pw (pw + dw) - 1 <= p <= spec_percent pw (pw + dw)).
Proof.
  intros Hpw Hdw Ht. destruct (Z.eq_dec (pw + dw) 0) as [H0|H0].
  - exists 50. unfold get_player_percent; simpl. rewrite H0. simpl.
    split; [done|]. split; [lia|]. split; [done|lia].
  - destruct (check_percent_sound 100 pw dw m check_percent_100) as (p & Hp & Hok);
      [lia|lia|lia|].
    exists p. split; [done|]. unfold percent_ok in Hok.
    repeat (apply andb_prop in Hok as [Hok ?]). rewrite Z.leb_le in *. split; [lia|].
    split; [lia|]. intros _. lia.
Qed.

Lemma player_percent_bounds_witness :
  0 <= 29 /\ 0 <= 71 /\ 29 + 71 <= 100 /\
  exists p, get_player_percent (mk_tally 29 71 1) = Ok p /\ 0 <= p <= 100 /\
            (29 + 71 = 0 -> p = 50) /\
            (0 < 29 + 71 -> spec_percent 29 (29 + 71) - 1 <= p <= spec_percent 29 (29 + 71)).
Proof.
  assert (H1 : 0 <= 29) by lia. assert (H2 : 0 <= 71) by lia.
  assert (H3 : 29 + 71 <= 100) by lia.
  split; [exact H1|]. split; [exact H2|]. split; [exact H3|].
  exact (player_percent_bounds 29 71 1 H1 H2 H3).
Defined.

(** the percentage is not the floor the spec promises: with 29 wins
    out of 100, [29 / 100 * 100] is [28.999999999999996] in binary64, and
    [int()] displays 28 where the spec's rounding down gives 29. *)
Example player_percent_float_truncation :
  get_player_percent (mk_tally 29 71 1) = Ok 28 /\ spec_percent 29 (29 + 71) = 29.
Proof. split; vm_compute; reflexivity. Qed.

End Tally.
