(* ===== verification/Dealer.v ===== *)
(** * The dealer of [src/poker.py]

    [dealer_discard_strategy] (lines 221-244): the indices of the dealer's
    hand to throw away; its [keep] set is a stdpp [gset nat].  And the
    redraw loop of [play_round] (lines 267-270), which pops each discarded
    index, highest first, and appends a card popped from the deck.  Last,
    the dealer's turn composed with [evaluate]: the cards the redraw keeps
    ([survivors_from]), and the categories the turn cannot lower. *)

From S2P Require Import Prelude PyBuiltins Cards Evaluator.
From stdpp Require Import gmap.
From stdpp Require Import sorting.
From Stdlib Require Import Sorted.
Local Open Scope Z_scope.

Module Dealer.

(** [enumerate(hand)] *)
Definition enumerate {A} (l : list A) : list (nat * A) := imap pair l.

(** A loop [for i, c in enumerate(hand): if P(i, c): keep.add(i)]. *)
Definition add_indices {A} (P : A -> bool) (l : list A) (keep : gset nat) : gset nat :=
  foldl (fun k '(i, c) => if P c then {[i]} ∪ k else k) keep (enumerate l).

(** The faces a high card may have (line 240). *)
Definition high_faces : list string := ["10"; "J"; "Q"; "K"; "A"].

(** Lines 232-236: for every rank of [count] with [qty >= 2], keep every
    index whose face is that rank. *)
Definition keep_pairs (hand : list card) (count : list (string * Z)) (keep : gset nat)
  : gset nat :=
  foldl (fun k '(rank, qty) =>
           if 2 <=? qty then add_indices (fun c : card => bool_decide (c.1 = rank)) hand k else k)
        keep count.

(** Lines 221-244. *)
Definition dealer_discard_strategy (hand : list card) : list nat :=
  let ranks := map fst (List.filter (fun c => negb (is_joker c)) hand) in
  let count := Counter ranks in
  let keep := add_indices is_joker hand ∅ in
  let keep := keep_pairs hand count keep in
  let keep := add_indices (fun c : card => bool_decide (c.1 ∈ high_faces)) hand keep in
  List.filter (fun i => negb (bool_decide (i ∈ keep))) (seq 0 (length hand)).

(** [sorted(idxs, reverse=True)] on ints. *)
Fixpoint insert_desc_nat (x : nat) (l : list nat) : list nat :=
  match l with
  | [] => [x]
  | y :: l' => if Nat.ltb x y then y :: insert_desc_nat x l' else x :: l
  end.
Definition sort_desc_nat (l : list nat) : list nat := foldr insert_desc_nat [] l.

(** Lines 268-270: [dealer.pop(i)] then [dealer.append(deck.pop())] for each
    index; returns the new dealer hand and the rest of the deck. *)
Fixpoint redraw (idxs : list nat) (dealer deck : list card) : res (list card * list card) :=
  match idxs with
  | [] => Ok (dealer, deck)
  | i :: idxs' =>
      let! '(_, dealer1) := py_pop_at i dealer in
      let! '(c, deck1) := py_pop deck in
      redraw idxs' (dealer1 ++ [c]) deck1
  end.

(** Lines 267-270. *)
Definition dealer_turn (dealer deck : list card) : res (list card * list card) :=
  redraw (sort_desc_nat (dealer_discard_strategy dealer)) dealer deck.

(** ** The keep set *)

Lemma elem_of_enumerate {A} (l : list A) i c : (i, c) ∈ enumerate l <-> l !! i = Some c.
Proof.
  unfold enumerate. rewrite list_elem_of_lookup. split.
  - intros [j Hj]. rewrite list_lookup_imap in Hj.
    destruct (l !! j) eqn:Hl; simplify_eq/=. done.
  - intros Hi. exists i. by rewrite list_lookup_imap, Hi.
Qed.

Lemma elem_of_foldl_add {A} (P : A -> bool) (L : list (nat * A)) (k : gset nat) i :
  i ∈ foldl (fun k '(i, c) => if P c then {[i]} ∪ k else k) k L <->
  i ∈ k \/ exists c, (i, c) ∈ L /\ P c = true.
Proof.
  revert k; induction L as [|[j c] L IH]; intros k; simpl.
  - split; [auto|]. intros [|(c & Hc & _)]; [done|set_solver].
  - rewrite IH. setoid_rewrite elem_of_cons. split.
    + intros [Hk|(c' & Hc' & Hp')]; [|by eauto].
      destruct (P c) eqn:Hp; [|by left].
      apply elem_of_union in Hk as [->%elem_of_singleton|Hk]; [|by left].
      right. exists c. auto.
    + intros [Hk|(c' & [[= -> ->]|Hc'] & Hp')]; [left|left|by eauto].
      * destruct (P c); [apply elem_of_union_r|]; done.
      * rewrite Hp'. apply elem_of_union_l, elem_of_singleton. done.
Qed.

(** The indices a [for i, c in enumerate(hand)] loop adds. *)
Lemma elem_of_add_indices {A} (P : A -> bool) (l : list A) (k : gset nat) i :
  i ∈ add_indices P l k <-> i ∈ k \/ exists c, l !! i = Some c /\ P c = true.
Proof.
  unfold add_indices. rewrite elem_of_foldl_add.
  by setoid_rewrite elem_of_enumerate.
Qed.

Lemma elem_of_keep_pairs hand count (k : gset nat) i :
  i ∈ keep_pairs hand count k <->
  i ∈ k \/ exists rank qty (c : card), (rank, qty) ∈ count /\ 2 <= qty /\
                              hand !! i = Some c /\ c.1 = rank.
Proof.
  unfold keep_pairs. revert k; induction count as [|[rank qty] count IH]; intros k; simpl.
  - split; [auto|]. intros [|(? & ? & ? & Hin & _)]; [done|set_solver].
  - rewrite IH. destruct (2 <=? qty) eqn:Hq; [rewrite elem_of_add_indices|].
    + apply Z.leb_le in Hq. split.
      * intros [[Hk|(c & Hc & Heq)]|(r & q & c & Hin & Hq2 & Hc & Hr)]; [by left|..].
        -- apply bool_decide_eq_true in Heq. right. exists rank, qty, c.
           split_and!; [set_solver|lia|done|done].
        -- right. exists r, q, c. split_and!; [set_solver|lia|done|done].
      * intros [Hk|(r & q & c & Hin & Hq2 & Hc & Hr)]; [by left; left|].
        apply elem_of_cons in Hin as [[= -> ->]|Hin].
        -- left. right. exists c. split; [done|]. by apply bool_decide_eq_true.
        -- right. exists r, q, c. done.
    + apply Z.leb_nle in Hq. split.
      * intros [Hk|(r & q & c & Hin & Hq2 & Hc & Hr)]; [by left|].
        right. exists r, q, c. split_and!; [set_solver|lia|done|done].
      * intros [Hk|(r & q & c & Hin & Hq2 & Hc & Hr)]; [by left|].
        apply elem_of_cons in Hin as [[= -> ->]|Hin]; [lia|].
        right. exists r, q, c. done.
Qed.

Lemma StronglySorted_filter {A} (R : A -> A -> Prop) (f : A -> bool) l :
  StronglySorted R l -> StronglySorted R (List.filter f l).
Proof.
  induction 1 as [|x l Hs IH Hall]; simpl; [constructor|].
  destruct (f x); [|done]. constructor; [done|].
  rewrite Forall_forall in *. intros y Hy%list_elem_of_In.
  apply List.filter_In in Hy as [Hy _]. apply Hall, list_elem_of_In, Hy.
Qed.

Lemma StronglySorted_seq a n : StronglySorted lt (seq a n).
Proof.
  revert a; induction n as [|n IH]; intros a; simpl; constructor; [done|].
  rewrite Forall_forall. intros y Hy%list_elem_of_In. apply in_seq in Hy. lia.
Qed.

(** The faces of the standard cards (line 222). *)
Definition faces_of (hand : list card) : list string :=
  map fst (List.filter (fun c => negb (is_joker c)) hand).

Lemma elem_of_dealer_discard hand i :
  i ∈ dealer_discard_strategy hand <->
  exists c, hand !! i = Some c /\ is_joker c = false /\
            (occ c.1 (faces_of hand) < 2)%nat /\ c.1 ∉ high_faces.
Proof.
  unfold dealer_discard_strategy. cbv zeta. rewrite list_elem_of_In, List.filter_In, in_seq.
  rewrite negb_true_iff, bool_decide_eq_false.
  rewrite elem_of_add_indices, elem_of_keep_pairs, elem_of_add_indices.
  fold (faces_of hand). split.
  - intros [[_ Hi] Hkeep]. simpl in Hi.
    destruct (lookup_lt_is_Some_2 hand i Hi) as [c Hc]. exists c. split; [done|].
    split; [destruct (is_joker c) eqn:Hj; [|done]; exfalso; apply Hkeep; left; left;
            right; eauto|].
    split.
    + destruct (decide (occ c.1 (faces_of hand) < 2)%nat) as [|Hge]; [done|exfalso].
      apply Hkeep. left. right. exists c.1, (Z.of_nat (occ c.1 (faces_of hand))), c.
      split_and!; [|lia|done|done]. apply Counter_keys_complete, occ_pos_iff. lia.
    + intros Hh. apply Hkeep. right. exists c. split; [done|]. by apply bool_decide_eq_true.
  - intros (c & Hc & Hj & Hocc & Hh). split; [split; [lia|simpl; by eapply lookup_lt_Some]|].
    intros [[[Hk|(c' & Hc' & Hj')]|(r & q & c' & Hin & Hq & Hc' & Hr)]|(c' & Hc' & Hh')].
    + set_solver.
    + congruence.
    + rewrite Hc in Hc'. injection Hc' as <-. subst r.
      apply Counter_items in Hin as [_ ->]. lia.
    + rewrite Hc in Hc'. injection Hc' as <-. by apply bool_decide_eq_true in Hh'.
Qed.

(** C11: the dealer discards exactly the standard cards whose face occurs
    only once among the standard cards and is below ten: jokers, every
    card of a repeated face, and tens and above are kept (spec, section
    4.3); the discarded indices are in increasing order. *)
Theorem dealer_discard_spec hand i :
  (i ∈ dealer_discard_strategy hand <->
   exists c, hand !! i = Some c /\ is_joker c = false /\
             (occ c.1 (faces_of hand) < 2)%nat /\ c.1 ∉ high_faces) /\
  StronglySorted lt (dealer_discard_strategy hand).
Proof.
  split; [apply elem_of_dealer_discard|apply StronglySorted_filter, StronglySorted_seq].
Qed.

(** ** The redraw loop *)

(** The redraw loop raises no [IndexError] when every index is inside
    the dealer's hand and the deck holds a card per index: [pop(i)]
    followed by [append] keeps the hand's length, so every index stays
    valid whatever the order, and the deck loses its last [len(idxs)]
    cards. *)
Theorem redraw_total idxs dealer deck :
  Forall (fun i => i < length dealer)%nat idxs -> (length idxs <= length deck)%nat ->
  exists dealer', redraw idxs dealer deck = Ok (dealer', take (length deck - length idxs) deck) /\
                  length dealer' = length dealer.
Proof.
  revert dealer deck; induction idxs as [|i idxs IH]; intros dealer deck Hi Hlen; simpl.
  - exists dealer. by rewrite Nat.sub_0_r, take_ge by lia.
  - apply Forall_cons in Hi as [Hi Hall].
    destruct (py_pop_at_Ok i dealer Hi) as (x & dealer1 & -> & Hd1). simpl.
    destruct (py_pop_Ok_cons deck) as (c & deck1 & -> & ->); [by intros ->; simpl in Hlen; lia|].
    simpl. rewrite length_app in Hlen. simpl in Hlen.
    destruct (IH (dealer1 ++ [c]) deck1) as (dealer' & Hr & Hl').
    { eapply Forall_impl; [exact Hall|]. simpl. intros j Hj. rewrite length_app. simpl. lia. }
    { lia. }
    exists dealer'. rewrite Hr, length_app. simpl. split.
    + do 2 f_equal. rewrite take_app_le by lia. f_equal. lia.
    + rewrite Hl', length_app. simpl. lia.
Qed.

Lemma py_pop_at_perm {A} i (l : list A) x l' : py_pop_at i l = Ok (x, l') -> l ≡ₚ x :: l'.
Proof.
  unfold py_pop_at. destruct (l !! i) eqn:Hi; [|discriminate]. intros [= <- <-].
  rewrite <- delete_take_drop. by apply delete_Permutation.
Qed.

Lemma redraw_Ok idxs dealer deck dealer' deck' :
  redraw idxs dealer deck = Ok (dealer', deck') ->
  dealer' ++ deck' ⊆+ dealer ++ deck /\ length dealer' = length dealer.
Proof.
  revert dealer deck; induction idxs as [|i idxs IH]; intros dealer deck; simpl.
  - by intros [= <- <-].
  - destruct (py_pop_at i dealer) as [[x dealer1]|] eqn:Hx; [|discriminate]. cbn [res_bind].
    destruct (py_pop deck) as [[c deck1]|] eqn:Hc; [|discriminate]. cbn [res_bind].
    intros [Hr Hl]%IH. apply py_pop_at_perm in Hx. apply py_pop_Ok in Hc as ->.
    split; [rewrite Hr, Hx; solve_submseteq|].
    rewrite Hl, length_app, (Permutation_length Hx). simpl. lia.
Qed.

Lemma insert_desc_nat_perm x l : insert_desc_nat x l ≡ₚ x :: l.
Proof.
  induction l as [|y l IH]; simpl; [done|].
  destruct (Nat.ltb x y); [|done]. rewrite IH. apply perm_swap.
Qed.

Lemma sort_desc_nat_perm l : sort_desc_nat l ≡ₚ l.
Proof. induction l as [|x l IH]; simpl; [done|]. by rewrite insert_desc_nat_perm, IH. Qed.

Lemma length_dealer_discard hand : (length (dealer_discard_strategy hand) <= length hand)%nat.
Proof.
  unfold dealer_discard_strategy. etransitivity; [apply List.filter_length_le|].
  by rewrite length_seq.
Qed.

(** C12: the dealer's turn of [play_round] on a hand of five cards and a
    deck of at least five cards raises nothing and leaves the dealer with
    five cards; the deck loses one card per discarded index. *)
Theorem dealer_turn_total dealer deck :
  length dealer = 5%nat -> (5 <= length deck)%nat ->
  exists dealer', dealer_turn dealer deck =
                  Ok (dealer', take (length deck - length (dealer_discard_strategy dealer)) deck) /\
                  length dealer' = 5%nat.
Proof.
  intros Hd Hdeck. unfold dealer_turn.
  rewrite <- (Permutation_length (sort_desc_nat_perm (dealer_discard_strategy dealer))).
  rewrite <- Hd. apply redraw_total.
  - rewrite Forall_forall. intros i Hi. rewrite sort_desc_nat_perm in Hi.
    apply elem_of_dealer_discard in Hi as (c & Hc & _). by eapply lookup_lt_Some.
  - rewrite sort_desc_nat_perm. pose proof (length_dealer_discard dealer). lia.
Qed.

Definition sample_dealer : list card :=
  [("5", Some HEART); ("2", Some HEART); ("K", Some CLUB); ("3", Some SPADE); ("9", Some DIAMOND)].
Definition sample_deck : list card :=
  [("A", Some SPADE); ("Q", Some SPADE); ("J", Some SPADE); ("10", Some SPADE); ("7", Some SPADE)].



Lemma dealer_turn_total_witness :
  length sample_dealer = 5%nat /\ (5 <= length sample_deck)%nat /\
  exists dealer', dealer_turn sample_dealer sample_deck =
                  Ok (dealer', take (length sample_deck -
                                     length (dealer_discard_strategy sample_dealer)) sample_deck) /\
                  length dealer' = 5%nat.
Proof.
  assert (H1 : length sample_dealer = 5%nat) by reflexivity.
  assert (H2 : (5 <= length sample_deck)%nat) by (simpl; lia).
  split; [exact H1|]. split; [exact H2|]. exact (dealer_turn_total _ _ H1 H2).
Defined.

(** ** What the redraw keeps *)

(** The cards of [l], read from position [k] on, whose position is not in
    [idxs]: the cards the redraw loop leaves in place. *)
Fixpoint survivors_from (k : nat) (idxs : list nat) (l : list card) : list card :=
  match l with
  | [] => []
  | c :: l => if bool_decide (k ∈ idxs) then survivors_from (S k) idxs l
              else c :: survivors_from (S k) idxs l
  end.

Lemma survivors_from_app k idxs l1 l2 :
  survivors_from k idxs (l1 ++ l2) =
  survivors_from k idxs l1 ++ survivors_from (k + length l1) idxs l2.
Proof.
  revert k; induction l1 as [|c l1 IH]; intros k; simpl; [by rewrite Nat.add_0_r|].
  rewrite IH, Nat.add_succ_r. by case_bool_decide.
Qed.

Lemma survivors_from_none k idxs l :
  Forall (fun j => j < k)%nat idxs -> survivors_from k idxs l = l.
Proof.
  revert k; induction l as [|c l IH]; intros k Hall; simpl; [done|].
  case_bool_decide as Hk.
  - rewrite Forall_forall in Hall. specialize (Hall k Hk). lia.
  - rewrite IH; [done|]. eapply Forall_impl; [exact Hall|]. simpl; lia.
Qed.

Lemma survivors_from_ext k idxs idxs' l :
  (forall j, (k <= j)%nat -> (j < k + length l)%nat -> j ∈ idxs <-> j ∈ idxs') ->
  survivors_from k idxs l = survivors_from k idxs' l.
Proof.
  revert k; induction l as [|c l IH]; intros k Hext; simpl; [done|].
  rewrite (IH (S k)) by (intros j ? ?; apply Hext; simpl; lia).
  specialize (Hext k ltac:(lia) ltac:(simpl; lia)).
  repeat case_bool_decide; first [done | tauto].
Qed.

(** Popping the indices from the highest down and appending a card each
    time keeps every card whose index is not popped. *)
Lemma redraw_survivors idxs dealer deck dealer' deck' :
  StronglySorted ge idxs -> NoDup idxs -> Forall (fun i => i < length dealer)%nat idxs ->
  redraw idxs dealer deck = Ok (dealer', deck') ->
  survivors_from 0 idxs dealer ⊆+ dealer'.
Proof.
  revert dealer deck. induction idxs as [|i idxs IH]; intros dealer deck Hs Hnd Hlt; simpl.
  - intros [= <- _]. by rewrite survivors_from_none by constructor.
  - apply StronglySorted_inv in Hs as [Hs Hge]. apply NoDup_cons in Hnd as [Hi Hnd].
    apply Forall_cons in Hlt as [Hlt_i Hlt].
    unfold py_pop_at. destruct (dealer !! i) as [x|] eqn:Hx; [|discriminate]. cbn [res_bind].
    destruct (py_pop deck) as [[c deck1]|] eqn:Hc; [|discriminate]. cbn [res_bind].
    assert (Hlow : Forall (fun j => j < i)%nat idxs).
    { rewrite Forall_forall in Hge |- *. intros j Hj. specialize (Hge j Hj).
      assert (j <> i) by (intros ->; contradiction). unfold ge in Hge. lia. }
    assert (Hti : length (take i dealer) = i) by (rewrite length_take; lia).
    intros Hr. apply IH in Hr; [|done|done|].
    2: { eapply Forall_impl; [exact Hlow|]. intros j Hj. simpl.
         rewrite !length_app, Hti, length_drop. simpl. simpl in Hj. lia. }
    rewrite <- (take_drop_middle dealer i x Hx) at 1.
    rewrite survivors_from_app, Hti. simpl. rewrite bool_decide_true by set_solver.
    rewrite (survivors_from_none (S i)) by (constructor; [lia|eapply Forall_impl; [exact Hlow|]; simpl; lia]).
    rewrite (survivors_from_ext 0 (i :: idxs) idxs)
      by (intros j _ Hj; rewrite Hti in Hj; split; [|set_solver];
          intros [->|]%elem_of_cons; [lia|done]).
    rewrite <- app_assoc, survivors_from_app, Hti, (survivors_from_none i idxs) in Hr by done.
    rewrite <- Hr. solve_submseteq.
Qed.

Lemma survivors_from_filter (P : card -> bool) k idxs l :
  (forall j c, l !! j = Some c -> P c = true -> (k + j)%nat ∉ idxs) ->
  List.filter P l ⊆+ survivors_from k idxs l.
Proof.
  revert k; induction l as [|c l IH]; intros k HP; simpl; [done|].
  assert (IH' : List.filter P l ⊆+ survivors_from (S k) idxs l).
  { apply IH. intros j c' Hj Hc'. specialize (HP (S j) c' Hj Hc').
    rewrite Nat.add_succ_r in HP. exact HP. }
  destruct (P c) eqn:Hc.
  - specialize (HP 0%nat c eq_refl Hc). rewrite Nat.add_0_r in HP.
    rewrite bool_decide_false by done. by apply submseteq_skip.
  - case_bool_decide; [done|]. by apply submseteq_cons.
Qed.

Lemma sort_desc_nat_sorted l : StronglySorted ge (sort_desc_nat l).
Proof.
  induction l as [|x l IH]; simpl; [constructor|].
  revert IH. generalize (sort_desc_nat l). intros l' Hs.
  induction Hs as [|y l' Hs IHs Hy]; simpl; [repeat constructor|].
  destruct (Nat.ltb_spec x y).
  - constructor; [done|]. rewrite insert_desc_nat_perm. constructor; [unfold ge; lia|done].
  - constructor; [by constructor|]. constructor; [unfold ge; lia|].
    eapply Forall_impl; [exact Hy|]. intros z Hz. unfold ge in *. lia.
Qed.

(** The cards the dealer's turn keeps: every card [P] selects, when [P]
    only selects jokers and cards of a repeated face. *)
Lemma dealer_turn_keeps (P : card -> bool) dealer deck dealer' deck' :
  (forall c, c ∈ dealer -> P c = true ->
             is_joker c = true \/ (2 <= occ c.1 (faces_of dealer))%nat) ->
  dealer_turn dealer deck = Ok (dealer', deck') -> List.filter P dealer ⊆+ dealer'.
Proof.
  intros HP Hr. unfold dealer_turn in Hr.
  pose proof (sort_desc_nat_perm (dealer_discard_strategy dealer)) as Hperm.
  apply redraw_survivors in Hr.
  - etransitivity; [|exact Hr]. apply survivors_from_filter.
    intros j c Hj Hc Hin. rewrite Hperm, elem_of_dealer_discard in Hin.
    destruct Hin as (c' & Hc' & Hjk & Hocc & _). simpl in Hc'. rewrite Hj in Hc'. injection Hc' as <-.
    destruct (HP c (list_elem_of_lookup_2 _ _ _ Hj) Hc) as [?|?]; [congruence|lia].
  - apply sort_desc_nat_sorted.
  - rewrite Hperm. unfold dealer_discard_strategy. apply NoDup_ListNoDup, List.NoDup_filter, seq_NoDup.
  - rewrite Forall_forall. intros i Hi. rewrite Hperm, elem_of_dealer_discard in Hi.
    destruct Hi as (c & Hc & _). by eapply lookup_lt_Some.
Qed.

(** ** The dealer's turn keeps a hand made of repeated ranks *)

Import Evaluate Monotone.

(** The value [rank_value] gives a standard card's face. *)
Definition face_rank (f : string) : Z := match rank_value f with Ok z => z | Err _ => 0 end.
Definition card_rank (c : card) : Z := face_rank c.1.

Lemma ranks_of_map nm ranks : ranks_of nm = Ok ranks -> ranks = map card_rank nm.
Proof.
  intros H%res_mapM_Forall2. induction H as [|c r nm ranks Hc _ IH]; [done|].
  simpl. unfold card_rank, face_rank at 1. by rewrite Hc, IH.
Qed.

Lemma face_rank_inj_check :
  forallb (fun f => forallb (fun f' => implb (Z.eqb (face_rank f) (face_rank f'))
                                               (bool_decide (f = f'))) RANK_ORDER) RANK_ORDER = true.
Proof. vm_compute. reflexivity. Qed.

Lemma face_rank_inj f f' :
  f ∈ RANK_ORDER -> f' ∈ RANK_ORDER -> face_rank f = face_rank f' -> f = f'.
Proof.
  intros Hf Hf' Heq. pose proof face_rank_inj_check as H.
  eapply forallb_forall in H; [|apply list_elem_of_In, Hf].
  eapply forallb_forall in H; [|apply list_elem_of_In, Hf'].
  rewrite Heq, Z.eqb_refl in H. simpl in H. by apply bool_decide_eq_true in H.
Qed.

(** The standard cards of rank [r]. *)
Definition of_rank (r : Z) (c : card) : bool := negb (is_joker c) && bool_decide (card_rank c = r).

Lemma occ_ranks_of_rank r hand :
  occ r (map card_rank (normal hand)) = length (List.filter (of_rank r) hand).
Proof. unfold normal. by rewrite occ_map, List_filter_filter. Qed.

(** On deck cards, a rank counts exactly the cards of its face. *)
Lemma occ_rank_le_faces hand c :
  Forall deck_card hand -> c ∈ normal hand ->
  (occ (card_rank c) (map card_rank (normal hand)) <= occ c.1 (faces_of hand))%nat.
Proof.
  intros Hall Hc. unfold faces_of. fold (normal hand). rewrite !occ_map.
  apply List_filter_length_mono. intros c' Hc' Hr%bool_decide_eq_true.
  apply bool_decide_eq_true. apply face_rank_inj; [| |done];
    [apply (normal_deck_card hand c' Hall Hc')|apply (normal_deck_card hand c Hall Hc)].
Qed.

Section Turn.
Context (dealer deck dealer' deck' : list card).
Hypothesis Hdeck : Forall deck_card dealer.
Hypothesis Hturn : dealer_turn dealer deck = Ok (dealer', deck').

Lemma dealer_turn_keeps_jokers :
  (length (jokers dealer) <= length (jokers dealer'))%nat.
Proof.
  apply submseteq_length. unfold jokers. rewrite <- List_filter_idem.
  apply List_filter_submseteq, (dealer_turn_keeps is_joker dealer deck dealer' deck'); [|done]. auto.
Qed.

Lemma dealer_turn_keeps_pairs r :
  (2 <= occ r (map card_rank (normal dealer)))%nat ->
  (occ r (map card_rank (normal dealer)) <= occ r (map card_rank (normal dealer')))%nat.
Proof.
  rewrite !occ_ranks_of_rank. intros H2. apply submseteq_length.
  rewrite <- List_filter_idem. apply List_filter_submseteq.
  apply (dealer_turn_keeps _ dealer deck dealer' deck'); [|done].
  intros c Hc [Hj Hr%bool_decide_eq_true]%andb_prop. right.
  assert (Hn : c ∈ normal dealer).
  { unfold normal. apply list_elem_of_In, List.filter_In. split; [by apply list_elem_of_In|done]. }
  pose proof (occ_rank_le_faces dealer c Hdeck Hn). rewrite occ_ranks_of_rank, Hr in *. lia.
Qed.

End Turn.

(** ** From the counts to the category *)

Lemma category_ge_low sf fk fh fl st tk low :
  low <= 2 -> low <= category sf fk fh fl st tk low.
Proof. destruct sf, fk, fh, fl, st, tk; cbn; lia. Qed.

Lemma find_Some_of_elem {A} (f : A -> bool) l x :
  x ∈ l -> f x = true -> is_Some (List.find f l).
Proof.
  intros Hx Hf. destruct (List.find f l) eqn:Hfind; [by eexists|].
  apply list_elem_of_In in Hx. by rewrite (List.find_none _ _ Hfind x Hx) in Hf.
Qed.

Lemma low_categories_mono ranks c ranks' c' :
  (length (pairs c) <= length (pairs c'))%nat ->
  (low_categories ranks c).1 <= (low_categories ranks' c').1.
Proof.
  unfold low_categories. intros Hl.
  destruct (pairs c) as [|? [|? ?]], (pairs c') as [|? [|? ?]]; simpl in *; try lia;
    destruct ranks, ranks'; simpl; lia.
Qed.

(** The counts after the dealer's turn: every repeated rank keeps its
    cards, no joker is lost, the hand keeps five cards with at most the
    deck's two jokers. *)
Section Counts.
Context (ranks ranks' : list Z) (nj nj' : nat).
Hypothesis Hcount : forall r, (2 <= occ r ranks)%nat -> (occ r ranks <= occ r ranks')%nat.
Hypothesis Hnj : (nj <= nj' <= 2)%nat.
Hypothesis Hlen' : (length ranks' + nj' = 5)%nat.
Hypothesis Hrange' : Forall (fun r => 2 <= r <= 14) ranks'.

Lemma four_kind_keep :
  is_Some (four_kind (Counter ranks) (Z.of_nat nj)) ->
  is_Some (four_kind (Counter ranks') (Z.of_nat nj')).
Proof.
  apply find_is_Some_mono. intros r. rewrite !Z.leb_le, !counter_get_Counter. intros H4.
  assert (H2 : (2 <= occ r ranks)%nat) by lia. specialize (Hcount r H2). lia.
Qed.

Lemma three_kind_keep :
  is_Some (three_kind (Counter ranks) (Z.of_nat nj)) ->
  is_Some (three_kind (Counter ranks') (Z.of_nat nj')).
Proof.
  intros [r Hr]. apply List.find_some in Hr as [Hin H3]. rewrite Z.leb_le, counter_get_Counter in H3.
  destruct (decide (2 <= occ r ranks)%nat) as [H2|H2].
  - apply (find_Some_of_elem _ _ r); [|rewrite Z.leb_le, counter_get_Counter; specialize (Hcount r H2); lia].
    by apply list_elem_of_In.
  - destruct ranks' as [|r0 rs]; [simpl in Hlen'; lia|].
    apply Forall_cons in Hrange' as [Hr0 _].
    apply (find_Some_of_elem _ _ r0); [apply elem_of_range_desc; lia|].
    rewrite Z.leb_le, counter_get_Counter, occ_cons, bool_decide_true by done. lia.
Qed.

Lemma pairs_keep :
  (length (pairs (Counter ranks)) <= length (pairs (Counter ranks')))%nat.
Proof.
  apply List_filter_length_mono. intros r _. rewrite !Z.leb_le, !counter_get_Counter.
  intros H2. assert (H2' : (2 <= occ r ranks)%nat) by lia. specialize (Hcount r H2'). lia.
Qed.

(** Without the full-house shape, every test that held before the turn
    that is not a straight or a flush still holds after it. *)
Lemma classify_keep nm nm' :
  (classify nm ranks (Z.of_nat nj)).1 ∉ [4; 5; 8] ->
  fh_test ranks (Z.of_nat nj) = false ->
  (classify nm ranks (Z.of_nat nj)).1 <= (classify nm' ranks' (Z.of_nat nj')).1.
Proof.
  intros Hnot. assert (H458 : forall x : Z, x ∉ [4; 5; 8] -> x <> 4 /\ x <> 5 /\ x <> 8)
    by (intros x Hx; split_and!; intros ->; apply Hx; set_solver).
  apply H458 in Hnot. clear H458. revert Hnot.
  rewrite !classify_category. unfold fh_test.
  match goal with
  | |- _ -> _ -> _ <= category ?a ?b ?c ?d ?e ?f ?g =>
      destruct (category_lb a b c d e f g) as (L8 & L7 & L6 & L5 & L4 & L3);
      pose proof (category_ge_low a b c d e f g) as Llow;
      pose proof (low_categories_range ranks' (Counter ranks')) as [Hlow _];
      set (c' := category a b c d e f g) in *; clearbody c'
  end.
  unfold category. repeat case_match; intros Hnot Hfh; simpl in Hfh;
    first [ exfalso; lia
          | discriminate
          | match goal with H : bool_decide (is_Some (four_kind _ _)) = true |- _ =>
              apply bool_decide_eq_true in H; apply L7, bool_decide_eq_true_2, four_kind_keep, H end
          | match goal with H : bool_decide (is_Some (three_kind _ _)) = true |- _ =>
              apply bool_decide_eq_true in H; apply L3, bool_decide_eq_true_2, three_kind_keep, H end
          | etransitivity; [apply low_categories_mono, pairs_keep|apply Llow; lia] ].
Qed.

End Counts.

(** ** A full house keeps all its cards *)

Definition fh_paired (l : list Z) (nj : Z) : bool :=
  implb (fh_test l nj) (forallb (fun r => 2 <=? Z.of_nat (occ r l)) l).

(** Every rank multiset of a five-card hand with at most two jokers that
    is a full house and not four of a kind repeats each of its ranks. *)
Lemma fh_paired_all :
  forallb (fun l => fh_paired l 0) (asc_lists 5 2) &&
  forallb (fun l => fh_paired l 1) (asc_lists 4 2) &&
  forallb (fun l => fh_paired l 2) (asc_lists 3 2) = true.
Proof. vm_compute. reflexivity. Qed.

Lemma fh_all_paired ranks nj r :
  Forall (fun r => 2 <= r <= 14) ranks -> (length ranks + nj = 5)%nat -> (nj <= 2)%nat ->
  fh_test ranks (Z.of_nat nj) = true -> r ∈ ranks -> (2 <= occ r ranks)%nat.
Proof.
  intros Hr Hlen Hnj Hfh Hin.
  set (s := merge_sort Z.le ranks).
  assert (Hs : s ≡ₚ ranks) by apply merge_sort_Permutation.
  assert (Hasc : s ∈ asc_lists (5 - nj) 2).
  { apply elem_of_asc_lists; [apply (StronglySorted_merge_sort _)|by rewrite Hs|rewrite Hs; lia]. }
  assert (Hok : fh_paired s (Z.of_nat nj) = true).
  { pose proof fh_paired_all as Hall. apply andb_prop in Hall as [Hall H2].
    apply andb_prop in Hall as [H0 H1]. apply list_elem_of_In in Hasc.
    destruct nj as [|[|[|]]]; [..|lia]; cbn [Nat.sub] in Hasc;
      [exact (proj1 (forallb_forall _ _) H0 s Hasc)|exact (proj1 (forallb_forall _ _) H1 s Hasc)
      |exact (proj1 (forallb_forall _ _) H2 s Hasc)]. }
  unfold fh_paired in Hok. rewrite (fh_test_perm s ranks Hs), Hfh in Hok. cbn [implb] in Hok.
  eapply forallb_forall in Hok; [|apply list_elem_of_In; by rewrite Hs].
  apply Z.leb_le in Hok. rewrite (occ_perm _ _ _ Hs) in Hok. lia.
Qed.

Lemma dealer_discard_none dealer :
  Forall deck_card dealer ->
  (forall c, c ∈ normal dealer -> (2 <= occ (card_rank c) (map card_rank (normal dealer)))%nat) ->
  dealer_discard_strategy dealer = [].
Proof.
  intros Hall Hpair. destruct (dealer_discard_strategy dealer) as [|i l] eqn:E; [done|exfalso].
  assert (Hi : i ∈ dealer_discard_strategy dealer) by (rewrite E; left).
  apply elem_of_dealer_discard in Hi as (c & Hc & Hj & Hocc & _).
  assert (Hn : c ∈ normal dealer).
  { unfold normal. apply list_elem_of_In, List.filter_In.
    split; [apply list_elem_of_In; by eapply list_elem_of_lookup_2|by rewrite Hj]. }
  pose proof (occ_rank_le_faces dealer c Hall Hn). specialize (Hpair c Hn). lia.
Qed.

Lemma dealt_deck_cards (h d : list card) :
  h ⊆+ d -> d ⊆+ unshuffled_deck -> Forall deck_card h /\ (occ JOKER h <= 2)%nat.
Proof.
  intros Hh Hd. split.
  - apply Forall_forall. intros c Hc. unfold deck_card.
    eapply elem_of_submseteq; [exact Hc|by etrans].
  - rewrite <- unshuffled_deck_jokers. apply occ_submseteq. by etrans.
Qed.

(** C14: the dealer's side of [play_round] composed with [evaluate]: the
    dealer's turn
    never lowers a hand made of repeated ranks (one pair, two pair, three
    of a kind, full house, four of a kind) nor a high card: the category
    of the dealer's final hand is at least the dealt one unless the dealt
    hand is a straight, a flush or a straight flush. *)
Theorem dealer_turn_keeps_made_hands dealer deck dealer' deck' p :
  dealer ++ deck ⊆+ unshuffled_deck -> length dealer = 5%nat ->
  dealer_turn dealer deck = Ok (dealer', deck') ->
  evaluate dealer = Ok p -> p.1 ∉ [4; 5; 8] ->
  exists p', evaluate dealer' = Ok p' /\ p.1 <= p'.1.
Proof.
  intros Hsub Hlen Hturn Hev Hnot.
  destruct (dealt_deck_cards dealer (dealer ++ deck)) as [Hall Hj]; [solve_submseteq|done|].
  pose proof Hturn as Hr. unfold dealer_turn in Hr. apply redraw_Ok in Hr as [Hsub' Hlen'].
  destruct (dealt_deck_cards dealer' (dealer ++ deck)) as [Hall' Hj']; [|done|].
  { etrans; [|exact Hsub']. solve_submseteq. }
  unfold evaluate in Hev. apply res_bind_Ok in Hev as (ranks & Hranks & [= <-]).
  pose proof (ranks_of_map _ _ Hranks) as ->.
  destruct (ranks_of_deck dealer Hall) as (r0 & Hr0 & Hrange). rewrite Hranks in Hr0.
  injection Hr0 as <-.
  assert (Hl : (length (map card_rank (normal dealer)) + length (jokers dealer) = 5)%nat).
  { rewrite length_map, <- Hlen. apply length_normal_jokers. }
  assert (Hnj : (length (jokers dealer) <= 2)%nat) by (rewrite length_jokers_deck; done).
  destruct (fh_test (map card_rank (normal dealer)) (Z.of_nat (length (jokers dealer)))) eqn:Hfh.
  - (* a full house throws nothing away *)
    assert (Hnone : dealer_discard_strategy dealer = []).
    { apply dealer_discard_none; [done|]. intros c Hc.
      apply (fh_all_paired _ (length (jokers dealer))); try done.
      by apply list_elem_of_In, in_map, list_elem_of_In. }
    unfold dealer_turn in Hturn. rewrite Hnone in Hturn. injection Hturn as <- <-.
    unfold evaluate. rewrite Hranks. eexists; split; [reflexivity|lia].
  - destruct (ranks_of_deck dealer' Hall') as (ranks' & Hranks' & Hrange').
    pose proof (ranks_of_map _ _ Hranks') as Hm.
    unfold evaluate. rewrite Hranks'. eexists; split; [reflexivity|]. simpl.
    pose proof (dealer_turn_keeps_jokers dealer deck dealer' deck' Hturn) as Hjk.
    apply classify_keep; try done.
    + intros r. rewrite Hm. apply (dealer_turn_keeps_pairs dealer deck dealer' deck' Hall Hturn).
    + rewrite (length_jokers_deck dealer') in * by done. lia.
    + rewrite Hm, length_map. etrans; [apply length_normal_jokers|]. by rewrite Hlen'.
Qed.

Lemma dealer_turn_keeps_made_hands_witness :
  exists p', evaluate [("5", Some HEART); ("5", Some DIAMOND); ("9", Some SPADE);
                       ("9", Some CLUB); ("K", Some SPADE)] = Ok p' /\ 2 <= p'.1.
Proof.
  apply (dealer_turn_keeps_made_hands
           [("5", Some HEART); ("5", Some DIAMOND); ("9", Some SPADE); ("9", Some CLUB);
            ("2", Some DIAMOND)] [("3", Some HEART); ("K", Some SPADE)] _ [("3", Some HEART)]
           (2, [PInt 9])); [decide_by_eval|reflexivity|vm_compute; reflexivity
                           |vm_compute; reflexivity|simpl; set_solver].
Defined.

(** The restriction is needed: a king-high heart flush keeps only its
    king, and the redraw can leave a high card. *)
Example dealer_breaks_flush :
  dealer_turn [("2", Some HEART); ("4", Some HEART); ("6", Some HEART); ("8", Some HEART);
               ("K", Some HEART)]
              [("3", Some CLUB); ("7", Some DIAMOND); ("J", Some SPADE); ("Q", Some CLUB)] =
    Ok ([("K", Some HEART); ("Q", Some CLUB); ("J", Some SPADE); ("7", Some DIAMOND);
         ("3", Some CLUB)], []) /\
  evaluate [("2", Some HEART); ("4", Some HEART); ("6", Some HEART); ("8", Some HEART);
            ("K", Some HEART)] = Ok (5, [PStr "K"; PStr "8"; PStr "6"; PStr "4"; PStr "2"]) /\
  evaluate [("K", Some HEART); ("Q", Some CLUB); ("J", Some SPADE); ("7", Some DIAMOND);
            ("3", Some CLUB)] = Ok (0, [PInt 13]).
Proof. split_and!; vm_compute; reflexivity. Qed.

End Dealer.
