(* ===== verification/Blackjack.v ===== *)
(** * The blackjack game of [src/GAMBLING!! (1)/Modules/BBlackjack.py]

    The nested functions of [game()]: [calc_score] (lines 102-117), the coin
    breakdown of [place_bet] (lines 47-64), the player's hit-or-stay loop
    (lines 198-207), the dealer's draw loop (lines 211-216), and one round
    of the main loop with its betting and settlement (lines 177-236) as a
    step on the state [player_coins], [last_bet], [was_push].  [random.choice] is an input: a stream of drawn
    cards, and the dealer's target [random.randint(17, 19)] a parameter. *)

From S2P Require Import Prelude PyBuiltins Cards.
Local Open Scope Z_scope.

Module Blackjack.

(** Line 30. *)
Definition cards : list string :=
  ["2"; "3"; "4"; "5"; "6"; "7"; "8"; "9"; "10"; "J"; "Q"; "K"; "A"].

(** A drawn card [(face, suit)] (line 99). *)
Definition bj_card : Type := string * suit.

(** [str.isdigit()] on ASCII strings: non-empty, every character a digit. *)
Fixpoint all_digits (s : string) : bool :=
  match s with
  | EmptyString => true
  | String c s' => match digit_value c with Some _ => all_digits s' | None => false end
  end.
Definition py_isdigit (s : string) : bool :=
  match s with EmptyString => false | _ => all_digits s end.

(** One iteration of the first loop of [calc_score] (lines 105-111):
    [(score, aces)] after the card's face. *)
Definition score_face (acc : Z * Z) (face : string) : res (Z * Z) :=
  let '(score, aces) := acc in
  if py_isdigit face then let! v := py_int face in Ok (score + v, aces)
  else if bool_decide (face ∈ ["J"; "Q"; "K"]) then Ok (score + 10, aces)
  else Ok (score, aces + 1).

Fixpoint score_faces (acc : Z * Z) (faces : list string) : res (Z * Z) :=
  match faces with
  | [] => Ok acc
  | f :: fs => let! acc' := score_face acc f in score_faces acc' fs
  end.

(** Lines 112-116: each ace counts 11 when that keeps the running score at
    most 21, and 1 otherwise. *)
Fixpoint add_aces (n : nat) (score : Z) : Z :=
  match n with
  | O => score
  | S n' => add_aces n' (if score + 11 <=? 21 then score + 11 else score + 1)
  end.

(** Lines 102-117. *)
Definition calc_score (hand : list bj_card) : res Z :=
  let! '(score, aces) := score_faces (0, 0) (map fst hand) in
  Ok (add_aces (Z.to_nat aces) score).

(** Lines 211-216: [while calc_score(dealer_hand) < dealer_target: draw],
    the [k]-th draw being [draw k]; [fuel] bounds the iterations. *)
Fixpoint dealer_loop (fuel : nat) (target : Z) (draw : nat -> bj_card) (k : nat)
    (hand : list bj_card) : res (option (list bj_card * nat)) :=
  match fuel with
  | O => Ok None
  | S fuel' =>
      let! s := calc_score hand in
      if s <? target then dealer_loop fuel' target draw (S k) (hand ++ [draw k])
      else Ok (Some (hand, k))
  end.

(** Lines 198-207: the player's loop.  [cmd j] is the [j]-th line typed
    at the prompt; [.strip().lower()] of it equal to ["s"] stays, anything
    else hits; a hit that busts ends the loop.  Returns the hand and the next
    command and draw positions. *)
Fixpoint player_loop (fuel : nat) (cmd : nat -> string) (j : nat) (draw : nat -> bj_card)
    (k : nat) (hand : list bj_card) : res (option (list bj_card * nat * nat)) :=
  match fuel with
  | O => Ok None
  | S fuel' =>
      let! _ := calc_score hand in
      if bool_decide (py_lower (py_strip (cmd j)) = "s") then Ok (Some (hand, S j, k))
      else
        let hand' := hand ++ [draw k] in
        let! s := calc_score hand' in
        if 21 <? s then Ok (Some (hand', S j, S k))
        else player_loop fuel' cmd (S j) draw (S k) hand'
  end.

(** The two coins of line 34, [⛁] worth 5 and [⛀] worth 1, in the
    dictionary's insertion order. *)
Inductive coin := BigCoin | SmallCoin.

#[export] Instance coin_eq_dec : EqDecision coin.
Proof. solve_decision. Defined.

Definition coins : list (coin * Z) := [(BigCoin, 5); (SmallCoin, 1)].

(** [sorted(coins.items(), key=lambda x: -x[1])]: stable insertion by
    decreasing value. *)
Fixpoint insert_by_value (x : coin * Z) (l : list (coin * Z)) : list (coin * Z) :=
  match l with
  | [] => [x]
  | y :: l' => if y.2 <? x.2 then x :: l else y :: insert_by_value x l'
  end.
Definition sort_by_value (l : list (coin * Z)) : list (coin * Z) :=
  fold_right insert_by_value [] (rev l).

(** Lines 58-63: for each coin, [count = remaining // value], that many
    coins, [remaining -= count * value]. *)
Fixpoint break_bet (items : list (coin * Z)) (remaining : Z) : list coin :=
  match items with
  | [] => []
  | (c, value) :: items' =>
      let count := remaining / value in
      repeat c (Z.to_nat count) ++ break_bet items' (remaining - count * value)
  end.

Definition coin_value (c : coin) : Z :=
  match c with BigCoin => 5 | SmallCoin => 1 end.

(** Lines 56-64 once the loop of lines 49-55 has accepted [bet] (an int
    with [1 <= bet <= player_coins]): the coins left and the coin list. *)
Definition place_bet (player_coins bet : Z) : option (Z * list coin) :=
  if (1 <=? bet) && (bet <=? player_coins)
  then Some (player_coins - bet, break_bet (sort_by_value coins) bet)
  else None.

(** ** One round of the main loop *)

(** The variables of [game()] that live across rounds (lines 35, 146-148). *)
Record bj_state := mk_bj {
  player_coins : Z;
  last_bet : option Z;
  was_push : bool
}.

(** Lines 188-194: the round's stake.  Without a pending push, [place_bet]
    deducts the bet and [last_bet = bet_amount * 2]; after a push the stake
    is [last_bet // 2] and nothing is deducted ([None // 2] raises
    [TypeError]). *)
Definition stake (st : bj_state) (bet : Z) : res (option (Z * bj_state)) :=
  if negb (was_push st) then
    match place_bet (player_coins st) bet with
    | Some (coins', _) => Ok (Some (bet, mk_bj coins' (Some (bet * 2)) false))
    | None => Ok None
    end
  else
    match last_bet st with
    | Some lb => Ok (Some (lb / 2, mk_bj (player_coins st) (Some lb) false))
    | None => Err TypeError
    end.

(** Lines 218-234, with [ps] and [ds] the final scores. *)
Definition settle_round (bet_amount ps ds : Z) (st : bj_state) : bj_state :=
  if 21 <? ps then mk_bj (player_coins st) None (was_push st)
  else if (21 <? ds) || (ds <? ps) then
    mk_bj (player_coins st + bet_amount * 2) None (was_push st)
  else if ps =? ds then mk_bj (player_coins st + bet_amount) (last_bet st) true
  else mk_bj (player_coins st) None (was_push st).

(** A round: stake, play (giving the final scores), settle.  [None] is an
    input the betting loop rejects (it asks again). *)
Definition bj_round (st : bj_state) (bet ps ds : Z) : res (option bj_state) :=
  let! o := stake st bet in
  match o with
  | Some (bet_amount, st1) => Ok (Some (settle_round bet_amount ps ds st1))
  | None => Ok None
  end.

(** The outcome of one pass of the main loop: the bet was refused (the
    prompt repeats), the round was played, or a loop ran out of fuel (the
    termination theorems show it does not happen). *)
Inductive round_result := Rejected | Played (st : bj_state) | OutOfFuel.

(** Lines 177-236: deal (player, dealer, player, dealer), stake, the
    player's loop, the dealer's loop when the player has not busted, and
    the settlement; [draw i] is the [i]-th [draw_random_card]. *)
Definition bj_full_round (st : bj_state) (bet target : Z) (cmd : nat -> string)
    (draw : nat -> bj_card) : res round_result :=
  let player0 := [draw 0%nat; draw 2%nat] in
  let dealer0 := [draw 1%nat; draw 3%nat] in
  let! o := stake st bet in
  match o with
  | None => Ok Rejected
  | Some (bet_amount, st1) =>
      let! pl := player_loop 22 cmd 0 draw 4 player0 in
      match pl with
      | None => Ok OutOfFuel
      | Some (player, _, k) =>
          let! ps0 := calc_score player in
          let! dl := if ps0 <=? 21
                     then dealer_loop (S (Z.to_nat target)) target draw k dealer0
                     else Ok (Some (dealer0, k)) in
          match dl with
          | None => Ok OutOfFuel
          | Some (dealer, _) =>
              let! ps := calc_score player in
              let! ds := calc_score dealer in
              Ok (Played (settle_round bet_amount ps ds st1))
          end
      end
  end.

(** ** Scoring *)

(** The value the first loop gives a face ([A] is counted later). *)
Definition face_points (f : string) : Z :=
  if bool_decide (f ∈ ["J"; "Q"; "K"]) then 10
  else match py_int f with Ok v => v | Err _ => 0 end.

Definition is_ace (f : string) : bool := bool_decide (f = "A").

(** Sum of the non-ace faces and number of aces of a list of faces. *)
Definition base_points (fs : list string) : Z :=
  foldr (fun f acc => (if is_ace f then 0 else face_points f) + acc) 0 fs.
Definition ace_count (fs : list string) : Z :=
  foldr (fun f acc => (if is_ace f then 1 else 0) + acc) 0 fs.

Lemma base_points_cons f fs :
  base_points (f :: fs) = (if is_ace f then 0 else face_points f) + base_points fs.
Proof. reflexivity. Qed.

Lemma ace_count_cons f fs : ace_count (f :: fs) = (if is_ace f then 1 else 0) + ace_count fs.
Proof. reflexivity. Qed.

Lemma score_face_shift sc ac f :
  score_face (sc, ac) f = let! '(x, y) := score_face (0, 0) f in Ok (sc + x, ac + y).
Proof.
  unfold score_face. destruct (py_isdigit f); [destruct (py_int f)|]; simpl;
    [do 2 f_equal; lia|done|].
  case_bool_decide; simpl; do 2 f_equal; lia.
Qed.

Lemma score_face_table :
  Forall (fun f => score_face (0, 0) f =
                   Ok (if is_ace f then 0 else face_points f, if is_ace f then 1 else 0)) cards.
Proof. repeat constructor. Qed.

Lemma score_face_cards acc f :
  f ∈ cards ->
  score_face acc f =
  Ok (acc.1 + (if is_ace f then 0 else face_points f), acc.2 + if is_ace f then 1 else 0).
Proof.
  destruct acc as [sc ac]. intros Hf. rewrite score_face_shift.
  rewrite (proj1 (Forall_forall _ _) score_face_table f Hf). reflexivity.
Qed.

Lemma score_faces_cards acc fs :
  Forall (fun f => f ∈ cards) fs ->
  score_faces acc fs = Ok (acc.1 + base_points fs, acc.2 + ace_count fs).
Proof.
  revert acc; induction fs as [|f fs IH]; intros [sc ac] Hall; cbn [score_faces].
  - cbn. do 2 f_equal; lia.
  - apply Forall_cons in Hall as [Hf Hall].
    rewrite score_face_cards by done. cbn [res_bind]. rewrite IH by done.
    rewrite base_points_cons, ace_count_cons. cbn [fst snd]. do 2 f_equal; lia.
Qed.

(** The ace loop in closed form: from a non-negative score the first ace
    is 11 when [score + 11 <= 21], every other ace is 1. *)
Lemma add_aces_closed n s :
  0 <= s ->
  add_aces n s = s + Z.of_nat n + (if (0 <? Z.of_nat n) && (s + 11 <=? 21) then 10 else 0).
Proof.
  revert s; induction n as [|n IH]; intros s Hs; simpl; [lia|].
  destruct (Z.leb_spec (s + 11) 21).
  - rewrite IH by lia. destruct (Z.leb_spec (s + 11 + 11) 21); [lia|].
    destruct (0 <? Z.of_nat n); simpl; lia.
  - rewrite IH by lia. destruct (Z.leb_spec (s + 1 + 11) 21); [lia|].
    destruct (0 <? Z.of_nat n); simpl; lia.
Qed.

Lemma ace_count_nonneg fs : 0 <= ace_count fs.
Proof. induction fs as [|f fs IH]; simpl; [lia|]. destruct (is_ace f); lia. Qed.

Lemma face_points_table :
  Forall (fun f => is_ace f = false -> 2 <= face_points f) cards.
Proof. repeat constructor; cbv -[Z.le]; intros; first [discriminate | lia]. Qed.

Lemma base_points_cards fs :
  Forall (fun f => f ∈ cards) fs ->
  2 * (Z.of_nat (length fs) - ace_count fs) <= base_points fs.
Proof.
  induction 1 as [|f fs Hf Hall IH]; [simpl; lia|].
  rewrite base_points_cons, ace_count_cons, length_cons.
  assert (Hp : is_ace f = false -> 2 <= face_points f).
  { exact (proj1 (Forall_forall _ _) face_points_table f Hf). }
  destruct (is_ace f); [lia|]. specialize (Hp eq_refl). lia.
Qed.

Lemma ace_count_le_length fs : ace_count fs <= Z.of_nat (length fs).
Proof.
  induction fs as [|f fs IH]; [simpl; lia|].
  rewrite ace_count_cons, length_cons. destruct (is_ace f); lia.
Qed.

(** A hand whose faces are those of [cards]. *)
Definition valid_hand (hand : list bj_card) : Prop := Forall (fun c => c.1 ∈ cards) hand.

Lemma valid_hand_faces hand : valid_hand hand -> Forall (fun f => f ∈ cards) (map fst hand).
Proof. intros H. apply Forall_map. exact H. Qed.

Lemma calc_score_closed_form hand :
  valid_hand hand ->
  calc_score hand =
  Ok (base_points (map fst hand) + ace_count (map fst hand) +
      if (0 <? ace_count (map fst hand)) && (base_points (map fst hand) + 11 <=? 21)
      then 10 else 0).
Proof.
  intros Hv. pose proof (valid_hand_faces hand Hv) as Hf.
  unfold calc_score. rewrite score_faces_cards by done. cbn [res_bind fst snd].
  pose proof (base_points_cards _ Hf). pose proof (ace_count_le_length (map fst hand)).
  pose proof (ace_count_nonneg (map fst hand)).
  rewrite add_aces_closed by lia. rewrite Z2Nat.id by lia.
  f_equal; simpl; rewrite ?Z.add_0_l; lia.
Qed.

(** The blackjack value of a hand: every ace 1, plus 10 for one ace when
    that does not exceed 21. *)
Definition best_score (hand : list bj_card) : Z :=
  let hard := base_points (map fst hand) + ace_count (map fst hand) in
  hard + if (0 <? ace_count (map fst hand)) && (hard + 10 <=? 21) then 10 else 0.

(** C15: on hands of real faces [calc_score] returns the blackjack value
    when the hand holds at most one ace; with more aces it counts the
    first ace as 11 whenever the non-ace cards leave room for it, even if
    the other aces then push the total past 21. *)
Theorem calc_score_spec hand :
  valid_hand hand ->
  calc_score hand =
    Ok (base_points (map fst hand) + ace_count (map fst hand) +
        if (0 <? ace_count (map fst hand)) && (base_points (map fst hand) + 11 <=? 21)
        then 10 else 0) /\
  (ace_count (map fst hand) <= 1 -> calc_score hand = Ok (best_score hand)).
Proof.
  intros Hv. rewrite calc_score_closed_form by done. split; [done|].
  intros H1. unfold best_score. f_equal.
  pose proof (ace_count_nonneg (map fst hand)).
  destruct (Z.eq_dec (ace_count (map fst hand)) 0) as [->|Hne].
  - simpl. lia.
  - replace (ace_count (map fst hand)) with 1 by lia. simpl.
    destruct (Z.leb_spec (base_points (map fst hand) + 11) 21),
             (Z.leb_spec (base_points (map fst hand) + 1 + 10) 21); lia.
Qed.

Lemma calc_score_spec_witness :
  valid_hand [("A", HEART); ("9", SPADE)] /\
  (calc_score [("A", HEART); ("9", SPADE)] =
     Ok (base_points (map fst [("A", HEART); ("9", SPADE)]) +
         ace_count (map fst [("A", HEART); ("9", SPADE)]) +
         if (0 <? ace_count (map fst [("A", HEART); ("9", SPADE)])) &&
            (base_points (map fst [("A", HEART); ("9", SPADE)]) + 11 <=? 21)
         then 10 else 0) /\
   (ace_count (map fst [("A", HEART); ("9", SPADE)]) <= 1 ->
    calc_score [("A", HEART); ("9", SPADE)] = Ok (best_score [("A", HEART); ("9", SPADE)]))).
Proof.
  assert (H : valid_hand [("A", HEART); ("9", SPADE)]) by (unfold valid_hand; decide_by_eval).
  split; [exact H|]. exact (calc_score_spec _ H).
Defined.

(** C16: when [calc_score] differs from the blackjack value: exactly when
    the non-ace cards are worth at most 10 (so the ace loop counts the
    first ace as 11) and the non-ace cards with every ace as 1 are worth
    more than 11 (so the blackjack value counts every ace as 1), which
    takes two aces or more.  If that hand's value is at most 21, the
    player is told "You busted!" with a hand that has not busted. *)
Theorem calc_score_false_bust hand :
  valid_hand hand ->
  (calc_score hand <> Ok (best_score hand) <->
   base_points (map fst hand) <= 10 /\
   11 < base_points (map fst hand) + ace_count (map fst hand)) /\
  (base_points (map fst hand) <= 10 ->
   11 < base_points (map fst hand) + ace_count (map fst hand) <= 21 ->
   exists s, calc_score hand = Ok s /\ 21 < s /\ best_score hand <= 21).
Proof.
  intros Hv. rewrite calc_score_closed_form by done. unfold best_score.
  pose proof (ace_count_nonneg (map fst hand)).
  set (b := base_points (map fst hand)). set (a := ace_count (map fst hand)).
  split.
  - split.
    + intros Hne. destruct (Z.leb_spec b 10), (Z.leb_spec (b + a) 11); [|lia|..];
        destruct (Z.ltb_spec 0 a), (Z.leb_spec (b + 11) 21), (Z.leb_spec (b + a + 10) 21);
        simpl in *; try lia; exfalso; apply Hne; f_equal; lia.
    + intros [Hb Hba] [= Heq]. destruct (Z.ltb_spec 0 a), (Z.leb_spec (b + 11) 21),
        (Z.leb_spec (b + a + 10) 21); simpl in *; lia.
  - intros Hb Hba. eexists; split; [reflexivity|].
    destruct (Z.ltb_spec 0 a), (Z.leb_spec (b + 11) 21), (Z.leb_spec (b + a + 10) 21);
      simpl; lia.
Qed.

Lemma calc_score_false_bust_witness :
  valid_hand [("10", HEART); ("A", SPADE); ("A", CLUB)] /\
  ((calc_score [("10", HEART); ("A", SPADE); ("A", CLUB)] <>
      Ok (best_score [("10", HEART); ("A", SPADE); ("A", CLUB)]) <->
    base_points (map fst [("10", HEART); ("A", SPADE); ("A", CLUB)]) <= 10 /\
    11 < base_points (map fst [("10", HEART); ("A", SPADE); ("A", CLUB)]) +
         ace_count (map fst [("10", HEART); ("A", SPADE); ("A", CLUB)])) /\
   (base_points (map fst [("10", HEART); ("A", SPADE); ("A", CLUB)]) <= 10 ->
    11 < base_points (map fst [("10", HEART); ("A", SPADE); ("A", CLUB)]) +
         ace_count (map fst [("10", HEART); ("A", SPADE); ("A", CLUB)]) <= 21 ->
    exists s, calc_score [("10", HEART); ("A", SPADE); ("A", CLUB)] = Ok s /\ 21 < s /\
              best_score [("10", HEART); ("A", SPADE); ("A", CLUB)] <= 21)).
Proof.
  assert (H : valid_hand [("10", HEART); ("A", SPADE); ("A", CLUB)])
    by (unfold valid_hand; decide_by_eval).
  split; [exact H|]. exact (calc_score_false_bust _ H).
Defined.

Lemma calc_score_ge_length hand s :
  valid_hand hand -> calc_score hand = Ok s -> Z.of_nat (length hand) <= s.
Proof.
  intros Hv. rewrite calc_score_closed_form by done. intros [= <-].
  pose proof (base_points_cards _ (valid_hand_faces hand Hv)).
  pose proof (ace_count_le_length (map fst hand)).
  assert (Hl : length (map fst hand) = length hand) by apply length_map.
  destruct (_ && _); lia.
Qed.

Lemma valid_hand_snoc hand (draw : nat -> bj_card) k :
  valid_hand hand -> (forall i, (draw i).1 ∈ cards) -> valid_hand (hand ++ [draw k]).
Proof. intros Hv Hd. apply Forall_app. split; [done|]. constructor; [apply Hd|constructor]. Qed.

Lemma calc_score_total hand : valid_hand hand -> exists s, calc_score hand = Ok s.
Proof. intros Hv. rewrite calc_score_closed_form by done. eauto. Qed.

(** ** The dealer's loop *)

(** A stream of draws that always yields the same card (for examples). *)
Definition const_draw (c : bj_card) : nat -> bj_card := fun _ => c.

Lemma dealer_loop_S f target draw k hand :
  dealer_loop (S f) target draw k hand =
  let! s := calc_score hand in
  if s <? target then dealer_loop f target draw (S k) (hand ++ [draw k])
  else Ok (Some (hand, k)).
Proof. reflexivity. Qed.

Lemma dealer_loop_fuel (f : nat) target (draw : nat -> bj_card) k hand :
  valid_hand hand -> (forall i, (draw i).1 ∈ cards) ->
  target <= Z.of_nat (length hand) + Z.of_nat f ->
  exists n s, dealer_loop (S f) target draw k hand = Ok (Some (hand ++ map draw (seq k n), k + n)%nat) /\
              calc_score (hand ++ map draw (seq k n)) = Ok s /\ target <= s.
Proof.
  revert hand k; induction f as [|f IH]; intros hand k Hv Hd Ht;
    destruct (calc_score_total hand Hv) as [s0 Hs0];
    pose proof (calc_score_ge_length hand s0 Hv Hs0); rewrite dealer_loop_S, Hs0; cbn [res_bind].
  - destruct (Z.ltb_spec s0 target); [lia|].
    exists 0%nat, s0. rewrite app_nil_r, Nat.add_0_r. auto.
  - destruct (Z.ltb_spec s0 target).
    + destruct (IH (hand ++ [draw k]) (S k)) as (n & s & Hl & Hs & Hst).
      * by apply valid_hand_snoc.
      * done.
      * rewrite length_app. simpl. lia.
      * exists (S n), s. cbn [seq map].
        replace (hand ++ draw k :: map draw (seq (S k) n))
          with ((hand ++ [draw k]) ++ map draw (seq (S k) n))
          by (rewrite <- app_assoc; reflexivity).
        rewrite Hl. split; [do 3 f_equal; lia|]. auto.
    + exists 0%nat, s0. rewrite app_nil_r, Nat.add_0_r. auto.
Qed.

(** C17: the dealer's loop [while calc_score(dealer_hand) < dealer_target]
    terminates: for any target (the code draws one in 17..19) and any
    sequence of drawn cards it stops within [target + 1] iterations, with
    the starting hand extended by consecutive draws and a score at least
    the target, because every card adds at least one point. *)
Theorem dealer_loop_terminates target (draw : nat -> bj_card) k hand :
  valid_hand hand -> (forall i, (draw i).1 ∈ cards) ->
  exists n s,
    dealer_loop (S (Z.to_nat target)) target draw k hand =
      Ok (Some (hand ++ map draw (seq k n), k + n)%nat) /\
    calc_score (hand ++ map draw (seq k n)) = Ok s /\ target <= s.
Proof.
  intros Hv Hd. apply dealer_loop_fuel; [done|done|]. lia.
Qed.

Lemma dealer_loop_terminates_witness :
  valid_hand [("6", HEART); ("5", CLUB)] /\
  (forall i : nat, (const_draw ("2", SPADE) i).1 ∈ cards) /\
  exists n s,
    dealer_loop (S (Z.to_nat 19)) 19 (const_draw ("2", SPADE)) 0 [("6", HEART); ("5", CLUB)] =
      Ok (Some ([("6", HEART); ("5", CLUB)] ++ map (const_draw ("2", SPADE)) (seq 0 n), 0 + n)%nat) /\
    calc_score ([("6", HEART); ("5", CLUB)] ++ map (const_draw ("2", SPADE)) (seq 0 n)) = Ok s /\
    19 <= s.
Proof.
  assert (H1 : valid_hand [("6", HEART); ("5", CLUB)]) by (unfold valid_hand; decide_by_eval).
  assert (H2 : forall i : nat, (const_draw ("2", SPADE) i).1 ∈ cards)
    by (intros i; unfold const_draw; decide_by_eval).
  split; [exact H1|]. split; [exact H2|].
  exact (dealer_loop_terminates 19 (const_draw ("2", SPADE)) 0 _ H1 H2).
Defined.

(** ** Betting *)

Definition coins_total (l : list coin) : Z := foldr (fun c acc => coin_value c + acc) 0 l.

Lemma coins_total_app l1 l2 : coins_total (l1 ++ l2) = coins_total l1 + coins_total l2.
Proof. induction l1 as [|c l1 IH]; simpl; [done|]. rewrite IH. lia. Qed.

Lemma coins_total_repeat c n : coins_total (repeat c n) = Z.of_nat n * coin_value c.
Proof. induction n as [|n IH]; simpl; [done|]. rewrite IH. lia. Qed.

(** C18: [place_bet] accepts exactly the bets in [1..player_coins],
    deducts the bet, and pays it as [bet // 5] five-coins followed by
    [bet % 5] one-coins, whose values add up to the bet. *)
Theorem place_bet_spec c b c' l :
  place_bet c b = Some (c', l) <->
  1 <= b <= c /\ c' = c - b /\
  l = repeat BigCoin (Z.to_nat (b / 5)) ++ repeat SmallCoin (Z.to_nat (b mod 5)) /\
  coins_total l = b.
Proof.
  unfold place_bet. change (sort_by_value coins) with [(BigCoin, 5); (SmallCoin, 1)].
  cbn [break_bet]. rewrite Z.div_1_r, app_nil_r.
  replace (b - b / 5 * 5) with (b mod 5) by (rewrite Z.mod_eq by lia; lia).
  destruct (Z.leb_spec 1 b), (Z.leb_spec b c); simpl; split;
    try (intros [=]; fail); try (intros (? & ?); lia).
  intros [= <- <-]. split_and!; try done; try lia.
  rewrite coins_total_app, !coins_total_repeat, !Z2Nat.id by (apply Z.div_pos || apply Z.mod_pos_bound; lia).
  simpl. pose proof (Z.div_mod b 5). lia.
intros (_ & -> & -> & _). reflexivity.
Qed.

(** ** Rounds *)

(** The coins a settlement pays on top of the staked state. *)
Definition payout (bet_amount ps ds : Z) : Z :=
  if 21 <? ps then 0
  else if (21 <? ds) || (ds <? ps) then bet_amount * 2
  else if ps =? ds then bet_amount
  else 0.

Lemma settle_round_coins bet_amount ps ds st :
  player_coins (settle_round bet_amount ps ds st) = player_coins st + payout bet_amount ps ds.
Proof.
  unfold settle_round, payout.
  destruct (21 <? ps); [simpl; lia|]. destruct (_ || _); [done|].
  destruct (ps =? ds); simpl; lia.
Qed.

(** C19: a round played after a push stakes [last_bet // 2] without taking
    it from [player_coins]: whatever the bet typed and whatever the
    outcome, the player's coins do not decrease, and a win pays twice the
    stake on top of coins that never paid it. *)
Theorem round_after_push_is_free st b bet ps ds :
  was_push st = true -> last_bet st = Some (2 * b) ->
  exists st', bj_round st bet ps ds = Ok (Some st') /\
              player_coins st' = player_coins st + payout b ps ds.
Proof.
  intros Hp Hl. unfold bj_round, stake. rewrite Hp, Hl. simpl.
  eexists. split; [reflexivity|]. rewrite settle_round_coins. simpl.
  replace (2 * b / 2) with b by (rewrite Z.mul_comm, Z.div_mul; lia). done.
Qed.

Lemma round_after_push_is_free_witness :
  was_push (mk_bj 10 (Some (2 * 3)) true) = true /\
  last_bet (mk_bj 10 (Some (2 * 3)) true) = Some (2 * 3) /\
  exists st', bj_round (mk_bj 10 (Some (2 * 3)) true) 7 22 18 = Ok (Some st') /\
              player_coins st' = player_coins (mk_bj 10 (Some (2 * 3)) true) + payout 3 22 18.
Proof.
  assert (H1 : was_push (mk_bj 10 (Some (2 * 3)) true) = true) by reflexivity.
  assert (H2 : last_bet (mk_bj 10 (Some (2 * 3)) true) = Some (2 * 3)) by reflexivity.
  split; [exact H1|]. split; [exact H2|].
  exact (round_after_push_is_free _ 3 7 22 18 H1 H2).
Defined.

(** The consequence over two rounds: from [c] coins, a bet [b] that
    pushes and is then lost leaves the player with [c] coins (a fair game
    leaves [c - b]); if the second round is won the player ends with
    [c + 2b] (a fair game gives [c + b]). *)
Theorem push_then_second_round c b :
  1 <= b <= c ->
  exists st1,
    bj_round (mk_bj c None false) b 20 20 = Ok (Some st1) /\
    (exists st2, bj_round st1 b 22 18 = Ok (Some st2) /\ player_coins st2 = c) /\
    (exists st2, bj_round st1 b 20 18 = Ok (Some st2) /\ player_coins st2 = c + 2 * b).
Proof.
  intros Hb. unfold bj_round, stake, place_bet. simpl.
  destruct (Z.leb_spec 1 b), (Z.leb_spec b c); try lia. simpl.
  eexists. split; [reflexivity|]. unfold settle_round. simpl.
  replace (b * 2 / 2) with b by (rewrite Z.div_mul; lia).
  split; eexists; (split; [reflexivity|]); simpl; lia.
Qed.

Lemma push_then_second_round_witness :
  1 <= 3 <= 10 /\
  exists st1,
    bj_round (mk_bj 10 None false) 3 20 20 = Ok (Some st1) /\
    (exists st2, bj_round st1 3 22 18 = Ok (Some st2) /\ player_coins st2 = 10) /\
    (exists st2, bj_round st1 3 20 18 = Ok (Some st2) /\ player_coins st2 = 10 + 2 * 3).
Proof.
  assert (H : 1 <= 3 <= 10) by lia. split; [exact H|]. exact (push_then_second_round 10 3 H).
Defined.

(** The states the main loop reaches from [initial] coins, one round at a
    time. *)
Inductive bj_reachable (c0 : Z) : bj_state -> Prop :=
| bj_init : bj_reachable c0 (mk_bj c0 None false)
| bj_step st bet ps ds st' :
    bj_reachable c0 st -> bj_round st bet ps ds = Ok (Some st') -> bj_reachable c0 st'.

Definition bj_inv (st : bj_state) : Prop :=
  0 <= player_coins st /\
  (was_push st = true -> exists b, 1 <= b /\ last_bet st = Some (2 * b)).

Lemma bj_round_inv st bet ps ds st' :
  bj_inv st -> bj_round st bet ps ds = Ok (Some st') -> bj_inv st'.
Proof.
  intros [Hc Hp]. unfold bj_round, stake.
  destruct (was_push st) eqn:Hw; simpl.
  - destruct (Hp eq_refl) as (b & Hb & Hl). rewrite Hl. simpl. intros [= <-].
    replace (2 * b / 2) with b by (rewrite Z.mul_comm, Z.div_mul; lia).
    unfold settle_round, bj_inv.
    repeat match goal with |- context [if ?c then _ else _] => destruct c end; simpl;
      (split; [lia|]); intros; try discriminate; eauto.
  - unfold place_bet. destruct (Z.leb_spec 1 bet), (Z.leb_spec bet (player_coins st));
      simpl; try discriminate. intros [= <-].
    unfold settle_round, bj_inv.
    repeat match goal with |- context [if ?c then _ else _] => destruct c end; simpl;
      (split; [lia|]); intros; try discriminate.
    exists bet. split; [lia|]. f_equal. lia.
Qed.

Lemma bj_inv_no_error st bet ps ds : bj_inv st -> exists o, bj_round st bet ps ds = Ok o.
Proof.
  intros [_ Hp]. unfold bj_round, stake. destruct (was_push st); simpl.
  - destruct (Hp eq_refl) as (b & _ & ->). simpl. eauto.
  - destruct (place_bet _ _) as [[]|]; simpl; eauto.
Qed.

(** C21: from a non-negative starting purse, every state of the main loop
    has non-negative coins, and a pending push always has a stored
    [last_bet] of twice a positive bet, so [last_bet // 2] never meets
    [None] (no [TypeError]). *)
Theorem bj_reachable_inv c0 st :
  0 <= c0 -> bj_reachable c0 st ->
  bj_inv st /\ forall bet ps ds, exists o, bj_round st bet ps ds = Ok o.
Proof.
  intros Hc0 Hr. assert (Hi : bj_inv st).
  { induction Hr as [|st bet ps ds st' Hr IH Hs].
    - split; [done|]. discriminate.
    - by eapply bj_round_inv. }
  split; [done|]. intros bet ps ds. by apply bj_inv_no_error.
Qed.

Lemma bj_reachable_inv_witness :
  0 <= 10 /\ bj_reachable 10 (mk_bj 10 None false) /\
  (bj_inv (mk_bj 10 None false) /\
   forall bet ps ds, exists o, bj_round (mk_bj 10 None false) bet ps ds = Ok o).
Proof.
  assert (H1 : 0 <= 10) by lia. assert (H2 : bj_reachable 10 (mk_bj 10 None false)) by constructor.
  split; [exact H1|]. split; [exact H2|]. exact (bj_reachable_inv 10 _ H1 H2).
Defined.

(** ** The player's loop *)

Lemma player_loop_S f cmd j draw k hand :
  player_loop (S f) cmd j draw k hand =
  let! _ := calc_score hand in
  if bool_decide (py_lower (py_strip (cmd j)) = "s") then Ok (Some (hand, S j, k))
  else
    let hand' := hand ++ [draw k] in
    let! s := calc_score hand' in
    if 21 <? s then Ok (Some (hand', S j, S k))
    else player_loop f cmd (S j) draw (S k) hand'.
Proof. reflexivity. Qed.

Lemma player_loop_fuel (f : nat) cmd j (draw : nat -> bj_card) k hand :
  valid_hand hand -> (forall i, (draw i).1 ∈ cards) ->
  (21 <= length hand + f)%nat ->
  exists hand' j' k', player_loop (S f) cmd j draw k hand = Ok (Some (hand', j', k')) /\
                     valid_hand hand'.
Proof.
  revert j k hand; induction f as [|f IH]; intros j k hand Hv Hd Hl;
    destruct (calc_score_total hand Hv) as [s0 Hs0]; rewrite player_loop_S, Hs0;
    cbn [res_bind]; (case_bool_decide; [eauto 6|]);
    (assert (Hv' : valid_hand (hand ++ [draw k])) by (by apply valid_hand_snoc));
    destruct (calc_score_total _ Hv') as [s1 Hs1]; rewrite Hs1; cbn [res_bind];
    pose proof (calc_score_ge_length _ _ Hv' Hs1) as Hge; rewrite length_app in Hge; simpl in Hge.
  - destruct (Z.ltb_spec 21 s1); [eauto 6|lia].
  - destruct (Z.ltb_spec 21 s1); [eauto 6|].
    apply IH; [done|done|]. rewrite length_app. simpl. lia.
Qed.

(** C22: the player's hit-or-stay loop ends after at most 22 prompts
    whatever the player types and whatever cards are drawn: every hit adds
    a card worth at least one point, so the 22nd card busts. *)
Theorem player_loop_terminates cmd j (draw : nat -> bj_card) k hand :
  valid_hand hand -> (forall i, (draw i).1 ∈ cards) ->
  exists hand' j' k', player_loop 22 cmd j draw k hand = Ok (Some (hand', j', k')) /\
                     valid_hand hand'.
Proof. intros Hv Hd. apply player_loop_fuel; [done|done|lia]. Qed.

Lemma player_loop_terminates_witness :
  valid_hand [("2", HEART); ("3", CLUB)] /\
  (forall i : nat, (const_draw ("2", SPADE) i).1 ∈ cards) /\
  exists hand' j' k', player_loop 22 (fun _ => "") 0 (const_draw ("2", SPADE)) 4
                                  [("2", HEART); ("3", CLUB)] = Ok (Some (hand', j', k')) /\
                     valid_hand hand'.
Proof.
  assert (H1 : valid_hand [("2", HEART); ("3", CLUB)]) by (unfold valid_hand; decide_by_eval).
  assert (H2 : forall i : nat, (const_draw ("2", SPADE) i).1 ∈ cards)
    by (intros i; unfold const_draw; decide_by_eval).
  split; [exact H1|]. split; [exact H2|].
  exact (player_loop_terminates (fun _ => "") 0 (const_draw ("2", SPADE)) 4 _ H1 H2).
Defined.

(** ** A whole round *)

(** C23: a whole pass of the main loop refines the round step [bj_round]:
    from a state satisfying the invariant and with drawn cards of real
    faces, it raises nothing and never runs out of fuel; a refused bet is a
    refused [bj_round], and a played round is [bj_round] on the final
    scores, where the dealer has reached the target unless the player
    busted. *)
Theorem bj_full_round_refines st bet target cmd (draw : nat -> bj_card) :
  bj_inv st -> (forall i, (draw i).1 ∈ cards) ->
  exists r, bj_full_round st bet target cmd draw = Ok r /\
    match r with
    | Rejected => bj_round st bet 0 0 = Ok None
    | Played st' => exists ps ds, bj_round st bet ps ds = Ok (Some st') /\
                                  (ps <= 21 -> target <= ds)
    | OutOfFuel => False
    end.
Proof.
  intros Hi Hd. unfold bj_full_round, bj_round.
  destruct (bj_inv_no_error st bet 0 0 Hi) as [o0 Ho0].
  unfold bj_round in Ho0. destruct (stake st bet) as [[[ba st1]|]|e] eqn:Hs; cbn [res_bind] in *;
    [|by exists Rejected|discriminate].
  assert (Hv0 : valid_hand [draw 0%nat; draw 2%nat])
    by (constructor; [apply Hd|constructor; [apply Hd|constructor]]).
  assert (Hw0 : valid_hand [draw 1%nat; draw 3%nat])
    by (constructor; [apply Hd|constructor; [apply Hd|constructor]]).
  destruct (player_loop_fuel 21 cmd 0 draw 4 _ Hv0 Hd) as (player & j' & k & Hpl & Hvp);
    [simpl; lia|].
  change 22%nat with (S 21). rewrite Hpl. cbn [res_bind].
  destruct (calc_score_total player Hvp) as [ps Hps]. rewrite Hps. cbn [res_bind].
  destruct (Z.leb_spec ps 21).
  - destruct (dealer_loop_terminates target draw k _ Hw0 Hd) as (n & ds & -> & Hds & Ht).
    cbn [res_bind]. rewrite ?Hps, ?Hds. cbn [res_bind].
    eexists; split; [reflexivity|]. exists ps, ds. split; [reflexivity|auto].
  - destruct (calc_score_total _ Hw0) as [ds Hds]. cbn [res_bind]. rewrite ?Hps, ?Hds.
    cbn [res_bind]. eexists; split; [reflexivity|]. exists ps, ds. split; [reflexivity|lia].
Qed.

Lemma bj_full_round_refines_witness :
  bj_inv (mk_bj 10 None false) /\ (forall i : nat, (const_draw ("9", SPADE) i).1 ∈ cards) /\
  exists r, bj_full_round (mk_bj 10 None false) 3 17 (fun _ => " S") (const_draw ("9", SPADE)) = Ok r /\
    match r with
    | Rejected => bj_round (mk_bj 10 None false) 3 0 0 = Ok None
    | Played st' => exists ps ds, bj_round (mk_bj 10 None false) 3 ps ds = Ok (Some st') /\
                                  (ps <= 21 -> 17 <= ds)
    | OutOfFuel => False
    end.
Proof.
  assert (H1 : bj_inv (mk_bj 10 None false)) by (split; [simpl; lia|discriminate]).
  assert (H2 : forall i : nat, (const_draw ("9", SPADE) i).1 ∈ cards)
    by (intros i; unfold const_draw; decide_by_eval).
  split; [exact H1|]. split; [exact H2|].
  exact (bj_full_round_refines _ 3 17 (fun _ => " S") (const_draw ("9", SPADE)) H1 H2).
Defined.

End Blackjack.
