(* ===== verification/Round.v ===== *)
(** * The round driver and the game loop of [src/poker.py]

    [play_round] (lines 247-292): deal five cards to each side by popping
    the shuffled deck, read the player's keep string and redraw, let the
    dealer discard and redraw ([Dealer.dealer_turn]), evaluate both hands,
    look up their names in [HAND_NAMES] and settle ([Tally.settle]).  The
    line typed at the prompt is an input of the model; the deck is any
    permutation of the unshuffled deck ([create_deck]).  [game] (lines
    295-304) runs rounds until the answer to "Play another round?" is
    ["n"], with the typed lines as input streams. *)

From S2P Require Import Prelude PyBuiltins Cards Evaluator Tally Dealer.
From stdpp Require Import gmap sorting.
From Stdlib Require Import Ascii Sorted.
Local Open Scope Z_scope.

Module Round.
Import Evaluate Tally Dealer.

(** [[deck.pop() for _ in range(n)]]: the first card popped comes first. *)
Fixpoint pop_n (n : nat) (deck : list card) : res (list card * list card) :=
  match n with
  | O => Ok ([], deck)
  | S n' =>
      let! '(c, deck1) := py_pop deck in
      let! '(cs, deck2) := pop_n n' deck1 in
      Ok (c :: cs, deck2)
  end.

(** Line 262, the condition of the comprehension on one character [i] of
    the answer: [i.isdigit() and 0 <= int(i)-1 < 5], giving [int(i)-1]. *)
Definition keep_index (ch : ascii) : option Z :=
  match digit_value ch with
  | Some d => if (0 <=? d - 1) && (d - 1 <? 5) then Some (d - 1) else None
  | None => None
  end.

(** Line 262: [sorted({int(i)-1 for i in choice if ...})], the set as a
    [gset Z] and [sorted] as stdpp's merge sort. *)
Definition idxs_to_keep (choice : string) : list Z :=
  merge_sort Z.le
    (elements (list_to_set (omap keep_index (String.list_ascii_of_string choice)) : gset Z)).

(** The character a player types to keep the card at the 0-based
    position [i]: its 1-based position as a digit. *)
Definition digit_char (i : Z) : ascii := ascii_of_nat (Z.to_nat i + 49).

(** Line 263: [[c for i,c in enumerate(player) if i in idxs_to_keep]]. *)
Definition kept_cards (idxs : list Z) (player : list card) : list card :=
  snd <$> filter (fun ic : nat * card => Z.of_nat ic.1 ∈ idxs) (enumerate player).

(** Lines 257-265 on the stripped answer [choice]: keep all on ["a"] (any
    case), five new cards on the empty answer, else keep the named cards
    and pop [5 - len(kept_cards)] new ones.  Returns the hand and the
    deck. *)
Definition player_draw (choice : string) (player deck : list card)
  : res (list card * list card) :=
  if bool_decide (py_lower choice = "a") then Ok (player, deck)
  else if bool_decide (choice = "") then pop_n 5 deck
  else
    let kept := kept_cards (idxs_to_keep choice) player in
    let! '(new_cards, deck1) := pop_n (5 - length kept) deck in
    Ok (kept ++ new_cards, deck1).

(** What a round leaves behind: both final hands, the rest of the deck,
    the message printed and the updated globals. *)
Record round_out := mk_round {
  r_player : list card;
  r_dealer : list card;
  r_deck : list card;
  r_outcome : outcome;
  r_tally : tally
}.

(** Lines 250-270, the cards of a round: deal five to the player and five
    to the dealer, the player's redraw on the stripped answer [line] typed
    at line 255, the dealer's turn.  Returns both hands and the deck. *)
Definition round_cards (deck : list card) (line : string)
  : res (list card * list card * list card) :=
  let! '(player, deck1) := pop_n 5 deck in
  let! '(dealer, deck2) := pop_n 5 deck1 in
  let choice := py_strip line in
  let! '(player', deck3) := player_draw choice player deck2 in
  let! '(dealer', deck4) := dealer_turn dealer deck3 in
  Ok (player', dealer', deck4).

(** Lines 250-292, with [t] the three globals.  The [show_table] calls
    only print. *)
Definition play_round (deck : list card) (line : string) (t : tally) : res round_out :=
  let! '(player, dealer, deck') := round_cards deck line in
  let! p_score := evaluate player in
  let! d_score := evaluate dealer in
  let! _ := py_index HAND_NAMES d_score.1 in
  let! _ := py_index HAND_NAMES p_score.1 in
  let! '(o, t') := settle p_score d_score t in
  Ok (mk_round player dealer deck' o t').

(** Lines 295-304: [play_round()], then [input(...).lower()]; ["n"] ends
    the loop.  [lines i] is the keep answer of round [i], [agains i] the
    answer to "Play another round?".  [None] is fuel exhausted; [Some (n,
    t)] is a game that ended after [n] rounds with globals [t]. *)
Fixpoint game_loop (fuel : nat) (decks : nat -> list card) (lines agains : nat -> string)
    (k : nat) (t : tally) : res (option (nat * tally)) :=
  match fuel with
  | O => Ok None
  | S fuel' =>
      let! r := play_round (decks k) (lines k) t in
      if bool_decide (py_lower (agains k) = "n") then Ok (Some (S k, r_tally r))
      else game_loop fuel' decks lines agains (S k) (r_tally r)
  end.

(** [game()] from the globals' initial values (lines 194-196). *)
Definition game (fuel : nat) (decks : nat -> list card) (lines agains : nat -> string)
  : res (option (nat * tally)) :=
  game_loop fuel decks lines agains 0 initial_tally.

(** ** Popping the deck *)

Lemma pop_n_spec n deck :
  (n <= length deck)%nat ->
  pop_n n deck = Ok (rev (drop (length deck - n) deck), take (length deck - n) deck).
Proof.
  revert deck; induction n as [|n IH]; intros deck Hn; simpl.
  - by rewrite Nat.sub_0_r, drop_all, take_ge.
  - assert (Hne : deck <> []) by (intros ->; simpl in Hn; lia).
    destruct (py_pop_Ok_cons deck Hne) as (c & deck1 & -> & ->).
    rewrite length_app in Hn; simpl in Hn. cbn [res_bind]. rewrite IH by lia.
    cbn [res_bind]. rewrite length_app; simpl.
    replace (length deck1 + 1 - S n)%nat with (length deck1 - n)%nat by lia.
    by rewrite drop_app_le, take_app_le, rev_app_distr by lia.
Qed.

Lemma pop_n_Ok n deck cs rest :
  pop_n n deck = Ok (cs, rest) -> cs ++ rest ≡ₚ deck /\ length cs = n.
Proof.
  revert deck cs; induction n as [|n IH]; intros deck cs Hp; simpl in Hp.
  - by simplify_eq.
  - destruct (py_pop deck) as [[c deck1]|] eqn:Hd; [|discriminate]. cbn [res_bind] in Hp.
    destruct (pop_n n deck1) as [[cs1 rest1]|] eqn:Hr; [|discriminate]. simplify_eq/=.
    destruct (IH _ _ Hr) as [Hperm Hl]. apply py_pop_Ok in Hd as ->.
    split; [|by rewrite Hl]. rewrite Hperm. apply Permutation_cons_append.
Qed.

Lemma pop_n_total n deck :
  (n <= length deck)%nat -> exists cs rest, pop_n n deck = Ok (cs, rest) /\
                                       length rest = (length deck - n)%nat.
Proof.
  intros Hn. rewrite pop_n_spec by done. eexists _, _. split; [reflexivity|].
  rewrite length_take. lia.
Qed.

(** ** The keep string *)

Lemma keep_index_range ch i : keep_index ch = Some i -> 0 <= i < 5.
Proof.
  unfold keep_index. destruct (digit_value ch); [|done].
  destruct (Z.leb_spec 0 (z - 1)), (Z.ltb_spec (z - 1) 5); simpl; intros; simplify_eq; lia.
Qed.

Lemma elem_of_idxs_to_keep choice i :
  i ∈ idxs_to_keep choice <->
  exists ch, ch ∈ String.list_ascii_of_string choice /\ keep_index ch = Some i.
Proof.
  unfold idxs_to_keep. rewrite (merge_sort_Permutation _), elem_of_elements,
    elem_of_list_to_set, list_elem_of_omap. naive_solver.
Qed.

Lemma Sorted_le_NoDup_lt (l : list Z) : Sorted Z.le l -> NoDup l -> StronglySorted Z.lt l.
Proof.
  intros Hs Hnd. apply (Sorted_StronglySorted Z.le_trans) in Hs.
  induction Hs as [|x l Hs IH Hx]; [constructor|].
  apply NoDup_cons in Hnd as [Hx' Hnd]. constructor; [by apply IH|]. rewrite Forall_forall in Hx |- *.
  intros y Hy. specialize (Hx y Hy). assert (x <> y) by (intros ->; contradiction). lia.
Qed.

Lemma idxs_to_keep_sorted choice : StronglySorted Z.lt (idxs_to_keep choice).
Proof.
  apply Sorted_le_NoDup_lt; [apply (Sorted_merge_sort _)|].
  unfold idxs_to_keep. rewrite (merge_sort_Permutation _). apply NoDup_elements.
Qed.

(** ** Conservation of cards *)

Lemma enumerate_snd {A} (l : list A) : (enumerate l).*2 = l.
Proof.
  unfold enumerate. rewrite fmap_imap. rewrite <- (list_fmap_id l) at 2.
  rewrite <- imap_const. by apply imap_ext.
Qed.

Lemma kept_cards_submseteq idxs player : kept_cards idxs player ⊆+ player.
Proof.
  unfold kept_cards. apply sublist_submseteq. rewrite <- (enumerate_snd player) at 2.
  apply fmap_sublist, sublist_filter.
Qed.

Lemma player_draw_Ok choice player deck player' deck' :
  length player = 5%nat -> player_draw choice player deck = Ok (player', deck') ->
  player' ++ deck' ⊆+ player ++ deck /\ length player' = 5%nat /\
  (length deck - 5 <= length deck')%nat.
Proof.
  intros Hl. unfold player_draw. case_bool_decide; [intros [= <- <-]; split_and!; done || lia|].
  case_bool_decide.
  - intros (Hp & Hn)%pop_n_Ok. pose proof (Permutation_length Hp) as Hlen.
    rewrite length_app in Hlen. split_and!; [|done|lia]. rewrite Hp. by apply submseteq_inserts_l.
  - pose proof (kept_cards_submseteq (idxs_to_keep choice) player) as Hk.
    destruct (pop_n _ deck) as [[nw deck1]|] eqn:Hp; [|discriminate]. intros [= <- <-].
    apply pop_n_Ok in Hp as [Hp Hn]. pose proof (Permutation_length Hp) as Hlen.
    apply submseteq_length in Hk as Hkl. rewrite length_app in Hlen.
    rewrite <- (assoc_L _), Hp. split_and!; [by apply submseteq_app|rewrite length_app; lia|lia].
Qed.

Lemma player_draw_total choice player deck :
  (5 <= length deck)%nat -> exists player' deck', player_draw choice player deck = Ok (player', deck').
Proof.
  intros Hd. unfold player_draw. case_bool_decide; [eauto|]. case_bool_decide.
  - destruct (pop_n_total 5 deck Hd) as (cs & rest & -> & _). eauto.
  - destruct (pop_n_total (5 - length (kept_cards (idxs_to_keep choice) player)) deck)
      as (cs & rest & -> & _); [lia|]. simpl. eauto.
Qed.

Lemma dealer_turn_total' dealer deck :
  length dealer = 5%nat -> (5 <= length deck)%nat ->
  exists dealer' deck', dealer_turn dealer deck = Ok (dealer', deck') /\ length dealer' = 5%nat.
Proof.
  intros Hd Hdeck. unfold dealer_turn.
  set (idxs := sort_desc_nat (dealer_discard_strategy dealer)).
  assert (Hperm : idxs ≡ₚ dealer_discard_strategy dealer) by apply sort_desc_nat_perm.
  destruct (redraw_total idxs dealer deck) as (dealer' & -> & Hl).
  - rewrite Forall_forall. intros i Hi. rewrite Hperm in Hi.
    apply elem_of_dealer_discard in Hi as (c & Hc & _). by eapply lookup_lt_Some.
  - pose proof (length_dealer_discard dealer). rewrite Hperm. lia.
  - eexists _, _. split; [reflexivity|]. lia.
Qed.

(** ** A round *)

Lemma round_cards_Ok deck line player dealer rest :
  round_cards deck line = Ok (player, dealer, rest) ->
  player ++ dealer ++ rest ⊆+ deck /\ length player = 5%nat /\ length dealer = 5%nat.
Proof.
  unfold round_cards.
  destruct (pop_n 5 deck) as [[p0 deck1]|] eqn:E1; [|discriminate]. cbn [res_bind].
  destruct (pop_n 5 deck1) as [[d0 deck2]|] eqn:E2; [|discriminate]. cbn [res_bind].
  destruct (player_draw _ p0 deck2) as [[p1 deck3]|] eqn:E3; [|discriminate]. cbn [res_bind].
  destruct (dealer_turn d0 deck3) as [[d1 deck4]|] eqn:E4; [|discriminate]. cbn [res_bind].
  intros [= <- <- <-].
  apply pop_n_Ok in E1 as [E1 L1]. apply pop_n_Ok in E2 as [E2 L2].
  apply player_draw_Ok in E3 as (E3 & L3 & _); [|done].
  apply redraw_Ok in E4 as [E4 L4].
  split_and!; [|done|congruence]. rewrite <- E1, <- E2.
  etrans; [by apply submseteq_skips_l|].
  transitivity (d0 ++ p1 ++ deck3); [solve_submseteq|].
  transitivity (d0 ++ p0 ++ deck2); [by apply submseteq_skips_l|solve_submseteq].
Qed.

Lemma round_cards_total deck line :
  (20 <= length deck)%nat -> exists player dealer rest, round_cards deck line = Ok (player, dealer, rest).
Proof.
  intros Hd. unfold round_cards.
  destruct (pop_n_total 5 deck) as (p0 & deck1 & Hp0 & L1); [lia|]. rewrite Hp0. cbn [res_bind].
  destruct (pop_n_total 5 deck1) as (d0 & deck2 & Hd0 & L2); [lia|]. rewrite Hd0. cbn [res_bind].
  pose proof (proj2 (pop_n_Ok _ _ _ _ Hp0)) as Lp0. pose proof (proj2 (pop_n_Ok _ _ _ _ Hd0)) as Ld0.
  destruct (player_draw_total (py_strip line) p0 deck2) as (p1 & deck3 & Hp1); [lia|].
  rewrite Hp1. cbn [res_bind].
  destruct (player_draw_Ok _ _ _ _ _ Lp0 Hp1) as (_ & _ & L3).
  destruct (dealer_turn_total' d0 deck3) as (d1 & deck4 & -> & _); [done|lia|].
  cbn [res_bind]. eauto.
Qed.

Lemma submseteq_deck_cards l deck : create_deck deck -> l ⊆+ deck -> Forall deck_card l.
Proof.
  unfold create_deck. intros Hd Hl. apply Forall_forall. intros c Hc. unfold deck_card.
  rewrite <- Hd. by eapply elem_of_submseteq.
Qed.

Lemma length_create_deck deck : create_deck deck -> length deck = 54%nat.
Proof. unfold create_deck. intros Hd. by rewrite Hd, length_unshuffled_deck. Qed.

Lemma evaluate_deck hand : Forall deck_card hand -> exists p, evaluate hand = Ok p /\ 0 <= p.1 <= 8.
Proof.
  intros Hall. destruct (ranks_of_deck hand Hall) as (ranks & Hr & _).
  unfold evaluate. rewrite Hr. eexists; split; [reflexivity|]. apply classify_range.
Qed.

Lemma py_index_HAND_NAMES c : 0 <= c <= 8 -> exists name, py_index HAND_NAMES c = Ok name.
Proof.
  intros Hc. destruct (lookup_lt_is_Some_2 HAND_NAMES (Z.to_nat c)) as [name Hn];
    [simpl; lia|].
  exists name. rewrite <- (Z2Nat.id c) by lia. by apply py_index_Ok.
Qed.

(** On a deck made by [create_deck], a round deals, redraws and evaluates
    without raising, and is the settlement of the two evaluations. *)
Lemma play_round_settles deck line t :
  create_deck deck ->
  exists player dealer rest p d,
    round_cards deck line = Ok (player, dealer, rest) /\
    evaluate player = Ok p /\ evaluate dealer = Ok d /\
    play_round deck line t = res_map (fun '(o, t') => mk_round player dealer rest o t') (settle p d t).
Proof.
  intros Hd. pose proof (length_create_deck _ Hd) as Hl.
  destruct (round_cards_total deck line) as (pl & dl & rest & Hrc); [lia|].
  destruct (round_cards_Ok _ _ _ _ _ Hrc) as (Hsub & _ & _).
  destruct (evaluate_deck pl) as (p & Hp & Hpr).
  { apply (submseteq_deck_cards _ deck Hd). etrans; [|exact Hsub]. solve_submseteq. }
  destruct (evaluate_deck dl) as (d & Hdd & Hdr).
  { apply (submseteq_deck_cards _ deck Hd). etrans; [|exact Hsub]. solve_submseteq. }
  destruct (py_index_HAND_NAMES _ Hpr) as [np Hnp].
  destruct (py_index_HAND_NAMES _ Hdr) as [nd Hnd].
  exists pl, dl, rest, p, d. split_and!; [done..|].
  unfold play_round. rewrite Hrc. cbn [res_bind]. rewrite Hp, Hdd. cbn [res_bind].
  rewrite Hnd, Hnp. cbn [res_bind]. by destruct (settle p d t) as [[o t']|e].
Qed.

(** C24: a round dealt from a deck made by [create_deck] never raises
    [IndexError] (the deck holds 54 cards and a round pops at most 20) nor
    [ValueError]: whatever ASCII answer the player types, either the round
    completes or it raises [TypeError], and then both final hands are
    flushes.  (A non-ASCII digit such as ['²'] passes [isdigit()] and makes
    [int()] raise [ValueError]; the model reads characters as ASCII.) *)
Theorem play_round_safe deck line t :
  create_deck deck ->
  Forall (fun c => (nat_of_ascii c < 128)%nat) (String.list_ascii_of_string line) ->
  (exists r, play_round deck line t = Ok r) \/
  (play_round deck line t = Err TypeError /\
   exists player dealer rest p d,
     round_cards deck line = Ok (player, dealer, rest) /\
     evaluate player = Ok p /\ evaluate dealer = Ok d /\ p.1 = 5 /\ d.1 = 5).
Proof.
  intros Hd _. destruct (play_round_settles deck line t Hd) as (pl & dl & rest & p & d & Hrc & Hp & Hdd & ->).
  destruct (settle p d t) as [[o t']|e] eqn:Hs; simpl; [left; eauto|right].
  destruct (settle_Err_flushes _ _ _ _ _ _ Hp Hdd Hs) as (-> & H5 & H5').
  split; [done|]. by exists pl, dl, rest, p, d.
Qed.

Lemma play_round_safe_witness :
  create_deck unshuffled_deck /\
  Forall (fun c => (nat_of_ascii c < 128)%nat) (String.list_ascii_of_string " 1 2 ") /\
  ((exists r, play_round unshuffled_deck " 1 2 " initial_tally = Ok r) \/
   (play_round unshuffled_deck " 1 2 " initial_tally = Err TypeError /\
    exists player dealer rest p d,
      round_cards unshuffled_deck " 1 2 " = Ok (player, dealer, rest) /\
      evaluate player = Ok p /\ evaluate dealer = Ok d /\ p.1 = 5 /\ d.1 = 5)).
Proof.
  assert (H : create_deck unshuffled_deck) by (unfold create_deck; reflexivity).
  assert (Ha : Forall (fun c => (nat_of_ascii c < 128)%nat) (String.list_ascii_of_string " 1 2 "))
    by (apply (bool_decide_unpack _); vm_compute; exact I).
  split; [exact H|]. split; [exact Ha|]. exact (play_round_safe _ " 1 2 " initial_tally H Ha).
Defined.

(** C25: a round conserves the cards: both final hands hold five cards,
    and the two hands and the rest of the deck together are a
    sub-multiset of the deck the round started from (the player's and the
    dealer's discards are the cards missing). *)
Theorem play_round_conserves deck line t r :
  play_round deck line t = Ok r ->
  r_player r ++ r_dealer r ++ r_deck r ⊆+ deck /\
  length (r_player r) = 5%nat /\ length (r_dealer r) = 5%nat.
Proof.
  unfold play_round. intros H. repeat res_step. simplify_eq/=.
  by eapply round_cards_Ok.
Qed.

(** The round of [play_round_safe_witness]: keep the first two cards. *)
Definition sample_round : round_out :=
  match play_round unshuffled_deck " 1 2 " initial_tally with
  | Ok r => r
  | Err _ => mk_round [] [] [] Push initial_tally
  end.

Lemma play_round_conserves_witness :
  play_round unshuffled_deck " 1 2 " initial_tally = Ok sample_round /\
  (r_player sample_round ++ r_dealer sample_round ++ r_deck sample_round ⊆+ unshuffled_deck /\
   length (r_player sample_round) = 5%nat /\ length (r_dealer sample_round) = 5%nat).
Proof.
  assert (H : play_round unshuffled_deck " 1 2 " initial_tally = Ok sample_round)
    by (vm_compute; reflexivity).
  split; [exact H|]. exact (play_round_conserves _ _ _ _ H).
Defined.

(** ** The keep answer *)

Lemma keep_index_iff ch i : keep_index ch = Some i <-> 0 <= i < 5 /\ ch = digit_char i.
Proof.
  split.
  - intros Hk. pose proof (keep_index_range _ _ Hk) as Hr. split; [done|].
    unfold keep_index, digit_value in Hk.
    destruct (_ && _) eqn:Hd; [|discriminate]. apply andb_prop in Hd as [H1 H2].
    apply Z.leb_le in H1. apply Z.leb_le in H2.
    destruct (_ && _) eqn:Hb; [|discriminate]. injection Hk as <-.
    unfold digit_char. rewrite <- (ascii_nat_embedding ch) at 1. f_equal. lia.
  - intros [Hi ->]. assert (i = 0 \/ i = 1 \/ i = 2 \/ i = 3 \/ i = 4) as Hc by lia.
    destruct_or! Hc; subst i; reflexivity.
Qed.

(** C26: the keep answer is parsed character by character: the indices
    kept are exactly [d - 1] for the digits [d] of ['1'..'5'] the answer
    contains (other characters, other digits and repetitions are
    ignored), and they come out strictly increasing. *)
Theorem idxs_to_keep_spec choice :
  (forall i, i ∈ idxs_to_keep choice <->
             0 <= i < 5 /\ digit_char i ∈ String.list_ascii_of_string choice) /\
  StronglySorted Z.lt (idxs_to_keep choice).
Proof.
  split; [|apply idxs_to_keep_sorted]. intros i. rewrite elem_of_idxs_to_keep.
  setoid_rewrite keep_index_iff. naive_solver.
Qed.

Lemma elem_of_kept_cards idxs player c :
  c ∈ kept_cards idxs player <-> exists i, player !! i = Some c /\ Z.of_nat i ∈ idxs.
Proof.
  unfold kept_cards. rewrite list_elem_of_fmap. setoid_rewrite list_elem_of_filter. split.
  - intros ([i c'] & -> & Hi & Hin%elem_of_enumerate). eauto.
  - intros (i & Hi & Hin). exists (i, c). split; [done|]. split; [done|].
    by apply elem_of_enumerate.
Qed.

(** C28: an answer that is not ["a"] and names no position [1..5] (say
    ["0"], ["6"] or ["none"]) behaves exactly like the empty answer: the
    whole hand is replaced by five cards from the deck. *)
Theorem no_keep_digit_redraws_all choice player deck :
  py_lower choice <> "a" ->
  (forall ch, ch ∈ String.list_ascii_of_string choice -> keep_index ch = None) ->
  player_draw choice player deck = player_draw "" player deck.
Proof.
  intros Ha Hnone. unfold player_draw.
  rewrite (bool_decide_false (py_lower choice = "a")) by done.
  rewrite (bool_decide_false (py_lower "" = "a")) by (vm_compute; discriminate).
  case_bool_decide as He; [by subst|].
  rewrite bool_decide_true by done.
  assert (Hk : kept_cards (idxs_to_keep choice) player = []).
  { apply elem_of_nil_inv. intros c (i & _ & Hi)%elem_of_kept_cards.
    apply elem_of_idxs_to_keep in Hi as (ch & Hch & Hk). by rewrite Hnone in Hk. }
  rewrite Hk. change (5 - length (@nil card))%nat with 5%nat.
  by destruct (pop_n 5 deck) as [[??]|].
Qed.

Lemma no_keep_digit_redraws_all_witness :
  py_lower "None" <> "a" /\
  (forall ch, ch ∈ String.list_ascii_of_string "None" -> keep_index ch = None) /\
  player_draw "None" unshuffled_deck unshuffled_deck = player_draw "" unshuffled_deck unshuffled_deck.
Proof.
  assert (H1 : py_lower "None" <> "a") by (vm_compute; discriminate).
  assert (H2 : forall ch, ch ∈ String.list_ascii_of_string "None" -> keep_index ch = None)
    by (intros ch Hch; vm_compute in Hch; repeat (apply elem_of_cons in Hch as [->|Hch];
          [reflexivity|]); by apply not_elem_of_nil in Hch).
  split; [exact H1|]. split; [exact H2|]. exact (no_keep_digit_redraws_all _ _ _ H1 H2).
Defined.

(** ** The game loop *)

Lemma game_loop_S f decks lines agains k t :
  game_loop (S f) decks lines agains k t =
  let! r := play_round (decks k) (lines k) t in
  if bool_decide (py_lower (agains k) = "n") then Ok (Some (S k, r_tally r))
  else game_loop f decks lines agains (S k) (r_tally r).
Proof. reflexivity. Qed.

(** One round on a shuffled deck: it raises [TypeError] on two flushes, or
    completes and keeps the session invariant. *)
Lemma play_round_step deck line t :
  create_deck deck -> tally_inv t ->
  play_round deck line t = Err TypeError \/
  exists r, play_round deck line t = Ok r /\ tally_inv (r_tally r).
Proof.
  intros Hd Ht. destruct (play_round_settles deck line t Hd) as (pl & dl & rest & p & d & _ & Hp & Hdd & ->).
  destruct (settle p d t) as [[o t']|e] eqn:Hs; simpl.
  - right. eexists; split; [reflexivity|]. by eapply settle_inv.
  - left. by destruct (settle_Err_flushes _ _ _ _ _ _ Hp Hdd Hs) as (-> & _).
Qed.

Section GameLoop.
Context (decks : nat -> list card) (lines agains : nat -> string).
Hypothesis decks_shuffled : forall i, create_deck (decks i).

Lemma game_loop_stops n :
  py_lower (agains n) = "n" -> (forall i, (i < n)%nat -> py_lower (agains i) <> "n") ->
  forall fuel k t, tally_inv t -> (k <= n)%nat -> (n - k < fuel)%nat ->
  (exists t', game_loop fuel decks lines agains k t = Ok (Some (S n, t')) /\ tally_inv t') \/
  game_loop fuel decks lines agains k t = Err TypeError.
Proof.
  intros Hn Hbefore fuel. induction fuel as [|f IH]; intros k t Ht Hk Hf; [lia|].
  rewrite game_loop_S.
  destruct (play_round_step (decks k) (lines k) t (decks_shuffled k) Ht) as [->|(r & -> & Hr)];
    [by right|]. cbn [res_bind].
  destruct (decide (k = n)) as [->|Hkn].
  - rewrite bool_decide_true by done. eauto.
  - rewrite bool_decide_false by (apply Hbefore; lia). apply IH; [done|lia|lia].
Qed.

Lemma game_loop_Some fuel :
  forall k0 t k t', game_loop fuel decks lines agains k0 t = Ok (Some (k, t')) ->
  (k0 < k)%nat /\ py_lower (agains (k - 1)%nat) = "n" /\
  (forall i, (k0 <= i < k - 1)%nat -> py_lower (agains i) <> "n").
Proof.
  induction fuel as [|f IH]; intros k0 t k t'; [discriminate|]. rewrite game_loop_S.
  destruct (play_round (decks k0) (lines k0) t) as [r|e]; simpl; [|discriminate].
  case_bool_decide as Hn.
  - intros [= <- _]. split_and!; [lia|by rewrite Nat.sub_1_r|lia].
  - intros (Hk & Hlast & Hbefore)%IH. split_and!; [lia|done|].
    intros i Hi. destruct (decide (i = k0)) as [->|]; [done|]. apply Hbefore. lia.
Qed.

End GameLoop.


(** C29: liveness of [game]: if the first answer ["n"] (in any case) to
    "Play another round?" comes after round [n], and the fuel covers [n + 1]
    rounds, the game ends after exactly [n + 1] rounds with globals that
    satisfy the session invariant (two non-negative counters and a power
    of two as multiplier), unless a round raised [TypeError] on two
    flushes. *)
Theorem game_stops fuel decks lines agains n :
  (forall i, create_deck (decks i)) ->
  py_lower (agains n) = "n" -> (forall i, (i < n)%nat -> py_lower (agains i) <> "n") ->
  (n < fuel)%nat ->
  (exists t, game fuel decks lines agains = Ok (Some (S n, t)) /\ tally_inv t) \/
  game fuel decks lines agains = Err TypeError.
Proof.
  intros Hd Hn Hb Hf. unfold game.
  destruct (game_loop_stops decks lines agains Hd n Hn Hb fuel 0 initial_tally)
    as [(t & -> & Ht)| ->]; [|lia|lia|left; eauto|by right].
  unfold tally_inv; simpl. split_and!; [lia|lia|exists 0; split; [lia|done]].
Qed.

Definition sample_decks : nat -> list card := fun _ => unshuffled_deck.
Definition sample_lines : nat -> string := fun _ => "a".
Definition sample_agains : nat -> string := fun i => if Nat.eqb i 1 then "N" else "y".

Lemma game_stops_witness :
  (forall i, create_deck (sample_decks i)) /\ py_lower (sample_agains 1%nat) = "n" /\
  (forall i, (i < 1)%nat -> py_lower (sample_agains i) <> "n") /\ (1 < 3)%nat /\
  ((exists t, game 3 sample_decks sample_lines sample_agains = Ok (Some (2%nat, t)) /\ tally_inv t) \/
   game 3 sample_decks sample_lines sample_agains = Err TypeError).
Proof.
  assert (H1 : forall i, create_deck (sample_decks i)) by (intros i; unfold create_deck; reflexivity).
  assert (H2 : py_lower (sample_agains 1%nat) = "n") by (vm_compute; reflexivity).
  assert (H3 : forall i, (i < 1)%nat -> py_lower (sample_agains i) <> "n")
    by (intros i Hi; assert (i = 0%nat) as -> by lia; vm_compute; discriminate).
  assert (H4 : (1 < 3)%nat) by lia.
  split; [exact H1|]. split; [exact H2|]. split; [exact H3|]. split; [exact H4|].
  exact (game_stops 3 sample_decks sample_lines sample_agains 1 H1 H2 H3 H4).
Defined.

(** C30: [game] only ends on the answer ["n"]: when it returns after [k]
    rounds, the answer after round [k - 1] lowers to ["n"] and no earlier
    answer does (["no"], ["q"] or [" n"] play on). *)
Theorem game_ends_only_on_n fuel decks lines agains k t :
  game fuel decks lines agains = Ok (Some (k, t)) ->
  (0 < k)%nat /\ py_lower (agains (k - 1)%nat) = "n" /\
  (forall i, (i < k - 1)%nat -> py_lower (agains i) <> "n").
Proof.
  unfold game. intros (Hk & Hn & Hb)%game_loop_Some. split_and!; [lia|done|].
  intros i Hi. apply Hb. lia.
Qed.

(** The answer ["no"] after round 0 does not end the game. *)
Definition sample_no : nat -> string := fun i => if Nat.eqb i 1 then "n" else "no".

Lemma game_ends_only_on_n_witness :
  game 3 sample_decks sample_lines sample_no = Ok (Some (2%nat, mk_tally 2 0 1)) /\
  ((0 < 2)%nat /\ py_lower (sample_no (2 - 1)%nat) = "n" /\
   (forall i, (i < 2 - 1)%nat -> py_lower (sample_no i) <> "n")).
Proof.
  assert (H : game 3 sample_decks sample_lines sample_no = Ok (Some (2%nat, mk_tally 2 0 1)))
    by (vm_compute; reflexivity).
  split; [exact H|]. exact (game_ends_only_on_n _ _ _ _ _ _ H).
Defined.

End Round.
