(* ===== verification/BlackjackGame.v ===== *)
(** * The main loop of the blackjack game of [BBlackjack.py]

    The retry loop of [place_bet] that reads the bet (lines 49-55), with
    its bare [except:], and the [while True] loop of [game()] (lines
    150-239): the out-of-coins branch with the college-funds offer (lines
    151-176), a round ([Blackjack.bj_full_round]) and the save of the purse
    into the [scorekeeper] module (line 236).  [scorekeeper] is a module
    outside the repository; the code reads and writes its attributes
    [pcoins] and [gambledfunds], which are modelled as the record
    [scorekeeper]. *)

From S2P Require Import Prelude PyBuiltins Cards Blackjack.
From stdpp Require Import pretty.
Local Open Scope Z_scope.

Module BlackjackGame.
Import Blackjack.

(** One pass of the loop of lines 49-55 on the [j]-th call of [input()]:
    [None] when [input()] raises ([EOFError] at the end of the input,
    [KeyboardInterrupt] on Ctrl-C) and [Some line] otherwise.  The bare
    [except:] catches those and the [ValueError] of [int()]; the loop
    breaks on an [int] in [1..player_coins]. *)
Definition accept_bet (player_coins : Z) (line : option string) : option Z :=
  match line with
  | None => None
  | Some l =>
      match py_int l with
      | Ok bet => if (1 <=? bet) && (bet <=? player_coins) then Some bet else None
      | Err _ => None
      end
  end.

(** Lines 49-55 with fuel: the accepted bet and the next input position. *)
Fixpoint read_bet (fuel : nat) (player_coins : Z) (inp : nat -> option string) (j : nat)
  : option (Z * nat) :=
  match fuel with
  | O => None
  | S fuel' =>
      match accept_bet player_coins (inp j) with
      | Some bet => Some (bet, S j)
      | None => read_bet fuel' player_coins inp (S j)
      end
  end.

(** The [scorekeeper] module's attributes that the game reads and writes. *)
Record scorekeeper := mk_sk {
  pcoins : Z;
  gambledfunds : Z
}.

(** Lines 5-6: [gambledfunds] is set to [0] when the module lacks it. *)
Definition init_scorekeeper (pcoins0 : Z) (gambledfunds0 : option Z) : scorekeeper :=
  mk_sk pcoins0 (match gambledfunds0 with Some g => g | None => 0 end).

(** What the player types and draws in one round: the lines read by the
    bet loop, the answers to the hit-or-stay prompt, the drawn cards and
    the dealer's target [random.randint(17, 19)]. *)
Record round_inputs := mk_inputs {
  bet_lines : nat -> option string;
  cmds : nat -> string;
  draws : nat -> bj_card;
  target : Z
}.

(** The fuel of the bet loop in one round. *)
Definition bet_fuel : nat := 100.

(** Lines 177-234: a round, with the bet read by the loop of [place_bet]
    unless the round replays a push.  The bet loop out of fuel is
    [OutOfFuel]. *)
Definition bj_round_io (st : bj_state) (ri : round_inputs) : res round_result :=
  if was_push st then bj_full_round st 0 (target ri) (cmds ri) (draws ri)
  else
    match read_bet bet_fuel (player_coins st) (bet_lines ri) 0 with
    | Some (bet, _) => bj_full_round st bet (target ri) (cmds ri) (draws ri)
    | None => Ok OutOfFuel
    end.

(** The answers to "You have college funds, right???" that restart. *)
Definition yes_answers : list string := ["yes"; "yea"; "yeah"].

(** Lines 150-239: [rounds k] are the inputs of round [k], [funds k] the
    answer to the college-funds question asked before round [k].
    [return game()] restarts with [player_coins = scorekeeper.pcoins = 50]
    and fresh [last_bet] and [was_push]; [break] ends the game, returning
    the module's state and the number of rounds played.  [None] is fuel
    exhausted or a round that did not complete. *)
Fixpoint bj_game (fuel : nat) (rounds : nat -> round_inputs) (funds : nat -> string)
    (k : nat) (st : bj_state) (sk : scorekeeper) : res (option (scorekeeper * nat)) :=
  match fuel with
  | O => Ok None
  | S fuel' =>
      if player_coins st <=? 0 then
        if gambledfunds sk <? 1 then
          let sk1 := mk_sk (pcoins sk) (gambledfunds sk + 1) in
          if bool_decide (py_lower (py_strip (funds k)) ∈ yes_answers) then
            bj_game fuel' rounds funds k (mk_bj 50 None false) (mk_sk 50 (gambledfunds sk1))
          else Ok (Some (sk1, k))
        else Ok (Some (sk, k))
      else
        let! r := bj_round_io st (rounds k) in
        match r with
        | Played st' => bj_game fuel' rounds funds (S k) st' (mk_sk (player_coins st') (gambledfunds sk))
        | Rejected | OutOfFuel => Ok None
        end
  end.

(** [game()] called with the module in state [sk]: [player_coins =
    scorekeeper.pcoins] (line 35). *)
Definition bj_main (fuel : nat) (rounds : nat -> round_inputs) (funds : nat -> string)
    (sk : scorekeeper) : res (option (scorekeeper * nat)) :=
  bj_game fuel rounds funds 0 (mk_bj (pcoins sk) None false) sk.

(** ** The bet loop *)

Lemma read_bet_S f coins inp j :
  read_bet (S f) coins inp j =
  match accept_bet coins (inp j) with
  | Some bet => Some (bet, S j)
  | None => read_bet f coins inp (S j)
  end.
Proof. reflexivity. Qed.

Lemma accept_bet_Some coins line bet :
  accept_bet coins line = Some bet <->
  exists l, line = Some l /\ py_int l = Ok bet /\ 1 <= bet <= coins.
Proof.
  unfold accept_bet. split.
  - destruct line as [l|]; [|done]. destruct (py_int l) as [b|] eqn:Hb; [|done].
    destruct (Z.leb_spec 1 b), (Z.leb_spec b coins); simpl; intros; simplify_eq.
    exists l. split_and!; [done|done|lia|lia].
  - intros (l & -> & Hl & H1 & H2). rewrite Hl.
    destruct (Z.leb_spec 1 bet), (Z.leb_spec bet coins); [done|lia..].
Qed.

(** The loop stops at the first line [accept_bet] takes. *)
Lemma read_bet_first_accepted coins inp j n bet fuel :
  accept_bet coins (inp (j + n)%nat) = Some bet ->
  (forall i, (i < n)%nat -> accept_bet coins (inp (j + i)%nat) = None) ->
  (n < fuel)%nat ->
  read_bet fuel coins inp j = Some (bet, S (j + n)).
Proof.
  revert j fuel; induction n as [|n IH]; intros j [|f] Hn Hb Hf; try lia.
  - rewrite read_bet_S. by rewrite Nat.add_0_r in Hn |- *; rewrite Hn.
  - assert (H0 := Hb 0%nat ltac:(lia)). rewrite Nat.add_0_r in H0. rewrite read_bet_S, H0.
    replace (S (j + S n)) with (S (S j + n)) by lia. apply IH; [by replace (S j + n)%nat with (j + S n)%nat by lia| |lia].
    intros i Hi. replace (S j + i)%nat with (j + S i)%nat by lia. apply Hb. lia.
Qed.

(** C31: liveness of the bet prompt: when the [n]-th line after position
    [j] is the first one that Python's [int()] reads as an int in
    [1..player_coins] (surrounding whitespace, a sign and digit-group
    underscores allowed; earlier lines are closed input, not ints, or ints
    out of the range), the loop stops there with that bet, given fuel for
    [n + 1] prompts. *)
Theorem read_bet_first_valid coins inp j n l bet fuel :
  inp (j + n)%nat = Some l -> py_int l = Ok bet -> 1 <= bet <= coins ->
  (forall i l' b, (i < n)%nat -> inp (j + i)%nat = Some l' -> py_int l' = Ok b ->
                  b < 1 \/ coins < b) ->
  (n < fuel)%nat ->
  read_bet fuel coins inp j = Some (bet, S (j + n)).
Proof.
  intros Hl Hint Hr Hprev Hf. apply read_bet_first_accepted; [|intros i Hi|done].
  - apply accept_bet_Some. eauto.
  - destruct (accept_bet coins (inp (j + i)%nat)) as [b|] eqn:E; [exfalso|done].
    apply accept_bet_Some in E as (l' & Hl' & Hb & Hbr).
    destruct (Hprev i l' b Hi Hl' Hb); lia.
Qed.

Definition sample_bet_lines : nat -> option string :=
  fun j => match j with 0%nat => Some "ten" | 1%nat => None | 2%nat => Some "0" | _ => Some " 1_0 " end.

Lemma read_bet_first_valid_witness :
  sample_bet_lines (0 + 3)%nat = Some " 1_0 " /\ py_int " 1_0 " = Ok 10 /\ 1 <= 10 <= 20 /\
  (forall i l' b, (i < 3)%nat -> sample_bet_lines (0 + i)%nat = Some l' -> py_int l' = Ok b ->
                  b < 1 \/ 20 < b) /\ (3 < 4)%nat /\
  read_bet 4 20 sample_bet_lines 0 = Some (10, S (0 + 3)).
Proof.
  assert (H1 : sample_bet_lines (0 + 3)%nat = Some " 1_0 ") by reflexivity.
  assert (H2 : py_int " 1_0 " = Ok 10) by (vm_compute; reflexivity).
  assert (H3 : 1 <= 10 <= 20) by lia.
  assert (H4 : forall i l' b, (i < 3)%nat -> sample_bet_lines (0 + i)%nat = Some l' ->
                 py_int l' = Ok b -> b < 1 \/ 20 < b).
  { intros i l' b Hi Hl Hb. destruct i as [|[|[|i]]]; [..|lia]; simpl in Hl; simplify_eq;
      vm_compute in Hb; simplify_eq; lia. }
  assert (H5 : (3 < 4)%nat) by lia.
  split_and!; [exact H1|exact H2|lia|lia|exact H4|exact H5|].
  exact (read_bet_first_valid 20 sample_bet_lines 0 3 " 1_0 " 10 4 H1 H2 H3 H4 H5).
Defined.



(** C32: the bare [except:] of the bet loop also catches the [EOFError]
    and [KeyboardInterrupt] that [input()] raises: once the input is
    closed (or the player presses Ctrl-C at the prompt), the loop never
    returns, whatever the fuel. *)
Theorem read_bet_spins_on_eof coins inp j :
  (forall i, (j <= i)%nat -> inp i = None) ->
  forall fuel, read_bet fuel coins inp j = None.
Proof.
  intros Heof fuel. revert j Heof; induction fuel as [|f IH]; intros j Heof; [done|].
  rewrite read_bet_S, (Heof j) by lia. simpl. apply IH. intros i Hi. apply Heof. lia.
Qed.

Lemma read_bet_spins_on_eof_witness :
  (forall i, (2 <= i)%nat -> (fun i : nat => if Nat.ltb i 2 then Some "x" else None) i = None) /\
  forall fuel, read_bet fuel 5 (fun i : nat => if Nat.ltb i 2 then Some "x" else None) 2 = None.
Proof.
  assert (H : forall i, (2 <= i)%nat -> (fun i : nat => if Nat.ltb i 2 then Some "x" else None) i = None)
    by (intros i Hi; simpl; destruct (Nat.ltb_spec i 2); [lia|reflexivity]).
  split; [exact H|]. exact (read_bet_spins_on_eof 5 _ 2 H).
Defined.

(** ** The main loop *)

Lemma bj_full_round_Played st bet target cmd draw st' :
  bj_full_round st bet target cmd draw = Ok (Played st') ->
  exists ps ds, bj_round st bet ps ds = Ok (Some st').
Proof.
  unfold bj_full_round, bj_round.
  destruct (stake st bet) as [[[ba st1]|]|e]; cbn [res_bind]; [|discriminate|discriminate].
  intros H. apply res_bind_Ok in H as ([[[pl ?] k]|] & _ & H); [|discriminate].
  apply res_bind_Ok in H as (ps0 & _ & H).
  apply res_bind_Ok in H as ([[dl ?]|] & _ & H); [|discriminate].
  apply res_bind_Ok in H as (ps & _ & H). apply res_bind_Ok in H as (ds & _ & H).
  injection H as <-. eauto.
Qed.

Lemma bj_round_io_Played st ri st' :
  bj_round_io st ri = Ok (Played st') -> exists bet ps ds, bj_round st bet ps ds = Ok (Some st').
Proof.
  unfold bj_round_io. destruct (was_push st).
  - intros (ps & ds & H)%bj_full_round_Played. eauto.
  - destruct (read_bet _ _ _ _) as [[bet ?]|]; [|discriminate].
    intros (ps & ds & H)%bj_full_round_Played. eauto.
Qed.

Lemma bj_game_S f rounds funds k st sk :
  bj_game (S f) rounds funds k st sk =
  if player_coins st <=? 0 then
    if gambledfunds sk <? 1 then
      let sk1 := mk_sk (pcoins sk) (gambledfunds sk + 1) in
      if bool_decide (py_lower (py_strip (funds k)) ∈ yes_answers) then
        bj_game f rounds funds k (mk_bj 50 None false) (mk_sk 50 (gambledfunds sk1))
      else Ok (Some (sk1, k))
    else Ok (Some (sk, k))
  else
    let! r := bj_round_io st (rounds k) in
    match r with
    | Played st' => bj_game f rounds funds (S k) st' (mk_sk (player_coins st') (gambledfunds sk))
    | Rejected | OutOfFuel => Ok None
    end.
Proof. reflexivity. Qed.

Lemma bj_game_exit rounds funds fuel :
  forall k st sk sk' k',
  bj_inv st -> pcoins sk = player_coins st -> 0 <= gambledfunds sk ->
  bj_game fuel rounds funds k st sk = Ok (Some (sk', k')) ->
  pcoins sk' = 0 /\ gambledfunds sk' = Z.max (gambledfunds sk) 1.
Proof.
  induction fuel as [|f IH]; intros k st sk sk' k' Hi Hp Hg; [discriminate|].
  pose proof (proj1 Hi) as Hc. rewrite bj_game_S.
  destruct (Z.leb_spec (player_coins st) 0).
  - destruct (Z.ltb_spec (gambledfunds sk) 1); simpl; [case_bool_decide|].
    + intros (Hp' & Hg')%IH; [|split; [simpl; lia|discriminate]|done|simpl; lia].
      simpl in Hg'. split; [done|]. rewrite Hg'. lia.
    + intros [= <- _]. simpl. split; lia.
    + intros [= <- _]. split; lia.
  - destruct (bj_round_io st (rounds k)) as [r|e] eqn:Hr; cbn [res_bind]; [|discriminate].
    destruct r as [|st'|]; try discriminate.
    destruct (bj_round_io_Played _ _ _ Hr) as (bet & ps & ds & Hround).
    intros (Hp' & Hg')%IH; [|by eapply bj_round_inv|done|done]. done.
Qed.

(** C33: the blackjack game only ends with an empty purse, after the
    college-funds offer: when [game()] returns, [scorekeeper.pcoins] is
    [0] and [gambledfunds] is [max(gambledfunds, 1)] of the start. *)
Theorem bj_main_ends_broke fuel rounds funds sk sk' k :
  0 <= pcoins sk -> 0 <= gambledfunds sk ->
  bj_main fuel rounds funds sk = Ok (Some (sk', k)) ->
  pcoins sk' = 0 /\ gambledfunds sk' = Z.max (gambledfunds sk) 1.
Proof.
  intros Hp Hg. unfold bj_main. apply bj_game_exit; [|done|done].
  split; [done|discriminate].
Qed.

(** A game with 3 coins: the player bets everything, stays on 2 + 2 and
    loses to the dealer's kings, then declines the college funds. *)
Definition sample_rounds : nat -> round_inputs :=
  fun _ => mk_inputs (fun _ => Some "3") (fun _ => "s")
                     (fun i => if Nat.odd i then ("K", SPADE) else ("2", HEART)) 17.
Definition sample_funds : nat -> string := fun _ => "no".

Lemma bj_main_ends_broke_witness :
  0 <= pcoins (mk_sk 3 0) /\ 0 <= gambledfunds (mk_sk 3 0) /\
  bj_main 5 sample_rounds sample_funds (mk_sk 3 0) = Ok (Some (mk_sk 0 1, 1%nat)) /\
  (pcoins (mk_sk 0 1) = 0 /\ gambledfunds (mk_sk 0 1) = Z.max (gambledfunds (mk_sk 3 0)) 1).
Proof.
  assert (H1 : 0 <= pcoins (mk_sk 3 0)) by (simpl; lia).
  assert (H2 : 0 <= gambledfunds (mk_sk 3 0)) by (simpl; lia).
  assert (H3 : bj_main 5 sample_rounds sample_funds (mk_sk 3 0) = Ok (Some (mk_sk 0 1, 1%nat)))
    by (vm_compute; reflexivity).
  split; [exact H1|]. split; [exact H2|]. split; [exact H3|].
  exact (bj_main_ends_broke 5 sample_rounds sample_funds _ _ _ H1 H2 H3).
Defined.

(** C34: the college-funds question is asked at most once per process:
    once [scorekeeper.gambledfunds] is at least 1 (it is incremented before
    the answer is read, whatever the answer), the game never reads an
    answer again, and the restart with 50 coins cannot recur. *)
Theorem bj_game_no_second_offer fuel rounds funds funds' k st sk :
  1 <= gambledfunds sk ->
  bj_game fuel rounds funds k st sk = bj_game fuel rounds funds' k st sk.
Proof.
  revert k st sk; induction fuel as [|f IH]; intros k st sk Hg; [done|].
  rewrite !bj_game_S. destruct (player_coins st <=? 0).
  - by destruct (Z.ltb_spec (gambledfunds sk) 1); [lia|].
  - destruct (bj_round_io st (rounds k)) as [[|st'|]|e]; simpl; try done. by apply IH.
Qed.

Lemma bj_game_no_second_offer_witness :
  1 <= gambledfunds (mk_sk 0 1) /\
  bj_game 3 sample_rounds sample_funds 0 (mk_bj 0 None false) (mk_sk 0 1) =
  bj_game 3 sample_rounds (fun _ => "yes") 0 (mk_bj 0 None false) (mk_sk 0 1).
Proof.
  assert (H : 1 <= gambledfunds (mk_sk 0 1)) by (simpl; lia).
  split; [exact H|]. exact (bj_game_no_second_offer 3 sample_rounds sample_funds _ 0 _ _ H).
Defined.

End BlackjackGame.
