(* ===== verification/Render.v ===== *)
(** * Terminal rendering of both games

    The functions that build what the games print: in [src/poker.py]
    [suit_color], [format_card], [format_hidden_card], [format_joker],
    [render] and [show_table] (lines 5-71 and 205-218); in the blackjack
    module the nested [suit_color], [format_card], [format_hidden_card],
    [render_hand] and [show_table] (lines 9-34, 66-94 and 119-143).

    Python strings are modelled by their UTF-8 encoding: the code only
    concatenates them (f-strings, [+=], [''.join]) and applies [str.center]
    to ASCII faces, and concatenation commutes with the encoding.  What the
    terminal receives is a list of events: [os.system('clear')], one
    [print] per call, and the writes without a newline of the blackjack
    [hide], [show], [clear] and [typewriter] (lines 37-45). *)

From S2P Require Import Prelude PyBuiltins Cards Tally Blackjack.
From stdpp Require Import pretty.
From Stdlib Require Import Ascii.
Local Open Scope Z_scope.

Module Render.
Import Tally Blackjack.

(** ** Text *)

(** ["\033" + s], an ANSI escape sequence. *)
Definition esc (s : string) : string := String (ascii_of_nat 27) s.
(** ["\n"] *)
Definition NL : string := String (ascii_of_nat 10) "".

(** [" " * n] *)
Fixpoint spaces (n : nat) : string :=
  match n with O => "" | S n' => String " "%char (spaces n') end.

(** [s.center(width)] on ASCII text: CPython pads [marg / 2 + (marg &
    width & 1)] spaces on the left and the rest on the right. *)
Definition py_center (s : string) (width : nat) : string :=
  let marg := (width - String.length s)%nat in
  if (marg =? 0)%nat then s
  else
    let left := (marg / 2 + Nat.land marg (Nat.land width 1))%nat in
    spaces left +:+ s +:+ spaces (marg - left).

(** What a program writes to the terminal: [os.system('clear')], a
    [print] call (its text and a newline) and a [print(..., end="")]. *)
Inductive out_event := Clear | Print (s : string) | Write (s : string).

(** The bytes the events send to the terminal ([os.system('clear')] runs
    another program, which writes its own bytes). *)
Definition screen_text (evs : list out_event) : string :=
  foldr (fun e acc => match e with
                      | Clear => acc
                      | Print s => s +:+ NL +:+ acc
                      | Write s => s +:+ acc
                      end) "" evs.

(** ** The poker table (src/poker.py) *)

(** Lines 6-14. *)
Definition RED : string := esc "[31m".
Definition BLACK : string := esc "[30m".
Definition YELLOW : string := esc "[33m".
Definition GREEN : string := esc "[38;2;0;255;0m".
Definition RESET : string := esc "[0m".
Definition BG_WHITE : string := esc "[48;2;255;255;255m".
Definition BG_GREY : string := esc "[48;2;235;235;235m".
Definition BOLD : string := esc "[1m".

(** Lines 17-21: the suit characters ([SPADE2] is the white spade). *)
Definition suit_char (s : suit) : string :=
  match s with HEART => "♥" | DIAMOND => "♦" | CLUB => "♣" | SPADE => "♠" end.
Definition SPADE2 : string := "♤".

(** [f"{suit}"] for the second component of a card: [None] prints as
    ["None"]. *)
Definition suit_text (s : option suit) : string :=
  match s with Some s => suit_char s | None => "None" end.

(** Lines 73-74: [os.system('cls' if os.name == 'nt' else 'clear')]. *)
Definition clear : out_event := Clear.

(** Lines 29-30. *)
Definition suit_color (s : option suit) : string :=
  match s with Some HEART | Some DIAMOND => RED | _ => BLACK end.

(** Lines 32-39. *)
Definition format_card (face : string) (s : option suit) : string * string * string :=
  let face_display := if bool_decide (face <> "10") then py_center face 2 else face in
  let col := suit_color s in
  (BOLD +:+ col +:+ BG_WHITE +:+ suit_text s +:+ "  " +:+ RESET,
   BOLD +:+ col +:+ BG_WHITE +:+ " " +:+ face_display +:+ RESET,
   BOLD +:+ col +:+ BG_WHITE +:+ "  " +:+ suit_text s +:+ RESET).

(** Lines 42-47. *)
Definition format_hidden_card : string * string * string :=
  (BG_WHITE +:+ BLACK +:+ suit_char SPADE +:+ BOLD +:+ " " +:+ RED +:+ suit_char HEART +:+ RESET,
   BOLD +:+ BLACK +:+ BG_WHITE +:+ " " +:+ SPADE2 +:+ " " +:+ RESET,
   BOLD +:+ BG_WHITE +:+ RED +:+ suit_char DIAMOND +:+ " " +:+ BLACK +:+ suit_char CLUB +:+ RESET).

(** Lines 50-55. *)
Definition format_joker : string * string * string :=
  (BOLD +:+ BLACK +:+ BG_GREY +:+ "J  " +:+ RESET,
   BOLD +:+ BLACK +:+ BG_GREY +:+ " ♞ " +:+ RESET,
   BOLD +:+ BLACK +:+ BG_GREY +:+ "  J" +:+ RESET).

(** [lines[0] += a + " "] and so on, for one card's three rows. *)
Definition add_rows (lines : string * string * string) (rows : string * string * string)
  : string * string * string :=
  let '(l0, l1, l2) := lines in
  let '(a, b, c2) := rows in
  (l0 +:+ (a +:+ " "), l1 +:+ (b +:+ " "), l2 +:+ (c2 +:+ " ")).

(** Lines 58-71. *)
Definition render (cards : list card) (hide : bool) : list string :=
  let '(l0, l1, l2) :=
    fold_left (fun lines (c : card) =>
                 add_rows lines (if hide then format_hidden_card
                                 else if bool_decide (c.1 = "JOKER") then format_joker
                                 else format_card c.1 c.2))
              cards ("", "", "") in
  [l0; l1; l2].

(** Lines 206-218: [hide_dealer] defaults to [True]; each f-string calls
    the percentage function twice. *)
Definition show_table (player_hand dealer_hand : list card) (hide_dealer : bool) (t : tally)
  : res (list out_event) :=
  let! dp1 := get_dealer_percent t in
  let! dp2 := get_dealer_percent t in
  let! pp1 := get_player_percent t in
  let! pp2 := get_player_percent t in
  Ok ([clear; Print (BOLD +:+ "♠ 5-CARD DRAW ♣" +:+ RESET +:+ NL);
       Print (BOLD +:+ RED +:+ "Dealer:" +:+ RESET)] ++
      (Print <$> render dealer_hand hide_dealer) ++
      [Print ("Dealer Win%: " +:+ (if 50 <=? dp1 then GREEN else RED) +:+ pretty dp2 +:+ RESET +:+ NL);
       Print (BOLD +:+ BLACK +:+ "Your Hand:" +:+ RESET)] ++
      (Print <$> render player_hand false) ++
      [Print ("Player Win%: " +:+ (if 50 <=? pp1 then GREEN else RED) +:+ pretty pp2 +:+ RESET +:+ NL)]).

(** ** The blackjack table (BBlackjack.py, inside [game()]) *)

(** The constants [game()] defines for itself (lines 10-28): the same
    escape sequences as the poker file's, and two more. *)
Module BJ.
Definition RED : string := esc "[31m".
Definition BLACK : string := esc "[30m".
Definition gray : string := esc "[2m".
Definition YELLOW : string := esc "[33m".
Definition ORANGE : string := esc "[38;2;255;165;0m".
Definition GREEN : string := esc "[38;2;0;255;0m".
Definition RESET : string := esc "[0m".
Definition BG_WHITE : string := esc "[48;2;255;255;255m".
Definition BOLD : string := esc "[1m".

(** Lines 21-24: the suits are the strings themselves. *)
Definition suit_char (s : suit) : string :=
  match s with HEART => "♥" | DIAMOND => "♦" | CLUB => "♣" | SPADE => "♠" end.
(** Lines 25-28: the white suits. *)
Definition heart2 : string := "♡".
Definition diamond2 : string := "♢".
Definition club2 : string := "♧".
Definition spade2 : string := "♤".

(** Lines 37-39: cursor and screen escape sequences, written without a
    newline. *)
Definition hide : out_event := Write (esc "[?25l").
Definition show : out_event := Write (esc "[?25h").
Definition clear : out_event := Write (esc "[H" +:+ esc "[J").

(** Lines 41-45: one write per character, then a newline; [time.sleep]
    only delays.  The texts the game passes are ASCII, whose characters
    are their bytes. *)
Definition typewriter (text : string) : list out_event :=
  ((fun a => Write (String a "")) <$> String.list_ascii_of_string text) ++ [Print ""].
End BJ.

(** Line 34: the coin strings, the keys of the [coins] dictionary. *)
Definition coin_text (c : coin) : string :=
  match c with
  | BigCoin => BJ.YELLOW +:+ BJ.BOLD +:+ "⛁ " +:+ BJ.RESET
  | SmallCoin => BJ.YELLOW +:+ BJ.BOLD +:+ "⛀ " +:+ BJ.RESET
  end.

(** Line 66. *)
Definition bj_suit_color (s : suit) : string :=
  match s with HEART | DIAMOND => BJ.RED | _ => BJ.BLACK end.

(** Lines 68-75. *)
Definition bj_format_card (face : string) (s : suit) : string * string * string :=
  let face_display := if bool_decide (face <> "10") then py_center face 2 else face in
  let col := bj_suit_color s in
  (BJ.BOLD +:+ col +:+ BJ.BG_WHITE +:+ BJ.suit_char s +:+ "  " +:+ BJ.RESET,
   BJ.BOLD +:+ col +:+ BJ.BG_WHITE +:+ " " +:+ face_display +:+ BJ.RESET,
   BJ.BOLD +:+ col +:+ BJ.BG_WHITE +:+ "  " +:+ BJ.suit_char s +:+ BJ.RESET).

(** Lines 77-82 ([spade2] is the white spade). *)
Definition bj_format_hidden_card : string * string * string :=
  (BJ.BG_WHITE +:+ BJ.BLACK +:+ BJ.suit_char SPADE +:+ BJ.BOLD +:+ " " +:+ BJ.RED +:+ BJ.suit_char HEART +:+ BJ.RESET,
   BJ.BOLD +:+ BJ.BLACK +:+ BJ.BG_WHITE +:+ " " +:+ BJ.spade2 +:+ " " +:+ BJ.RESET,
   BJ.BOLD +:+ BJ.BG_WHITE +:+ BJ.RED +:+ BJ.suit_char DIAMOND +:+ " " +:+ BJ.BLACK +:+ BJ.suit_char CLUB +:+ BJ.RESET).

(** Lines 84-94. *)
Definition render_hand (hand : list bj_card) (hide_all hide_first : bool) : list string :=
  let '(l0, l1, l2) :=
    fold_left (fun lines (ic : nat * bj_card) =>
                 add_rows lines (if hide_all || (hide_first && bool_decide (ic.1 = 0%nat))
                                 then bj_format_hidden_card
                                 else bj_format_card ic.2.1 ic.2.2))
              (imap pair hand) ("", "", "") in
  [l0; l1; l2].

(** Lines 121-124: the banner. *)
Definition banner : list string :=
  [BJ.gray +:+ BJ.BOLD +:+ "  ___ _      _   ___ _  __" +:+ BJ.RESET +:+ BJ.BOLD +:+ BJ.RED +:+ "  _  _   ___ _  __" +:+ BJ.RESET;
   BJ.gray +:+ BJ.BOLD +:+ " | _ ) |    /_\ / __| |/ /" +:+ BJ.RESET +:+ BJ.BOLD +:+ BJ.RED +:+ " | |/_\ / __| |/ /" +:+ BJ.RESET;
   BJ.gray +:+ BJ.BOLD +:+ " | _ \ |__ / _ \ (__| ' <" +:+ BJ.RESET +:+ BJ.BOLD +:+ BJ.RED +:+ " || / _ \ (__| ' < " +:+ BJ.RESET;
   BJ.gray +:+ BJ.BOLD +:+ " |___/____/_/ \_\___|_|\_" +:+ BJ.RESET +:+ BJ.BOLD +:+ BJ.RED +:+ "\__/_/ \_\___|_|\_\" +:+ BJ.RESET +:+ NL].

(** Lines 119-143: [bet_coins] is [None] or the coin list of [place_bet];
    both [None] and [[]] are false. *)
Definition bj_show_table (player_hand dealer_hand : list bj_card) (hide_all hide_dealer_first : bool)
    (bet_coins : list coin) : res (list out_event) :=
  let! dealer_line :=
    if hide_all then Ok "Dealer:"
    else if hide_dealer_first then
      let! c := py_index dealer_hand 1 in
      let! s := calc_score [c] in
      Ok ("Dealer:" +:+ BJ.BOLD +:+ BJ.ORANGE +:+ BJ.gray +:+ " " +:+ pretty s +:+ BJ.RESET)
    else
      let! s := calc_score dealer_hand in
      Ok ("Dealer:" +:+ BJ.BOLD +:+ BJ.ORANGE +:+ " " +:+ pretty s +:+ BJ.RESET) in
  let! player_line :=
    if negb hide_all then
      let! s := calc_score player_hand in
      Ok (NL +:+ "Your Hand:" +:+ BJ.BOLD +:+ BJ.GREEN +:+ " " +:+ pretty s +:+ BJ.RESET)
    else Ok (NL +:+ "Your Hand:") in
  Ok ([BJ.clear] ++ (Print <$> banner) ++ [Print dealer_line] ++
      (Print <$> render_hand dealer_hand hide_all hide_dealer_first) ++
      [Print player_line] ++ (Print <$> render_hand player_hand hide_all false) ++
      (if bool_decide (bet_coins <> []) && negb hide_all
       then [Print (foldr String.append "" (coin_text <$> bet_coins))] else [])).

(** ** What the tables hide *)

(** [typewriter] sends its text and a newline, whatever the delay. *)
Lemma typewriter_screen_text text : screen_text (BJ.typewriter text) = text +:+ NL.
Proof. unfold BJ.typewriter. induction text as [|a text IH]; [done|]. simpl.
  change (String a text +:+ NL) with (String a (text +:+ NL)). rewrite <- IH. reflexivity. Qed.

Lemma fold_left_length_only {A B} (f : B -> A -> B) (g : B -> B) (l1 l2 : list A) acc :
  (forall b a, f b a = g b) -> length l1 = length l2 ->
  fold_left f l1 acc = fold_left f l2 acc.
Proof.
  intros Hf. revert l2 acc; induction l1 as [|x l1 IH]; intros [|y l2] acc Hl; try done.
  simpl. rewrite !Hf. apply IH. simpl in Hl. lia.
Qed.

Lemma render_hidden (c1 c2 : list card) :
  length c1 = length c2 -> render c1 true = render c2 true.
Proof.
  intros Hl. unfold render.
  by rewrite (fold_left_length_only _ (fun lines => add_rows lines format_hidden_card) c1 c2).
Qed.

Lemma render_hand_hide_all (h1 h2 : list bj_card) hide_first :
  length h1 = length h2 -> render_hand h1 true hide_first = render_hand h2 true hide_first.
Proof.
  intros Hl. unfold render_hand.
  rewrite (fold_left_length_only _ (fun lines => add_rows lines bj_format_hidden_card)
             (imap pair h1) (imap pair h2)); [done|done|by rewrite !length_imap].
Qed.

Lemma render_hand_hide_first (c1 c2 : bj_card) rest :
  render_hand (c1 :: rest) false true = render_hand (c2 :: rest) false true.
Proof. reflexivity. Qed.

(** C35: the tables shown while a hand is being decided hide the dealer's
    cards: the poker table with [hide_dealer] depends on the dealer's hand
    only through its number of cards; the blackjack table of the player's
    turn ([hide_dealer_first]) does not depend on the dealer's first card,
    and the blackjack table shown before the bet ([hide_all]) depends on
    neither hand beyond their sizes. *)
Theorem tables_hide_dealer_cards (player dealer1 dealer2 : list card) t
    (bp bp' : list bj_card) (c1 c2 c : bj_card) (rest bd bd' : list bj_card) coins :
  length dealer1 = length dealer2 -> length bp = length bp' -> length bd = length bd' ->
  show_table player dealer1 true t = show_table player dealer2 true t /\
  bj_show_table bp (c1 :: c :: rest) false true coins =
    bj_show_table bp (c2 :: c :: rest) false true coins /\
  bj_show_table bp bd true false coins = bj_show_table bp' bd' true false coins.
Proof.
  intros Hd Hp Hbd. split_and!.
  - unfold show_table. by rewrite (render_hidden dealer1 dealer2).
  - unfold bj_show_table. by rewrite (render_hand_hide_first c1 c2).
  - unfold bj_show_table. simpl.
    by rewrite (render_hand_hide_all bd bd' false), (render_hand_hide_all bp bp' false).
Qed.

Lemma tables_hide_dealer_cards_witness :
  length [JOKER; ("A", Some SPADE)] = length [("2", Some CLUB); ("3", Some CLUB)] /\
  length [("A", HEART)] = length [("2", CLUB)] /\
  length [("K", SPADE)] = length [("5", DIAMOND)] /\
  (show_table [] [JOKER; ("A", Some SPADE)] true Tally.initial_tally =
     show_table [] [("2", Some CLUB); ("3", Some CLUB)] true Tally.initial_tally /\
   bj_show_table [("A", HEART)] [("A", SPADE); ("7", CLUB)] false true [] =
     bj_show_table [("A", HEART)] [("2", HEART); ("7", CLUB)] false true [] /\
   bj_show_table [("A", HEART)] [("K", SPADE)] true false [] =
     bj_show_table [("2", CLUB)] [("5", DIAMOND)] true false []).
Proof.
  assert (H1 : length [JOKER; ("A", Some SPADE)] = length [("2", Some CLUB); ("3", Some CLUB)])
    by reflexivity.
  assert (H2 : length [("A", HEART)] = length [("2", CLUB)]) by reflexivity.
  assert (H3 : length [("K", SPADE)] = length [("5", DIAMOND)]) by reflexivity.
  split; [exact H1|]. split; [exact H2|]. split; [exact H3|].
  exact (tables_hide_dealer_cards [] _ _ Tally.initial_tally _ _ ("A", SPADE) ("2", HEART)
           ("7", CLUB) [] _ _ [] H1 H2 H3).
Defined.

End Render.
